(** * Text-to-PPTX: outline extraction, LLM adapter and deck composition

    A shallow embedding of [parser.py], [llm_router.py] and
    [slide_maker.py], and of the block of [app.py] that decides the
    outline.  Python strings are sequences of Unicode code points,
    so a [str] is a [list N]; Python [int]s are [Z]; exceptions are values
    of [exn] carried by [result]. *)

From Stdlib Require Import List ZArith NArith Arith Bool Lia String Ascii.
From Stdlib Require DecimalString.
From Stdlib Require Import Permutation.
Import ListNotations.

(** [String] is loaded for literals only: [length] and [concat] stay the
    list's. *)
Abbreviation length := Datatypes.length (only parsing).
Abbreviation concat := List.concat (only parsing).

(* ================================================================== *)
(** * Python strings *)
(* ================================================================== *)

Definition pystr := list N.

(** A literal: the code points of an ASCII string. *)
Definition py (s : string) : pystr := map N_of_ascii (list_ascii_of_string s).

(** A literal written with apostrophes where the text has double quotes. *)
Definition pyq (s : string) : pystr :=
  map (fun c => if N.eqb c 39 then 34%N else c) (py s).

Definition NL : N := 10.
Definition BULLET : N := 8226.      (* U+2022 *)
Definition ELLIPSIS : N := 8230.    (* U+2026 *)

Definition str_eqb (a b : pystr) : bool :=
  if list_eq_dec N.eq_dec a b then true else false.

Definition nonempty {A} (l : list A) : bool :=
  match l with [] => false | _ => true end.

(** [str.isspace] on one code point, and the regex class [\s]: both use the
    Unicode white-space property. *)
Definition isspace (c : N) : bool :=
  existsb (N.eqb c)
    [9; 10; 11; 12; 13; 28; 29; 30; 31; 32; 133; 160; 5760;
     8192; 8193; 8194; 8195; 8196; 8197; 8198; 8199; 8200; 8201; 8202;
     8232; 8233; 8239; 8287; 12288]%N.

(** The line boundaries of [str.splitlines] (CR LF is handled apart). *)
Definition is_linebreak (c : N) : bool :=
  existsb (N.eqb c) [10; 11; 12; 13; 28; 29; 30; 133; 8232; 8233]%N.

Fixpoint dropwhile {A} (p : A -> bool) (l : list A) : list A :=
  match l with
  | [] => []
  | x :: r => if p x then dropwhile p r else l
  end.

Fixpoint takewhile {A} (p : A -> bool) (l : list A) : list A :=
  match l with
  | [] => []
  | x :: r => if p x then x :: takewhile p r else []
  end.

(** [s.lstrip(chars)], [s.rstrip(chars)], [s.strip(chars)] for a set of
    code points given as a predicate. *)
Definition lstrip_by (p : N -> bool) (s : pystr) : pystr := dropwhile p s.
Definition rstrip_by (p : N -> bool) (s : pystr) : pystr :=
  rev (dropwhile p (rev s)).
Definition strip_by (p : N -> bool) (s : pystr) : pystr :=
  rstrip_by p (lstrip_by p s).

(** [s.strip()] *)
Definition strip (s : pystr) : pystr := strip_by isspace s.

(** [sep.join(parts)] *)
Fixpoint join (sep : pystr) (parts : list pystr) : pystr :=
  match parts with
  | [] => []
  | [p] => p
  | p :: rest => p ++ sep ++ join sep rest
  end.

(** [s.splitlines()]: [cur] holds the current line, reversed. *)
Fixpoint splitlines_from (cur : pystr) (s : pystr) : list pystr :=
  match s with
  | [] => if nonempty cur then [rev cur] else []
  | c :: rest =>
      if N.eqb c 13 then
        match rest with
        | d :: rest' =>
            if N.eqb d 10 then rev cur :: splitlines_from [] rest'
            else rev cur :: splitlines_from [] rest
        | [] => rev cur :: splitlines_from [] rest
        end
      else if is_linebreak c then rev cur :: splitlines_from [] rest
      else splitlines_from (c :: cur) rest
  end.

Definition splitlines (s : pystr) : list pystr := splitlines_from [] s.

(** [s.split(sep)] for a one-character separator. *)
Fixpoint split_char_from (sep : N) (cur : pystr) (s : pystr) : list pystr :=
  match s with
  | [] => [rev cur]
  | c :: rest =>
      if N.eqb c sep then rev cur :: split_char_from sep [] rest
      else split_char_from sep (c :: cur) rest
  end.

Definition split_char (sep : N) (s : pystr) : list pystr :=
  split_char_from sep [] s.

(** [s.startswith(prefix)] *)
Fixpoint startswith (s prefix : pystr) : bool :=
  match prefix, s with
  | [], _ => true
  | p :: prefix', c :: s' => N.eqb p c && startswith s' prefix'
  | _ :: _, [] => false
  end.

(** [needle in s] *)
Fixpoint contains (s needle : pystr) : bool :=
  startswith s needle ||
  match s with
  | [] => false
  | _ :: s' => contains s' needle
  end.

(** [str.lower], one code point at a time.  Exact on ASCII and on the two
    code points outside ASCII whose lower case holds an ASCII letter
    (U+0130 and the Kelvin sign); every other code point outside ASCII is
    kept, so the ASCII letters of the result are those of Python's. *)
Definition lower_char (c : N) : pystr :=
  if (65 <=? c)%N && (c <=? 90)%N then [(c + 32)%N]
  else if N.eqb c 304 then [105; 775]%N
  else if N.eqb c 8490 then [107]%N
  else [c].

Definition lower (s : pystr) : pystr := flat_map lower_char s.

(** The slice [xs[:k]] for any Python int [k]. *)
Definition slice_to {A} (k : Z) (xs : list A) : list A :=
  if (k <? 0)%Z then firstn (Z.to_nat (Z.of_nat (length xs) + k)) xs
  else firstn (Z.to_nat k) xs.

(** [re.split(pattern, s)] for a pattern that never matches the empty
    string: [sep_len s] is the length of the pattern's match at the start of
    [s], if it matches there.  [skip] counts the characters of the current
    match still to be passed over; [cur] is the piece being read, reversed. *)
Fixpoint re_split_from (sep_len : pystr -> option nat)
    (skip : nat) (cur : pystr) (s : pystr) : list pystr :=
  match s with
  | [] => [rev cur]
  | c :: rest =>
      match skip with
      | S k => re_split_from sep_len k cur rest
      | O =>
          match sep_len s with
          | Some (S k) => rev cur :: re_split_from sep_len k [] rest
          | _ => re_split_from sep_len O (c :: cur) rest
          end
      end
  end.

Definition re_split (sep_len : pystr -> option nat) (s : pystr) : list pystr :=
  re_split_from sep_len O [] s.

(** [str(n)] for an int. *)
Definition str_of_int (n : Z) : pystr :=
  py (DecimalString.NilEmpty.string_of_int (Z.to_int n)).

(* ================================================================== *)
(** * Exceptions *)
(* ================================================================== *)

Inductive exn : Type :=
| ValueError (msg : pystr)
| ZeroDivisionError
| IndexError
| JSONDecodeError
| KeyError (key : pystr)
| AttributeError
| RecursionError
| ProviderFailure (detail : pystr).   (* raised inside a provider's client *)

Inductive result (A : Type) : Type :=
| Ok (a : A)
| Raise (e : exn).

Arguments Ok {A} a.
Arguments Raise {A} e.

(* ================================================================== *)
(** * parser.py *)
(* ================================================================== *)

(** A section dict [{"title": ..., "content": ...}]. *)
Record sec : Type := { sec_title : pystr; sec_content : pystr }.

(** An outline entry [{"title": ..., "bullets": [...]}]. *)
Record entry : Type := { title : pystr; bullets : list pystr }.

(** The dict [current] of [_split_markdown_sections]; its title starts as
    [None]. *)
Record current_sec : Type :=
  { cur_title : option pystr; cur_content : list pystr }.

(** Truth value of [current["title"]]. *)
Definition title_truthy (t : option pystr) : bool :=
  match t with Some (_ :: _) => true | _ => false end.

(** [current["title"] or "Section"] *)
Definition title_or_default (t : option pystr) : pystr :=
  match t with Some (c :: r) => c :: r | _ => py "Section" end.

(** [re.match] of the heading pattern (one to six [#], then white space,
    then group 2: any characters but a line feed) on [line.strip()]: [Some]
    of group 2 when the stripped line starts with one to six [#] and then
    white space.  Seven [#] or more do not match: the white space must
    follow the sixth at the latest. *)
Definition heading_match (line : pystr) : option pystr :=
  let l := strip line in
  let hashes := length (takewhile (N.eqb 35) l) in
  let rest := dropwhile (N.eqb 35) l in
  if (1 <=? hashes) && (hashes <=? 6) then
    match rest with
    | c :: _ =>
        if isspace c
        then Some (takewhile (fun d => negb (N.eqb d NL)) (dropwhile isspace rest))
        else None
    | [] => None
    end
  else None.

(** [sections.append({...})] guarded by [if current["title"] or
    current["content"]]. *)
Definition flush_current (sections : list sec) (current : current_sec) : list sec :=
  if title_truthy (cur_title current) || nonempty (cur_content current) then
    sections ++
      [ {| sec_title := title_or_default (cur_title current);
           sec_content := strip (join [NL] (cur_content current)) |} ]
  else sections.

(** One turn of [for line in lines]. *)
Definition split_step (st : list sec * current_sec) (line : pystr)
  : list sec * current_sec :=
  let (sections, current) := st in
  match heading_match line with
  | Some g2 =>
      (flush_current sections current,
       {| cur_title := Some (strip g2); cur_content := [] |})
  | None =>
      (sections,
       {| cur_title := cur_title current;
          cur_content := cur_content current ++ [line] |})
  end.

Definition _split_markdown_sections (md : pystr) : list sec :=
  let (sections, current) :=
    fold_left split_step (splitlines md)
      ([], {| cur_title := None; cur_content := [] |}) in
  filter (fun s => nonempty (sec_title s) || nonempty (sec_content s))
    (flush_current sections current).

(** The match of the paragraph separator (a line feed, any white space, a
    line feed) at the start of [s]: a line feed, then the white
    space up to the last line feed of the white-space run that follows. *)
Fixpoint last_nl_in_space (s : pystr) : option nat :=
  match s with
  | [] => None
  | c :: r =>
      if isspace c then
        match last_nl_in_space r with
        | Some n => Some (S n)
        | None => if N.eqb c NL then Some 1 else None
        end
      else None
  end.

Definition blank_line_sep (s : pystr) : option nat :=
  match s with
  | c :: r =>
      if N.eqb c NL then
        match last_nl_in_space r with Some n => Some (S n) | None => None end
      else None
  | [] => None
  end.

(** The match of the bullet separator at the start of [s]: a line feed, a
    bullet or a hyphen, then all the white space that follows, at least one
    character of it. *)
Definition bullet_sep (s : pystr) : option nat :=
  match s with
  | c :: r =>
      if N.eqb c NL || N.eqb c BULLET || N.eqb c 45 then
        match length (takewhile isspace r) with
        | O => None
        | S n => Some (S (S n))
        end
      else None
  | [] => None
  end.

(** The merged dict of one bucket: [bucket[0]["title"]] and the contents
    joined by a blank line. *)
Definition merge_bucket (bucket : list sec) : sec :=
  {| sec_title := match bucket with s :: _ => sec_title s | [] => [] end;
     sec_content := join [NL; NL] (map sec_content bucket) |}.

(** One turn of [for s in sections] in the capping loop; [threshold] is
    [max(1, len(sections)//max_slides)]. *)
Definition cap_step (threshold : Z) (st : list sec * list sec) (s : sec)
  : list sec * list sec :=
  let (merged, bucket) := st in
  let bucket := bucket ++ [s] in
  if (Z.of_nat (length bucket) >=? threshold)%Z
  then (merged ++ [merge_bucket bucket], [])
  else (merged, bucket).

(** The block under [# Cap slides]: the sections that go on to the
    bullet pass. *)
Definition cap_sections (sections : list sec) (max_slides : Z) : result (list sec) :=
  if (Z.of_nat (length sections) >? max_slides)%Z then
    if (max_slides =? 0)%Z then Raise ZeroDivisionError
    else
      let threshold := Z.max 1 (Z.of_nat (length sections) / max_slides) in
      let (merged, bucket) := fold_left (cap_step threshold) sections ([], []) in
      let merged := if nonempty bucket then merged ++ [merge_bucket bucket] else merged in
      Ok (slice_to max_slides merged)
  else Ok sections.

Section Parser.

(** [textwrap.shorten(text, width=..., placeholder=...)], a function of the
    Python standard library. *)
Variable textwrap_shorten : pystr -> Z -> pystr -> pystr.

(** The body of [for sec in sections[:max_slides]] under [# Create bullets]. *)
Definition make_entry (s : sec) : entry :=
  let bullets := re_split bullet_sep (sec_content s) in
  let bullets := filter nonempty (map strip bullets) in
  let bullets :=
    map (fun b => if length b <=? 240 then b
                  else textwrap_shorten b 240 [ELLIPSIS])
        (firstn 8 bullets) in
  {| title := firstn 90 (sec_title s); bullets := bullets |}.

Definition heuristic_outline (text : pystr) (max_slides : Z) : result (list entry) :=
  let sections := _split_markdown_sections text in
  let sections :=
    if nonempty sections then sections
    else
      let paragraphs := filter nonempty (map strip (re_split blank_line_sep text)) in
      sections ++
        map (fun p =>
               let title := firstn 80 (hd [] (split_char 46 p)) in
               {| sec_title := if nonempty title then title else py "Topic";
                  sec_content := p |})
            paragraphs in
  match cap_sections sections max_slides with
  | Raise e => Raise e
  | Ok sections => Ok (map make_entry (slice_to max_slides sections))
  end.

(** The characters [ln.strip(" -•")] removes. *)
Definition dash_bullet_space (c : N) : bool :=
  N.eqb c 32 || N.eqb c 45 || N.eqb c BULLET.

Definition outline_from_text (text : pystr) (guidance : option pystr)
    (max_slides : Z) : result (list entry) :=
  let secs := _split_markdown_sections text in
  if nonempty secs then
    Ok (map (fun s =>
               let bullets :=
                 map (strip_by dash_bullet_space)
                     (filter (fun ln => nonempty (strip ln))
                             (splitlines (sec_content s))) in
               let bullets := firstn 8 (filter (fun b => 0 <? length b) bullets) in
               {| title := firstn 90 (sec_title s); bullets := bullets |})
            (slice_to max_slides secs))
  else heuristic_outline text max_slides.

End Parser.

(* ================================================================== *)
(** * json.loads *)
(* ================================================================== *)

(** What [json.loads] returns: [None], a [bool], an [int], a [float] (kept
    as the text of its token), a [str], a [list] or a [dict] (its items in
    insertion order, keys distinct). *)
#[warnings="-register-all"]
Inductive json : Type :=
| JNull
| JBool (b : bool)
| JInt (z : Z)
| JFloat (token : pystr)
| JStr (s : pystr)
| JArr (items : list json)
| JObj (pairs : list (pystr * json)).

(** [d[k] = v] on the items of a dict: a key already there keeps its place. *)
Fixpoint dict_set (k : pystr) (v : json) (d : list (pystr * json))
  : list (pystr * json) :=
  match d with
  | [] => [(k, v)]
  | (k', v') :: rest =>
      if str_eqb k k' then (k, v) :: rest else (k', v') :: dict_set k v rest
  end.

(** [dict(pairs)] *)
Definition dict_of_pairs (pairs : list (pystr * json)) : list (pystr * json) :=
  fold_left (fun d kv => dict_set (fst kv) (snd kv) d) pairs [].

(** [d.get(k)] *)
Fixpoint dict_get (k : pystr) (d : list (pystr * json)) : option json :=
  match d with
  | [] => None
  | (k', v) :: rest => if str_eqb k k' then Some v else dict_get k rest
  end.

(** The white space of the decoder: space, tab, line feed, carriage return. *)
Definition json_ws (c : N) : bool :=
  N.eqb c 32 || N.eqb c 9 || N.eqb c 10 || N.eqb c 13.

Definition skip_ws (s : pystr) : pystr := dropwhile json_ws s.

Definition is_digit (c : N) : bool := (48 <=? c)%N && (c <=? 57)%N.

Definition hex_value (c : N) : option N :=
  if is_digit c then Some (c - 48)%N
  else if (97 <=? c)%N && (c <=? 102)%N then Some (c - 87)%N
  else if (65 <=? c)%N && (c <=? 70)%N then Some (c - 55)%N
  else None.

(** The four hexadecimal digits of a [\uXXXX] escape, at the start of [s]. *)
Definition hex4 (s : pystr) : option N :=
  match s with
  | a :: b :: c :: d :: _ =>
      match hex_value a, hex_value b, hex_value c, hex_value d with
      | Some a, Some b, Some c, Some d => Some (a * 4096 + b * 256 + c * 16 + d)%N
      | _, _, _, _ => None
      end
  | _ => None
  end.

(** The escape that follows a backslash: the character it stands for and
    how many characters of [s] it takes.  A high surrogate followed by an
    escaped low surrogate makes one character. *)
Definition escape (s : pystr) : option (N * nat) :=
  match s with
  | [] => None
  | e :: r =>
      if N.eqb e 117 then
        match hex4 r with
        | None => None
        | Some uni =>
            let single := Some (uni, 5%nat) in
            if (55296 <=? uni)%N && (uni <=? 56319)%N then
              match skipn 4 r with
              | 92 :: 117 :: r2 =>
                  match hex4 r2 with
                  | None => None
                  | Some uni2 =>
                      if (56320 <=? uni2)%N && (uni2 <=? 57343)%N
                      then Some (65536 + ((uni - 55296) * 1024 + (uni2 - 56320)), 11%nat)
                      else single
                  end
              | _ => single
              end
            else single
        end%N
      else if N.eqb e 34 then Some (34, 1%nat)
      else if N.eqb e 92 then Some (92, 1%nat)
      else if N.eqb e 47 then Some (47, 1%nat)
      else if N.eqb e 98 then Some (8, 1%nat)
      else if N.eqb e 102 then Some (12, 1%nat)
      else if N.eqb e 110 then Some (10, 1%nat)
      else if N.eqb e 114 then Some (13, 1%nat)
      else if N.eqb e 116 then Some (9, 1%nat)
      else None
  end%N.

(** [scanstring(s, end, strict=True)], from just after the opening quote:
    the decoded string and what follows the closing quote.  [skip] counts
    the characters of an escape still to be passed over; [acc] is the
    decoded text so far, reversed. *)
Fixpoint scanstring_from (skip : nat) (acc : pystr) (s : pystr)
  : option (pystr * pystr) :=
  match s with
  | [] => None
  | c :: r =>
      match skip with
      | S k => scanstring_from k acc r
      | O =>
          if N.eqb c 34 then Some (rev acc, r)
          else if N.eqb c 92 then
            match escape r with
            | Some (ch, n) => scanstring_from n (ch :: acc) r
            | None => None
            end
          else if (c <=? 31)%N then None
          else scanstring_from O (c :: acc) r
      end
  end.

Definition scanstring (s : pystr) : option (pystr * pystr) :=
  scanstring_from O [] s.

(** The value of a run of decimal digits. *)
Definition digits_value (ds : pystr) : Z :=
  fold_left (fun acc d => (acc * 10 + Z.of_N (d - 48))%Z) ds 0%Z.

(** The longest run of digits [int] converts:
    [sys.int_info.default_max_str_digits]. *)
Definition INT_MAX_STR_DIGITS : nat := 4300.

(** What [int] raises on a longer run of [digits] digits. *)
Definition int_too_long (digits : nat) : exn :=
  ValueError
    (py "Exceeds the limit (4300 digits) for integer string conversion: value has "
     ++ str_of_int (Z.of_nat digits)
     ++ py " digits; use sys.set_int_max_str_digits() to increase the limit").

(** The number at the start of [s], as the scanner matches it: an optional
    minus; [0] or a digit from 1 to 9 and more digits; a fraction only if a
    digit follows the point; an exponent only if a digit follows the [e] and
    its sign.  A token with a fraction or an exponent is a float, kept as
    its token; any other is converted by [int], which refuses more than
    [INT_MAX_STR_DIGITS] digits. *)
Definition match_number (s : pystr) : option (result json * pystr) :=
  let (neg, s1) := match s with
                   | 45 :: r => (true, r)
                   | _ => (false, s)
                   end%N in
  match s1 with
  | d :: r1 =>
      if is_digit d then
        let int_digits := if N.eqb d 48 then [d] else d :: takewhile is_digit r1 in
        let s2 := skipn (length int_digits) s1 in
        let frac :=
          match s2 with
          | 46 :: r2 =>
              match takewhile is_digit r2 with
              | [] => []
              | ds => 46 :: ds
              end
          | _ => []
          end%N in
        let s3 := skipn (length frac) s2 in
        let exp :=
          match s3 with
          | e :: r3 =>
              if N.eqb e 101 || N.eqb e 69 then
                let sign := match r3 with
                            | c :: _ => if N.eqb c 43 || N.eqb c 45 then [c] else []
                            | [] => []
                            end in
                match takewhile is_digit (skipn (length sign) r3) with
                | [] => []
                | ds => e :: sign ++ ds
                end
              else []
          | [] => []
          end in
        let s4 := skipn (length exp) s3 in
        let minus := if neg then [45%N] else [] in
        if nonempty frac || nonempty exp
        then Some (Ok (JFloat (minus ++ int_digits ++ frac ++ exp)), s4)
        else if INT_MAX_STR_DIGITS <? length int_digits
        then Some (Raise (int_too_long (length int_digits)), s4)
        else Some (Ok (JInt (if neg then - digits_value int_digits
                             else digits_value int_digits)%Z), s4)
      else None
  | [] => None
  end.

(** The loop of [JSONArray]: values separated by commas, up to the closing
    bracket.  [scan] reads one value; what it raises ends the loop. *)
Fixpoint array_items (scan : pystr -> result (json * pystr)) (fuel : nat)
    (s : pystr) : result (list json * pystr) :=
  match fuel with
  | O => Raise JSONDecodeError
  | S fuel' =>
      match scan s with
      | Raise e => Raise e
      | Ok (v, r) =>
          match skip_ws r with
          | c :: r' =>
              if N.eqb c 93 then Ok ([v], r')
              else if N.eqb c 44 then
                match array_items scan fuel' (skip_ws r') with
                | Ok (vs, r'') => Ok (v :: vs, r'')
                | Raise e => Raise e
                end
              else Raise JSONDecodeError
          | [] => Raise JSONDecodeError
          end
      end
  end.

(** The loop of [JSONObject], from just after the opening quote of a key. *)
Fixpoint object_pairs (scan : pystr -> result (json * pystr)) (fuel : nat)
    (s : pystr) : result (list (pystr * json) * pystr) :=
  match fuel with
  | O => Raise JSONDecodeError
  | S fuel' =>
      match scanstring s with
      | None => Raise JSONDecodeError
      | Some (key, r) =>
          match skip_ws r with
          | c :: r1 =>
              if N.eqb c 58 then
                match scan (skip_ws r1) with
                | Raise e => Raise e
                | Ok (v, r2) =>
                    match skip_ws r2 with
                    | d :: r3 =>
                        if N.eqb d 125 then Ok ([(key, v)], r3)
                        else if N.eqb d 44 then
                          match skip_ws r3 with
                          | q :: r4 =>
                              if N.eqb q 34 then
                                match object_pairs scan fuel' r4 with
                                | Ok (ps, r5) => Ok ((key, v) :: ps, r5)
                                | Raise e => Raise e
                                end
                              else Raise JSONDecodeError
                          | [] => Raise JSONDecodeError
                          end
                        else Raise JSONDecodeError
                    | [] => Raise JSONDecodeError
                    end
                end
              else Raise JSONDecodeError
          | [] => Raise JSONDecodeError
          end
      end
  end.

(** [scan_once(string, idx)]: the value at the start of [s] and what follows
    it, or what the scanner raises: a decode error where the text is not
    JSON, what [int] raises on a number, and [RecursionError] when an object
    or an array opens with no [depth] left: the scanner enters a recursive
    call for each of them.  [fuel] bounds the number of items; the length
    of the text is enough, every value taking at least one character. *)
Fixpoint scan_once (fuel : nat) (depth : nat) (s : pystr) : result (json * pystr) :=
  match fuel with
  | O => Raise JSONDecodeError
  | S fuel' =>
      match s with
      | [] => Raise JSONDecodeError
      | c :: r =>
          if N.eqb c 34 then
            match scanstring r with
            | Some (str, r') => Ok (JStr str, r')
            | None => Raise JSONDecodeError
            end
          else if N.eqb c 123 then
            match depth with
            | O => Raise RecursionError
            | S depth' =>
                match skip_ws r with
                | d :: r' =>
                    if N.eqb d 125 then Ok (JObj [], r')
                    else if N.eqb d 34 then
                      match object_pairs (scan_once fuel' depth') fuel' r' with
                      | Ok (ps, r'') => Ok (JObj (dict_of_pairs ps), r'')
                      | Raise e => Raise e
                      end
                    else Raise JSONDecodeError
                | [] => Raise JSONDecodeError
                end
            end
          else if N.eqb c 91 then
            match depth with
            | O => Raise RecursionError
            | S depth' =>
                match skip_ws r with
                | d :: r' =>
                    if N.eqb d 93 then Ok (JArr [], r')
                    else
                      match array_items (scan_once fuel' depth') fuel' (d :: r') with
                      | Ok (vs, r'') => Ok (JArr vs, r'')
                      | Raise e => Raise e
                      end
                | [] => Raise JSONDecodeError
                end
            end
          else if startswith s (py "null") then Ok (JNull, skipn 4 s)
          else if startswith s (py "true") then Ok (JBool true, skipn 4 s)
          else if startswith s (py "false") then Ok (JBool false, skipn 5 s)
          else
            match match_number s with
            | Some (Ok v, r') => Ok (v, r')
            | Some (Raise e, _) => Raise e
            | None =>
                if startswith s (py "NaN") then Ok (JFloat (py "NaN"), skipn 3 s)
                else if startswith s (py "Infinity")
                then Ok (JFloat (py "Infinity"), skipn 8 s)
                else if startswith s (py "-Infinity")
                then Ok (JFloat (py "-Infinity"), skipn 9 s)
                else Raise JSONDecodeError
            end
      end
  end.

(** The nesting the scanner may enter: what is left of the interpreter's
    recursion limit (1000 by default) when [json.loads] is called from the
    top level of a module.  Every frame between that level and the call
    takes one more, so the figure is smaller under the page; the two
    parses of [_safe_parse_json] are made at the same depth.  The
    statements below hold whatever the figure is, their samples being
    nested two deep. *)
Definition scanner_depth : nat := 995.

(** [json.loads(s)] for a [str]: a byte order mark is refused; white space
    may surround the one value; anything else after it is extra data. *)
Definition json_loads (s : pystr) : result json :=
  match s with
  | 65279%N :: _ => Raise JSONDecodeError
  | _ =>
      match scan_once (S (length s)) scanner_depth (skip_ws s) with
      | Ok (v, r) =>
          match skip_ws r with
          | [] => Ok v
          | _ :: _ => Raise JSONDecodeError
          end
      | Raise e => Raise e
      end
  end.

(* ================================================================== *)
(** * llm_router.py *)
(* ================================================================== *)

Record ProviderConfig : Type :=
  { name : pystr; api_key : pystr; model : option pystr }.

(** [x or default] for an optional string. *)
Definition str_or (x : option pystr) (default : pystr) : pystr :=
  match x with Some (c :: r) => c :: r | _ => default end.

Definition _prompt_outline (text : pystr) (guidance : option pystr)
    (max_slides : Z) : pystr :=
  let guide := str_or guidance (py "Create a concise professional slide deck.") in
  py "You are a presentation planner. Read the input and propose a slide outline."
  ++ [NL; NL]
  ++ py "GUIDANCE: " ++ guide ++ [NL]
  ++ py "MAX_SLIDES: " ++ str_of_int max_slides ++ [NL; NL]
  ++ py "Return JSON with this shape:" ++ [NL]
  ++ pyq "[{'title': '...','bullets':['...','...']}, ...]" ++ [NL; NL]
  ++ py "INPUT:" ++ [NL]
  ++ slice_to 15000 text ++ [NL].

(** [re.search] of the bracket pattern (an opening bracket, anything, a
    closing bracket, with [re.S]) in [s]: from the first opening bracket to
    the last closing bracket after it. *)
Definition bracket_search (s : pystr) : option pystr :=
  match dropwhile (fun c => negb (N.eqb c 91)) s with
  | [] => None
  | open :: after =>
      match rev (dropwhile (fun c => negb (N.eqb c 93)) (rev after)) with
      | [] => None
      | upto => Some (open :: upto)
      end
  end.

Definition _safe_parse_json (s : pystr) : result json :=
  match json_loads s with
  | Ok v => Ok v
  | Raise JSONDecodeError =>
      match bracket_search s with
      | Some group1 => json_loads group1
      | None => Raise JSONDecodeError
      end
  | Raise e => Raise e
  end.

Inductive provider : Type := OpenAI | Anthropic | Gemini.

(** One round trip to a provider: what the client is given. *)
Record net_call : Type :=
  { call_provider : provider;
    call_api_key : pystr;
    call_model : pystr;
    call_prompt : pystr }.

(** A content block of an Anthropic message: its [type], if it has one, and
    its [text]. *)
Record block : Type := { block_type : option pystr; block_text : pystr }.

(** The providers' answers: what the [n]-th call of a run returns (the
    message content for OpenAI, the content blocks for Anthropic, the
    response text for Gemini) or raises. *)
Record network : Type :=
  { openai_create : nat -> net_call -> result pystr;
    anthropic_create : nat -> net_call -> result (list block);
    gemini_generate : nat -> net_call -> result pystr }.

(** Code that calls providers: it is given the calls made so far and
    returns its result, or the exception it raised, with the calls made. *)
Definition Net (A : Type) : Type := list net_call -> result A * list net_call.

Definition ret {A} (a : A) : Net A := fun log => (Ok a, log).
Definition raise {A} (e : exn) : Net A := fun log => (Raise e, log).
Definition bind {A B} (m : Net A) (f : A -> Net B) : Net B :=
  fun log =>
    match m log with
    | (Ok a, log') => f a log'
    | (Raise e, log') => (Raise e, log')
    end.
Definition lift {A} (r : result A) : Net A := fun log => (r, log).

(** The round trip itself: the call is recorded, the answer is the
    network's. *)
Definition round_trip {A} (answer : nat -> net_call -> result A) (c : net_call)
  : Net A :=
  fun log => (answer (length log) c, log ++ [c]).

Notation "x <- m ;; k" := (bind m (fun x => k))
  (at level 61, m at next level, right associativity).

(** [try: body except Exception: handler] *)
Definition try_except {A} (body : Net A) (handler : Net A) : Net A :=
  fun log =>
    match body log with
    | (Ok a, log') => (Ok a, log')
    | (Raise _, log') => handler log'
    end.

Section Router.

Variable net : network.

Definition make_outline_with_llm (text : pystr) (guidance : option pystr)
    (cfg : ProviderConfig) (max_slides : Z) : Net json :=
  let prompt := _prompt_outline text guidance max_slides in
  let name := lower (name cfg) in
  if contains name (py "openai") then
    let model := str_or (model cfg) (py "gpt-4o-mini") in
    content <- round_trip (openai_create net)
                 {| call_provider := OpenAI; call_api_key := api_key cfg;
                    call_model := model; call_prompt := prompt |} ;;
    lift (_safe_parse_json content)
  else if contains name (py "anthropic") then
    let model := str_or (model cfg) (py "claude-3-5-sonnet-latest") in
    msg <- round_trip (anthropic_create net)
             {| call_provider := Anthropic; call_api_key := api_key cfg;
                call_model := model; call_prompt := prompt |} ;;
    let content :=
      concat (map block_text
                  (filter (fun b => match block_type b with
                                    | Some t => str_eqb t (py "text")
                                    | None => false
                                    end) msg)) in
    lift (_safe_parse_json content)
  else if contains name (py "gemini") || contains name (py "google") then
    resp <- round_trip (gemini_generate net)
              {| call_provider := Gemini; call_api_key := api_key cfg;
                 call_model := str_or (model cfg) (py "gemini-1.5-pro");
                 call_prompt := prompt |} ;;
    lift (_safe_parse_json resp)
  else
    raise (ValueError
             (py "Unsupported provider name. Choose OpenAI, Anthropic, or Gemini.")).

End Router.

(* ================================================================== *)
(** * The deck, as python-pptx presents it *)
(* ================================================================== *)

Definition bytes := list N.

(** Lengths are in English Metric Units, as the library keeps them.
    [Inches] takes tenths of an inch: [Inches 60] is [Inches(6.0)]. *)
Definition Inches (tenths : Z) : Z := (tenths * 91440)%Z.
Definition Pt (points : Z) : Z := (points * 12700)%Z.

Record paragraph : Type :=
  { p_text : pystr; p_level : Z; p_space_after : option Z }.

(** The paragraph of a new text frame, and the one [add_paragraph] adds. *)
Definition empty_paragraph : paragraph :=
  {| p_text := []; p_level := 0; p_space_after := None |}.

(** A placeholder of a slide: the [idx] of its placeholder format (0 is the
    title), whether it can hold text, and the paragraphs of its text frame. *)
Record placeholder : Type :=
  { ph_idx : Z; has_text_frame : bool; paragraphs : list paragraph }.

Record picture : Type :=
  { pic_image : bytes; pic_left : Z; pic_top : Z; pic_width : Z }.

Record slide : Type :=
  { placeholders : list placeholder;
    pictures : list picture;
    notes_text : option pystr }.

(** A layout: its name and the placeholders [add_slide] clones from it. *)
Record layout : Type :=
  { layout_name : pystr; layout_placeholders : list (Z * bool) }.

(** The presentation being edited.  [notes_placeholder] tells whether a
    notes slide has a notes text frame. *)
Record Presentation : Type :=
  { slide_layouts : list layout;
    slides : list slide;
    notes_placeholder : bool }.

(** An entry of the template's archive; [entry_data] is [None] when reading
    it raises. *)
Record zip_entry : Type := { entry_name : pystr; entry_data : option bytes }.

(** The uploaded template: its archive and the presentation it opens as.
    A template is a file that [zipfile] and python-pptx open: bytes that
    are no archive, or no presentation, make [build_presentation] raise at
    its first lines and are outside the model. *)
Record template : Type :=
  { archive : list zip_entry; opened : Presentation }.

(** The slide a new slide starts as: the layout's placeholders, each with a
    text frame of one empty paragraph if it can hold text. *)
Definition new_slide (l : layout) : slide :=
  {| placeholders :=
       map (fun ph : Z * bool =>
              {| ph_idx := fst ph; has_text_frame := snd ph;
                 paragraphs := if snd ph then [empty_paragraph] else [] |})
           (layout_placeholders l);
     pictures := [];
     notes_text := None |}.

(** [l[i] = f(l[i])]; nothing changes out of range. *)
Fixpoint update_at {A} (i : nat) (f : A -> A) (l : list A) : list A :=
  match l, i with
  | [], _ => []
  | x :: r, O => f x :: r
  | x :: r, S j => x :: update_at j f r
  end.

(** [prs.slides.add_slide(layout)]: the slide is appended to the deck; the
    slide object returned is its position there. *)
Definition add_slide (prs : Presentation) (l : layout) : Presentation * nat :=
  ({| slide_layouts := slide_layouts prs;
      slides := slides prs ++ [new_slide l];
      notes_placeholder := notes_placeholder prs |},
   length (slides prs)).

Definition empty_slide : slide :=
  {| placeholders := []; pictures := []; notes_text := None |}.

Definition get_slide (prs : Presentation) (i : nat) : slide :=
  nth i (slides prs) empty_slide.

Definition set_slide (prs : Presentation) (i : nat) (f : slide -> slide)
  : Presentation :=
  {| slide_layouts := slide_layouts prs;
     slides := update_at i f (slides prs);
     notes_placeholder := notes_placeholder prs |}.

(** The vertical tab: what a line break inside a paragraph reads as. *)
Definition VT : N := 11.

(** The pattern [\n|\v] at the start of [s]. *)
Definition line_break_sep (s : pystr) : option nat :=
  match s with
  | c :: _ => if N.eqb c NL || N.eqb c VT then Some 1 else None
  | [] => None
  end.

Definition hex_digit (n : N) : N :=
  if (n <? 10)%N then (48 + n)%N else (55 + n)%N.

(** [_escape_ctrl_chars] of a run: a code point of the class
    [[\x00-\x08\x0B-\x1F]] becomes [_x%04X_] of it, as a deck is XML and
    cannot carry it; tab and line feed are kept. *)
Definition _escape_ctrl_chars (s : pystr) : pystr :=
  flat_map
    (fun c => if (c <=? 8)%N || ((11 <=? c)%N && (c <=? 31)%N)
              then py "_x00" ++ [hex_digit (c / 16); hex_digit (c mod 16)] ++ py "_"
              else [c])
    s.

(** [p.text] after [p.text = text], and after [append_text(text)] on an
    empty paragraph: the text is cut at each line feed and vertical tab
    into runs, each escaped, with a line break between two of them; a line
    break reads as a vertical tab. *)
Definition paragraph_text (text : pystr) : pystr :=
  join [VT] (map _escape_ctrl_chars (re_split line_break_sep text)).

(** The paragraphs of a text frame after [text_frame.text = text]: one per
    line of [text]. *)
Definition frame_paragraphs (text : pystr) : list paragraph :=
  map (fun line => {| p_text := paragraph_text line; p_level := 0;
                      p_space_after := None |})
      (split_char NL text).

(** [text_frame.text] after [text_frame.text = text]. *)
Definition frame_text (text : pystr) : pystr :=
  join [NL] (map p_text (frame_paragraphs text)).

(** [shape.text = s] on a placeholder: its text frame gets one paragraph
    per line of [s]; a shape that holds no text raises.  The texts are
    taken to be texts XML can carry once escaped: a surrogate, U+FFFE or
    U+FFFF, which the XML library refuses, is outside the model. *)
Definition set_text (s : pystr) (ph : placeholder) : option placeholder :=
  if has_text_frame ph then
    Some {| ph_idx := ph_idx ph; has_text_frame := true;
            paragraphs := frame_paragraphs s |}
  else None.

(** [shape.text] *)
Definition get_text (ph : placeholder) : pystr :=
  join [NL] (map p_text (paragraphs ph)).

(** The position of the first placeholder that [p] holds for. *)
Fixpoint find_index {A} (p : A -> bool) (l : list A) : option nat :=
  match l with
  | [] => None
  | x :: r =>
      if p x then Some O
      else match find_index p r with Some i => Some (S i) | None => None end
  end.

(** [slide.shapes.title]: the first placeholder whose idx is 0. *)
Definition title_shape (s : slide) : option nat :=
  find_index (fun ph => (ph_idx ph =? 0)%Z) (placeholders s).

(** [try: if slide.shapes.title: slide.shapes.title.text = t
     except Exception: pass] *)
Definition try_set_title (t : pystr) (s : slide) : slide :=
  match title_shape s with
  | None => s
  | Some i =>
      {| placeholders :=
           update_at i (fun ph => match set_text t ph with
                                  | Some ph' => ph'
                                  | None => ph
                                  end)
                     (placeholders s);
         pictures := pictures s;
         notes_text := notes_text s |}
  end.

(* ================================================================== *)
(** * slide_maker.py *)
(* ================================================================== *)

(** A dict of the outline as [build_presentation] reads it: either key may
    be missing. *)
Record slide_spec : Type :=
  { spec_title : option pystr; spec_bullets : option (list pystr) }.

Definition entry_dict (e : entry) : slide_spec :=
  {| spec_title := Some (title e); spec_bullets := Some (bullets e) |}.

(** [slide_spec.get(key, default)] *)
Definition get_or {A} (x : option A) (default : A) : A :=
  match x with Some a => a | None => default end.

(** [zf.read(name)]: the archive's directory maps a name to the last entry
    that bears it. *)
Definition zf_read (zf : list zip_entry) (name : pystr) : option bytes :=
  match find (fun e => str_eqb (entry_name e) name) (rev zf) with
  | Some e => entry_data e
  | None => None
  end.

Definition _collect_template_images (template_bytes : template) : list bytes :=
  flat_map
    (fun name =>
       if startswith name (py "ppt/media/")
          && existsb (str_eqb (last (split_char 46 (lower name)) []))
                     [py "png"; py "jpg"; py "jpeg"]
       then match zf_read (archive template_bytes) name with
            | Some data => [data]
            | None => []
            end
       else [])
    (map entry_name (archive template_bytes)).

(** The paragraph a bullet is written to, after [p.text = b; p.level = 0;
    p.space_after = Pt(4)]. *)
Definition bullet_paragraph (b : pystr) : paragraph :=
  {| p_text := paragraph_text b; p_level := 0; p_space_after := Some (Pt 4) |}.

(** [_apply_bullets(text_frame, bullets)] on the paragraphs of the frame.
    [p.clear()] empties a paragraph and keeps its properties. *)
Definition _apply_bullets (text_frame : list paragraph) (bullets : list pystr)
  : result (list paragraph) :=
  let cleared :=
    map (fun p => {| p_text := []; p_level := p_level p;
                     p_space_after := p_space_after p |}) text_frame in
  match bullets with
  | [] => Ok cleared
  | b :: more =>
      match cleared with
      | [] => Raise IndexError
      | _ :: others =>
          Ok (fold_left (fun frame b' => frame ++ [bullet_paragraph b'])
                        more (bullet_paragraph b :: others))
      end
  end.

(** The first layout whose name the test [p] holds for, else the first
    layout of all. *)
Definition layout_named (p : pystr -> bool) (prs : Presentation) : result layout :=
  match find (fun l => p (lower (layout_name l))) (slide_layouts prs) with
  | Some l => Ok l
  | None =>
      match slide_layouts prs with
      | l :: _ => Ok l
      | [] => Raise IndexError
      end
  end.

Definition _title_content_layout (prs : Presentation) : result layout :=
  layout_named
    (fun names => contains names (py "title")
                  && (contains names (py "content") || contains names (py "text")
                      || contains names (py "body")))
    prs.

Definition _title_only_layout (prs : Presentation) : result layout :=
  layout_named (fun names => contains names (py "title only")) prs.

(** [str.upper] on one code point of ASCII. *)
Definition upper_char (c : N) : N :=
  if (97 <=? c)%N && (c <=? 122)%N then (c - 32)%N else c.

(** [s.capitalize()], exact on ASCII: the first character in upper case,
    the others in lower case.  Outside ASCII the first character is kept
    where Python takes its title case: the subtitle of the cover, the only
    text made with it, is exact for a guidance in ASCII. *)
Definition capitalize (s : pystr) : pystr :=
  match s with
  | [] => []
  | c :: r => upper_char c :: lower r
  end.

(** The loop over the cover's placeholders: every placeholder of idx 1 gets
    the subtitle; the first that cannot hold text ends the loop. *)
Fixpoint set_subtitles (subtitle : pystr) (phs : list placeholder)
  : list placeholder :=
  match phs with
  | [] => []
  | ph :: rest =>
      if (ph_idx ph =? 1)%Z then
        match set_text subtitle ph with
        | Some ph' => ph' :: set_subtitles subtitle rest
        | None => ph :: rest
        end
      else ph :: set_subtitles subtitle rest
  end.

Definition _make_cover_slide (prs : Presentation) (title : pystr)
    (subtitle : option pystr) : result (Presentation * nat) :=
  match slide_layouts prs with
  | [] => Raise IndexError
  | layout :: _ =>
      let (prs, slide) := add_slide prs layout in
      let prs := set_slide prs slide (try_set_title title) in
      let prs :=
        set_slide prs slide
          (fun s => {| placeholders := set_subtitles (str_or subtitle []) (placeholders s);
                       pictures := pictures s;
                       notes_text := notes_text s |}) in
      Ok (prs, slide)
  end.

(** The body placeholder of a slide: the first that can hold text and
    whose idx is not 0. *)
Definition find_body (s : slide) : option nat :=
  find_index (fun ph => has_text_frame ph && negb (ph_idx ph =? 0)%Z) (placeholders s).

(** [" ".join(bs)] for a value of a parsed response that is true and can be
    joined: the characters of a string, the strings of a list, the keys of
    a dict.  [None] stands for a false value and for a [TypeError]. *)
Definition join_value (bs : json) : option pystr :=
  match bs with
  | JStr (c :: r) => Some (join [32%N] (map (fun c => [c]) (c :: r)))
  | JArr (v :: vs) =>
      option_map (join [32%N])
        ((fix strings (l : list json) : option (list pystr) :=
            match l with
            | [] => Some []
            | JStr s :: r =>
                match strings r with Some ss => Some (s :: ss) | None => None end
            | _ :: _ => None
            end) (v :: vs))
  | JObj (p :: ps) => Some (join [32%N] (map fst (p :: ps)))
  | _ => None
  end.

Definition MAX_SLIDE_PREVIEWS : Z := 12.

(** A preview: the texts drawn on its 1024 by 576 image, the title at
    (30, 24) and each bullet at (40, y) with its y. *)
Record preview_image : Type :=
  { drawn_title : pystr; drawn_bullets : list (Z * pystr) }.

(** [[title[i:i+w] for i in range(0, len(title), w)]]: [room] is what is
    left of the current line, [cur] the line, reversed. *)
Fixpoint wrap_from (w room : nat) (cur : pystr) (s : pystr) : list pystr :=
  match s with
  | [] => if nonempty cur then [rev cur] else []
  | c :: r =>
      match room with
      | O => rev cur :: wrap_from w (w - 1) [c] r
      | S room' => wrap_from w room' (c :: cur) r
      end
  end.

Definition wrap_every (w : nat) (s : pystr) : list pystr := wrap_from w w [] s.

(** The body of [for spec in outline[:MAX_SLIDE_PREVIEWS]].  The bullet
    glyph of the source is three characters, U+00E2, U+20AC and U+00A2. *)
Definition render_preview (spec : slide_spec) : preview_image :=
  let title := get_or (spec_title spec) (py "Slide") in
  let bullets := firstn 6 (get_or (spec_bullets spec) []) in
  {| drawn_title := join [NL] (wrap_every 34 title);
     drawn_bullets :=
       map (fun jb : nat * pystr =>
              let (j, b) := jb in
              let tb := if length b <=? 80 then b else firstn 77 b ++ py "..." in
              ((24 + 100 + Z.of_nat j * 28)%Z, [226; 8364; 162; 32]%N ++ tb))
           (combine (seq 0 (length bullets)) bullets) |}.

(** The block [previews = []; if preview: ...]. *)
Definition render_previews (preview : bool) (outline : list slide_spec)
  : list preview_image :=
  if preview then map render_preview (slice_to MAX_SLIDE_PREVIEWS outline) else [].

Section Composer.

Variable net : network.

(** [random.shuffle] of the images of one build. *)
Variable shuffle : list bytes -> list bytes.

(** Whether [add_picture] accepts the bytes as an image. *)
Variable picture_ok : bytes -> bool.

Definition _gen_notes (slide_spec : slide_spec) (cfg : ProviderConfig) : Net pystr :=
  let prompt :=
    py "Write concise speaker notes for a slide titled " ++ [34%N]
    ++ get_or (spec_title slide_spec) [] ++ [34%N] ++ py "." ++ [NL]
    ++ py "Bullets:" ++ [NL] ++ py "- "
    ++ join ([NL] ++ py "- ") (firstn 6 (get_or (spec_bullets slide_spec) [])) in
  let fallback := join [32%N] (get_or (spec_bullets slide_spec) []) in
  try_except
    (outline <- make_outline_with_llm net prompt
                  (Some (py "Write a short paragraph of 60-100 words.")) cfg 1 ;;
     match outline with
     | JArr (JObj d :: _) =>
         match join_value (get_or (dict_get (py "bullets") d) (JArr [])) with
         | Some notes => ret notes
         | None => ret fallback
         end
     | JArr (_ :: _) => raise AttributeError
     | _ => ret fallback
     end)
    (ret fallback).

(** [_add_image_if_layout_allows(slide, img_bytes)] *)
Definition _add_image_if_layout_allows (s : slide) (img_bytes : bytes) : slide :=
  if picture_ok img_bytes then
    {| placeholders := placeholders s;
       pictures := pictures s ++
                   [ {| pic_image := img_bytes; pic_left := Inches 60;
                        pic_top := Inches 15; pic_width := Inches 30 |} ];
       notes_text := notes_text s |}
  else s.

(** The first block of the loop body: the slide of the title-and-content
    layout, its title, and then either the bullets in its body placeholder
    or, when it has none, a second slide, of the title-only layout, with the
    title.  Returns the presentation and the slide that [slide] names from
    there on. *)
Definition place_entry (layout_tc layout_title_only : layout)
    (prs : Presentation) (slide_spec : slide_spec) : Net (Presentation * nat) :=
  let (prs, slide) := add_slide prs layout_tc in
  let prs := set_slide prs slide (try_set_title (get_or (spec_title slide_spec) (py "Slide"))) in
  match find_body (get_slide prs slide) with
  | None =>
      let (prs, slide) := add_slide prs layout_title_only in
      ret (set_slide prs slide
             (try_set_title (get_or (spec_title slide_spec) (py "Slide"))),
           slide)
  | Some body =>
      let body_placeholder :=
        nth body (placeholders (get_slide prs slide))
            {| ph_idx := 0; has_text_frame := false; paragraphs := [] |} in
      frame <- lift (_apply_bullets (paragraphs body_placeholder)
                       (get_or (spec_bullets slide_spec) [])) ;;
      ret (set_slide prs slide
             (fun s =>
                {| placeholders :=
                     update_at body
                       (fun ph => {| ph_idx := ph_idx ph;
                                     has_text_frame := has_text_frame ph;
                                     paragraphs := frame |})
                       (placeholders s);
                   pictures := pictures s;
                   notes_text := notes_text s |}),
           slide)
  end.

(** The block [if template_imgs: ...]: the image at [img_idx] modulo the
    number of images goes on the slide, and [img_idx] moves on. *)
Definition place_image (template_imgs : list bytes) (prs : Presentation)
    (slide : nat) (img_idx : Z) : Net (Presentation * Z) :=
  if nonempty template_imgs then
    match nth_error template_imgs
            (Z.to_nat (img_idx mod Z.of_nat (length template_imgs))) with
    | Some img =>
        ret (set_slide prs slide (fun s => _add_image_if_layout_allows s img),
             (img_idx + 1)%Z)
    | None => raise IndexError
    end
  else ret (prs, img_idx).

(** The block [if provider_cfg is not None: ...]: the notes are generated,
    and stored if the notes slide has a text frame. *)
Definition attach_notes (provider_cfg : option ProviderConfig)
    (prs : Presentation) (slide : nat) (slide_spec : slide_spec) : Net Presentation :=
  match provider_cfg with
  | Some cfg =>
      notes <- _gen_notes slide_spec cfg ;;
      if notes_placeholder prs then
        ret (set_slide prs slide
               (fun s => {| placeholders := placeholders s;
                            pictures := pictures s;
                            notes_text := Some (frame_text notes) |}))
      else ret prs
  | None => ret prs
  end.

(** The body of [for i, slide_spec in enumerate(outline, start=1)]; the
    state is the presentation and [img_idx]. *)
Definition compose_entry (layout_tc layout_title_only : layout)
    (template_imgs : list bytes) (provider_cfg : option ProviderConfig)
    (st : Presentation * Z) (slide_spec : slide_spec) : Net (Presentation * Z) :=
  placed <- place_entry layout_tc layout_title_only (fst st) slide_spec ;;
  imaged <- place_image template_imgs (fst placed) (snd placed) (snd st) ;;
  prs <- attach_notes provider_cfg (fst imaged) (snd placed) slide_spec ;;
  ret (prs, snd imaged).

(** A [for] loop whose body may raise and may call providers. *)
Fixpoint for_each {A S} (body : S -> A -> Net S) (items : list A) (st : S) : Net S :=
  match items with
  | [] => ret st
  | x :: rest => st' <- body st x ;; for_each body rest st'
  end.

(** [build_presentation]: the deck as it is when [prs.save] writes it (the
    bytes of the file are not modelled) and the previews.  The template is
    one that opens, and the outline a list of dicts whose title, when
    there, is a string and whose bullets are a list of strings, as the
    outline extractor makes them: on any other value (the page hands over
    what the LLM answered, unchecked) the source raises where it first
    indexes or reads it, which the types here leave out. *)
Definition build_presentation (text : pystr) (outline : list slide_spec)
    (template_stream : template) (guidance : option pystr)
    (provider_cfg : option ProviderConfig) (preview : bool)
  : Net (Presentation * list preview_image) :=
  let prs := opened template_stream in
  let template_imgs := shuffle (_collect_template_images template_stream) in
  first_title <-
    match outline with
    | first :: _ =>
        match spec_title first with
        | Some t => ret t
        | None => raise (KeyError (py "title"))
        end
    | [] => ret (py "Presentation")
    end ;;
  let subtitle :=
    match guidance with
    | Some (c :: r) => Some (capitalize (strip (c :: r)))
    | _ => None
    end in
  cover <- lift (_make_cover_slide prs first_title subtitle) ;;
  let prs := fst (cover : Presentation * nat) in
  layout_tc <- lift (_title_content_layout prs) ;;
  layout_title_only <- lift (_title_only_layout prs) ;;
  final <- for_each (compose_entry layout_tc layout_title_only template_imgs provider_cfg)
             outline (prs, 0%Z) ;;
  ret (fst (final : Presentation * Z), render_previews preview outline).

End Composer.

(* ================================================================== *)
(** * app.py *)
(* ================================================================== *)

(** What the page shows with [st.warning] while it decides the outline:
    that a provider is chosen and the key is empty, or that the adapter
    raised (the message quotes the exception). *)
Inductive notice : Type :=
| NoKeyWarning
| LLMFailedWarning (e : exn).

(** The value of [outline] after the block: what the adapter returned, or
    the entries of the extractor. *)
Inductive planned : Type :=
| FromLLM (v : json)
| FromText (o : list entry).

(** [a or b] for two lists. *)
Definition list_or {A} (a b : result (list A)) : result (list A) :=
  match a with
  | Ok [] => b
  | _ => a
  end.

Section App.

Variable textwrap_shorten : pystr -> Z -> pystr -> pystr.
Variable net : network.

(** The block under [# Decide outline], run when the button is pressed and
    the validation has passed: the values of [outline] and [provider_cfg]
    after it, and the warnings shown.  A response that parses to [null] is
    [None] and sends the page to the extractor like a failure does. *)
Definition decide_outline (provider api_key model_name user_text guidance : pystr)
    (max_slides : Z) : Net (planned * option ProviderConfig * list notice) :=
  asked <-
    (if negb (str_eqb provider (py "None (heuristic)")) then
       if nonempty api_key then
         let provider_cfg :=
           {| name := provider; api_key := api_key;
              model := if nonempty model_name then Some model_name else None |} in
         fun log =>
           match make_outline_with_llm net user_text (Some guidance) provider_cfg
                   max_slides log with
           | (Ok v, log') => (Ok (Some v, Some provider_cfg, []), log')
           | (Raise e, log') =>
               (Ok (None, Some provider_cfg, [LLMFailedWarning e]), log')
           end
       else ret (None, None, [NoKeyWarning])
     else ret (None, None, [])) ;;
  let '(outline, provider_cfg, shown) :=
    (asked : option json * option ProviderConfig * list notice) in
  match outline with
  | Some JNull | None =>
      o <- lift (list_or
                   (outline_from_text textwrap_shorten user_text (Some guidance)
                      max_slides)
                   (heuristic_outline textwrap_shorten user_text max_slides)) ;;
      ret (FromText o, provider_cfg, shown)
  | Some v => ret (FromLLM v, provider_cfg, shown)
  end.

End App.

(* ================================================================== *)
(** * Vocabulary of the statements, and sample inputs *)
(* ================================================================== *)

(** ** For the outline extractor *)

(** The [j]-th run of [g] consecutive elements of [l]. *)
Definition run_at {A} (g : nat) (l : list A) (j : nat) : list A :=
  firstn g (skipn (j * g) l).

(** A state that will flush to a non-empty list of sections. *)
Definition live (st : list sec * current_sec) : Prop :=
  fst st <> [] \/
  title_truthy (cur_title (snd st)) || nonempty (cur_content (snd st)) = true.

(** The capping rule as the specification words it: runs of
    [ceil(count / max_slides)] consecutive sections, one bucket per run, cut
    to [max_slides] buckets. *)
Definition ceil_div (n k : nat) : nat := (n + k - 1) / k.

Definition cap_sections_ceil (sections : list sec) (max_slides : nat) : list sec :=
  if max_slides <? length sections then
    let size := ceil_div (length sections) max_slides in
    firstn max_slides
      (map (fun j => merge_bucket (run_at size sections j))
           (seq 0 (ceil_div (length sections) size)))
  else sections.

(** A section given by two literals. *)
Definition sec_of (t c : string) : sec :=
  {| sec_title := py t; sec_content := py c |}.

(** The decimal digits of a number below 100. *)
Definition digits2 (i : nat) : pystr :=
  (if 10 <=? i then [N.of_nat (48 + i / 10)] else []) ++ [N.of_nat (48 + i mod 10)].

(** Twenty headed sections [# H1 .. # H20], each with one line of content,
    [c1 .. c20]. *)
Definition twenty_sections_text : pystr :=
  flat_map (fun i => py "# H" ++ digits2 i ++ [NL] ++ py "c" ++ digits2 i ++ [NL])
           (seq 1 20).

(** The bounds of the data model on an entry. *)
Definition entry_bounded (e : entry) : Prop :=
  length (title e) <= 90 /\
  length (bullets e) <= 8 /\
  Forall (fun b => length b <= 240) (bullets e).

(** A heading line and the title it gives: group 2 of the match, stripped. *)
Definition heading_title (line : pystr) : option pystr :=
  option_map strip (heading_match line).

(** Lines none of which is a heading. *)
Definition no_heading (lines : list pystr) : Prop :=
  Forall (fun line => heading_match line = None) lines.

(** The lines of a text cut at its headings: the lines before the first
    heading, then one block per heading line, with its title and the lines
    under it. *)
Record heading_block : Type :=
  { block_heading : pystr; block_title : pystr; block_lines : list pystr }.

Definition lines_of (prelude : list pystr) (blocks : list heading_block) : list pystr :=
  prelude ++ flat_map (fun b => block_heading b :: block_lines b) blocks.

Definition cut_at_headings (prelude : list pystr) (blocks : list heading_block) : Prop :=
  no_heading prelude /\
  Forall (fun b => heading_title (block_heading b) = Some (block_title b) /\
                   no_heading (block_lines b)) blocks.

(** The section of a block, and the section of the lines before the first
    heading, if there is any such line. *)
Definition block_section (b : heading_block) : sec :=
  {| sec_title := block_title b; sec_content := strip (join [NL] (block_lines b)) |}.

Definition prelude_section (prelude : list pystr) : list sec :=
  if nonempty prelude
  then [ {| sec_title := py "Section"; sec_content := strip (join [NL] prelude) |} ]
  else [].

(** A text made of white space only. *)
Definition all_space (s : pystr) : Prop := forallb isspace s = true.

(** A bullet that is not empty and neither starts nor ends with a space, a
    hyphen or a bullet character. *)
Definition trimmed (b : pystr) : Prop :=
  b <> [] /\
  dash_bullet_space (hd 0%N b) = false /\
  dash_bullet_space (last b 0%N) = false.

(** ** For the LLM adapter *)

(** An outcome of the scanner that does not come from a lack of fuel: a
    value, or an exception other than the decode error. *)
Definition settled {A} (x : result A) : Prop := x <> Raise JSONDecodeError.

(** A parsed response read as an outline: a list of dicts whose [title] is
    a string and whose [bullets] is a list of strings. *)
Definition as_str (v : json) : option pystr :=
  match v with JStr s => Some s | _ => None end.

Fixpoint all_some {A} (l : list (option A)) : option (list A) :=
  match l with
  | [] => Some []
  | Some a :: r => match all_some r with Some r' => Some (a :: r') | None => None end
  | None :: _ => None
  end.

Definition as_entry (v : json) : option entry :=
  match v with
  | JObj d =>
      match dict_get (py "title") d, dict_get (py "bullets") d with
      | Some (JStr t), Some (JArr bs) =>
          match all_some (map as_str bs) with
          | Some bs' => Some {| title := t; bullets := bs' |}
          | None => None
          end
      | _, _ => None
      end
  | _ => None
  end.

Definition as_outline (v : json) : option (list entry) :=
  match v with
  | JArr items => all_some (map as_entry items)
  | _ => None
  end.


(** The names of the three supported providers, and a match of names that
    ignores case, as the specification words the dispatch. *)
Definition provider_name (p : provider) : pystr :=
  match p with
  | OpenAI => py "OpenAI"
  | Anthropic => py "Anthropic"
  | Gemini => py "Gemini"
  end.

Definition same_name_ignoring_case (a b : pystr) : Prop := lower a = lower b.

(** A network that answers every call with the same text. *)
Definition canned (content : pystr) : network :=
  {| openai_create := fun _ _ => Ok content;
     anthropic_create :=
       fun _ _ => Ok [ {| block_type := Some (py "text"); block_text := content |} ];
     gemini_generate := fun _ _ => Ok content |}.

Definition unsupported_provider : exn :=
  ValueError (py "Unsupported provider name. Choose OpenAI, Anthropic, or Gemini.").

(** The model a provider is asked for when the configuration names none. *)
Definition default_model (p : provider) : pystr :=
  match p with
  | OpenAI => py "gpt-4o-mini"
  | Anthropic => py "claude-3-5-sonnet-latest"
  | Gemini => py "gemini-1.5-pro"
  end.

(** The text the provider of a call answers with, or what its client
    raises: for Anthropic, the texts of the blocks of type [text], put
    together. *)
Definition client_answer (net : network) (n : nat) (c : net_call) : result pystr :=
  match call_provider c with
  | OpenAI => openai_create net n c
  | Anthropic =>
      match anthropic_create net n c with
      | Ok msg =>
          Ok (concat (map block_text
                        (filter (fun b => match block_type b with
                                          | Some t => str_eqb t (py "text")
                                          | None => false
                                          end) msg)))
      | Raise e => Raise e
      end
  | Gemini => gemini_generate net n c
  end.

(** A text in which the character [c] does not occur. *)
Definition no_char (c : N) (s : pystr) : Prop :=
  forallb (fun d => negb (N.eqb d c)) s = true.

(** ** For the deck composer *)

(** The presentation with other slides, and with more slides at its end. *)
Definition with_slides (prs : Presentation) (l : list slide) : Presentation :=
  {| slide_layouts := slide_layouts prs;
     slides := l;
     notes_placeholder := notes_placeholder prs |}.

Definition append_slides (prs : Presentation) (more : list slide) : Presentation :=
  with_slides prs (slides prs ++ more).

(** The image of the [i]-th entry, and [img_idx] before it. *)
Definition img_at (imgs : list bytes) (i : nat) : option bytes :=
  if nonempty imgs then nth_error imgs (i mod length imgs) else None.

Definition idx_at (imgs : list bytes) (i : nat) : Z :=
  if nonempty imgs then Z.of_nat i else 0%Z.

(** A slide of [layout] with the entry's title. *)
Definition titled (l : layout) (spec : slide_spec) : slide :=
  try_set_title (get_or (spec_title spec) (py "Slide")) (new_slide l).

Definition with_frame (body : nat) (frame : list paragraph) (s : slide) : slide :=
  {| placeholders :=
       update_at body
         (fun ph => {| ph_idx := ph_idx ph; has_text_frame := has_text_frame ph;
                       paragraphs := frame |})
         (placeholders s);
     pictures := pictures s;
     notes_text := notes_text s |}.

Definition with_notes (notes : option pystr) (s : slide) : slide :=
  match notes with
  | Some n => {| placeholders := placeholders s; pictures := pictures s;
                 notes_text := Some n |}
  | None => s
  end.

Definition no_placeholder : placeholder :=
  {| ph_idx := 0; has_text_frame := false; paragraphs := [] |}.

Section EntrySlides.

Variable picture_ok : bytes -> bool.

Definition with_image (img : option bytes) (s : slide) : slide :=
  match img with
  | Some i => _add_image_if_layout_allows picture_ok s i
  | None => s
  end.

(** The slides one entry leaves in the deck, in order: the slide of the
    title-and-content layout, and after it, when that slide has no body
    placeholder, a slide of the title-only layout.  [placed_slides] gives
    the last of them apart: the image and the notes go to it. *)
Definition placed_slides (layout_tc layout_title_only : layout) (spec : slide_spec)
  : list slide * slide :=
  let first := titled layout_tc spec in
  match find_body first with
  | None => ([first], titled layout_title_only spec)
  | Some body =>
      match _apply_bullets (paragraphs (nth body (placeholders first) no_placeholder))
                           (get_or (spec_bullets spec) []) with
      | Ok frame => ([], with_frame body frame first)
      | Raise _ => ([], first)
      end
  end.

Definition entry_slides (layout_tc layout_title_only : layout) (spec : slide_spec)
    (img : option bytes) (notes : option pystr) : list slide :=
  let placed := placed_slides layout_tc layout_title_only spec in
  fst placed ++ [with_notes notes (with_image img (snd placed))].

End EntrySlides.

(** Re-reading a slide: the text of its title shape, and the texts of the
    paragraphs of its body placeholder. *)
Definition read_title (s : slide) : option pystr :=
  match title_shape s with
  | Some i => option_map get_text (nth_error (placeholders s) i)
  | None => None
  end.

Definition read_body (s : slide) : option (list pystr) :=
  match find_body s with
  | Some i => option_map (fun ph => map p_text (paragraphs ph))
                         (nth_error (placeholders s) i)
  | None => None
  end.

(** Every placeholder that can hold text has a paragraph. *)
Definition frames_ready (s : slide) : Prop :=
  Forall (fun ph => has_text_frame ph = true -> paragraphs ph <> []) (placeholders s).

(** The cover slide: first layout, title, subtitle in the placeholders of
    idx 1. *)
Definition cover_of (l : layout) (t : pystr) (subtitle : option pystr) : slide :=
  let s := try_set_title t (new_slide l) in
  {| placeholders := set_subtitles (str_or subtitle []) (placeholders s);
     pictures := pictures s;
     notes_text := notes_text s |}.

(** The title and the subtitle [build_presentation] gives the cover. *)
Definition cover_title (outline : list slide_spec) : pystr :=
  match outline with
  | first :: _ => get_or (spec_title first) []
  | [] => py "Presentation"
  end.

Definition cover_subtitle (guidance : option pystr) : option pystr :=
  match guidance with
  | Some (c :: r) => Some (capitalize (strip (c :: r)))
  | _ => None
  end.

(** The first dict of the outline, if any, has a title. *)
Definition first_has_title (outline : list slide_spec) : Prop :=
  match outline with
  | first :: _ => spec_title first <> None
  | [] => True
  end.


(** A template of three layouts, two images (and two entries of the archive
    that are not images), and an outline of three entries. *)
Definition sample_template : template :=
  {| archive :=
       [ {| entry_name := py "ppt/media/image1.PNG"; entry_data := Some [1%N] |};
         {| entry_name := py "ppt/media/image2.jpeg"; entry_data := Some [2%N] |};
         {| entry_name := py "ppt/media/movie.gif"; entry_data := Some [3%N] |};
         {| entry_name := py "ppt/slides/slide1.png"; entry_data := Some [4%N] |} ];
     opened :=
       {| slide_layouts :=
            [ {| layout_name := py "Title Slide";
                 layout_placeholders := [(0%Z, true); (1%Z, true)] |};
              {| layout_name := py "Title and Content";
                 layout_placeholders := [(0%Z, true); (1%Z, true)] |};
              {| layout_name := py "Title Only";
                 layout_placeholders := [(0%Z, true)] |} ];
          slides := [];
          notes_placeholder := true |} |}.

Definition sample_entries : list entry :=
  [ {| title := py "Intro"; bullets := [py "a"; py "b"] |};
    {| title := py "Two"; bullets := [] |};
    {| title := py "Three"; bullets := [py "c"] |} ].

(** The layout has a title placeholder that can hold text: its first
    placeholder of idx 0 can. *)
Definition has_title_placeholder (l : layout) : bool :=
  match find (fun ph : Z * bool => (fst ph =? 0)%Z) (layout_placeholders l) with
  | Some (_, true) => true
  | _ => false
  end.

(** The layout has a placeholder, not the title, that can hold text. *)
Definition has_body_placeholder (l : layout) : bool :=
  existsb (fun ph : Z * bool => snd ph && negb (fst ph =? 0)%Z) (layout_placeholders l).

(** A placeholder of a new slide. *)
Definition fresh_placeholder (ph : Z * bool) : placeholder :=
  {| ph_idx := fst ph; has_text_frame := snd ph;
     paragraphs := if snd ph then [empty_paragraph] else [] |}.

(** The outline of the round trip, and an outline of two entries. *)
Definition intro_outline : list slide_spec :=
  [ entry_dict {| title := py "Intro"; bullets := [py "a"; py "b"] |} ].

(** A template whose only layout has a title and nothing else. *)
Definition title_only_template : template :=
  {| archive := [];
     opened :=
       {| slide_layouts :=
            [ {| layout_name := py "Title Only";
                 layout_placeholders := [(0%Z, true)] |} ];
          slides := [];
          notes_placeholder := true |} |}.

(** A template whose title-and-content layout has a title and no body. *)
Definition no_body_template : template :=
  {| archive := [];
     opened :=
       {| slide_layouts :=
            [ {| layout_name := py "Title Slide";
                 layout_placeholders := [(0%Z, true); (1%Z, true)] |};
              {| layout_name := py "Title and Content";
                 layout_placeholders := [(0%Z, true)] |};
              {| layout_name := py "Title Only";
                 layout_placeholders := [(0%Z, true)] |} ];
          slides := [];
          notes_placeholder := true |} |}.

Definition two_entries : list entry :=
  [ {| title := py "A"; bullets := [py "x"] |};
    {| title := py "B"; bullets := [] |} ].

(** The tests of [_collect_template_images], [_title_content_layout] and
    [_title_only_layout] on a name. *)
Definition image_extension (name : pystr) : bool :=
  existsb (str_eqb (last (split_char 46 (lower name)) []))
          [py "png"; py "jpg"; py "jpeg"].

Definition names_title_content (names : pystr) : bool :=
  contains names (py "title")
  && (contains names (py "content") || contains names (py "text")
      || contains names (py "body")).

Definition names_title_only (names : pystr) : bool :=
  contains names (py "title only").



(** The glyph and the space before a bullet of a preview. *)
Definition preview_glyph : pystr := [226; 8364; 162; 32]%N.

(** The number of slides an entry leaves in the deck. *)
Definition slides_per_entry (layout_tc : layout) : nat :=
  if has_body_placeholder layout_tc then 1 else 2.

(** What a body placeholder reads as after [_apply_bullets] on a new slide:
    the bullets, or the one empty paragraph of the new frame when there is
    no bullet. *)
Definition body_texts (bs : list pystr) : list pystr :=
  match bs with [] => [[]] | _ :: _ => bs end.

(** A code point from 32 on that XML can carry: not a surrogate, not
    U+FFFE, not U+FFFF. *)
Definition xml_char (c : N) : bool :=
  (32 <=? c)%N && (c <=? 1114111)%N
  && negb ((55296 <=? c)%N && (c <=? 57343)%N)
  && negb (N.eqb c 65534) && negb (N.eqb c 65535).

(** A text a paragraph keeps as it is: tabs and characters from 32 on
    that XML can carry. *)
Definition plain (s : pystr) : bool :=
  forallb (fun c => N.eqb c 9 || xml_char c) s.

(** A text a paragraph can hold: its control characters are escaped or
    become line breaks, and its other characters are ones XML can carry
    (on any other, writing the text raises). *)
Definition storable (s : pystr) : bool :=
  forallb (fun c => (c <? 32)%N || xml_char c) s.

(** The title and the bullets of the entry are plain. *)
Definition plain_entry (e : entry) : Prop :=
  plain (title e) = true /\ Forall (fun b => plain b = true) (bullets e).



(** Code that makes at most [n] calls to providers, each of them
    satisfying [P], and leaves the calls made before it as they are. *)
Definition calls_within {A} (P : net_call -> Prop) (n : nat) (m : Net A) : Prop :=
  forall log,
    exists calls,
      snd (m log) = log ++ calls /\ length calls <= n /\ Forall P calls.

(** The calls one entry may cost: one with a notes provider, none
    without; each carries the key of that provider's configuration. *)
Definition notes_calls (cfg : option ProviderConfig) : nat :=
  match cfg with Some _ => 1 | None => 0 end.

Definition notes_call (cfg : option ProviderConfig) (c : net_call) : Prop :=
  exists cfg', cfg = Some cfg' /\ call_api_key c = api_key cfg'.

(** ** For the page *)

(** The configuration the page builds from its three inputs. *)
Definition chosen_cfg (provider api_key model_name : pystr) : ProviderConfig :=
  {| name := provider; api_key := api_key;
     model := if nonempty model_name then Some model_name else None |}.

(* ================================================================== *)
(** * Properties of the outline extractor *)
(* ================================================================== *)

(** ** The capping loop *)

Lemma firstn_seq_le (k q : nat) : k <= q -> firstn k (seq 0 q) = seq 0 k.
Proof.
  intros Hkq. replace q with (k + (q - k)) by lia.
  rewrite seq_app, firstn_app, length_seq, Nat.sub_diag, firstn_O, app_nil_r.
  rewrite firstn_all2; [reflexivity | rewrite length_seq; lia].
Qed.

Lemma slice_to_nonneg {A} (k : Z) (xs : list A) :
  (0 <= k)%Z -> slice_to k xs = firstn (Z.to_nat k) xs.
Proof.
  intros Hk. unfold slice_to.
  destruct (k <? 0)%Z eqn:E; [apply Z.ltb_lt in E; lia | reflexivity].
Qed.

(** A bucket that stays under the threshold only grows. *)
Lemma cap_fold_partial (g : nat) (xs : list sec) :
  forall merged bucket,
    length bucket + length xs < g ->
    fold_left (cap_step (Z.of_nat g)) xs (merged, bucket) = (merged, bucket ++ xs).
Proof.
  induction xs as [|x xs IH]; intros merged bucket Hlen; simpl.
  - now rewrite app_nil_r.
  - simpl in Hlen.
    destruct (Z.of_nat (length (bucket ++ [x])) >=? Z.of_nat g)%Z eqn:E.
    + rewrite Z.geb_le in E. rewrite length_app in E. simpl in E. lia.
    + rewrite IH by (rewrite length_app; simpl; lia).
      now rewrite <- app_assoc.
Qed.

(** A bucket is emitted by the element that brings it to the threshold. *)
Lemma cap_fold_fill (g : nat) (xs : list sec) :
  forall merged bucket,
    xs <> [] ->
    length bucket + length xs = g ->
    fold_left (cap_step (Z.of_nat g)) xs (merged, bucket)
    = (merged ++ [merge_bucket (bucket ++ xs)], []).
Proof.
  induction xs as [|x xs IH]; intros merged bucket Hne Hlen; [congruence|].
  simpl in *.
  destruct (Z.of_nat (length (bucket ++ [x])) >=? Z.of_nat g)%Z eqn:E.
  - rewrite Z.geb_le in E. rewrite length_app in E. simpl in E.
    assert (xs = []) by (destruct xs; [reflexivity | simpl in Hlen; lia]).
    subst xs. reflexivity.
  - assert (Hlt : (Z.of_nat (length (bucket ++ [x])) < Z.of_nat g)%Z).
    { destruct (Z.of_nat (length (bucket ++ [x])) ?= Z.of_nat g)%Z eqn:C;
        unfold Z.geb in E; rewrite C in E; try discriminate.
      now apply Z.compare_lt_iff. }
    rewrite length_app in Hlt. simpl in Hlt.
    assert (xs <> []) by (intros ->; simpl in Hlen; lia).
    rewrite IH; [| assumption | rewrite length_app; simpl; lia].
    now rewrite <- app_assoc.
Qed.

(** After [j] full runs the loop has emitted one bucket per run. *)
Lemma cap_fold_runs (g : nat) (l : list sec) :
  1 <= g ->
  forall j merged,
    j * g <= length l ->
    fold_left (cap_step (Z.of_nat g)) (firstn (j * g) l) (merged, [])
    = (merged ++ map (fun i => merge_bucket (run_at g l i)) (seq 0 j), []).
Proof.
  intros Hg. induction j as [|j IH]; intros merged Hlen.
  - simpl. now rewrite app_nil_r.
  - assert (Hsplit : firstn (S j * g) l = firstn (j * g) l ++ run_at g l j).
    { unfold run_at.
      rewrite <- (firstn_skipn (j * g) l) at 1.
      rewrite firstn_app, length_firstn.
      replace (Nat.min (j * g) (length l)) with (j * g) by lia.
      replace (S j * g - j * g) with g by lia.
      rewrite firstn_all2 by (rewrite length_firstn; lia).
      reflexivity. }
    rewrite Hsplit, fold_left_app, IH by lia.
    rewrite cap_fold_fill.
    + rewrite seq_S, map_app, <- app_assoc. reflexivity.
    + unfold run_at. intros Hnil.
      apply (f_equal (@Datatypes.length sec)) in Hnil.
      rewrite length_firstn, length_skipn in Hnil. simpl in Hnil, Hlen. lia.
    + unfold run_at. rewrite length_firstn, length_skipn. simpl in *. lia.
Qed.

(** The whole loop: [length l / g] buckets, and what is left over. *)
Lemma cap_fold_all (g : nat) (l : list sec) :
  1 <= g ->
  fold_left (cap_step (Z.of_nat g)) l ([], [])
  = (map (fun i => merge_bucket (run_at g l i)) (seq 0 (length l / g)),
     skipn (length l / g * g) l).
Proof.
  intros Hg.
  set (q := length l / g).
  assert (Hq : q * g <= length l).
  { unfold q. rewrite Nat.mul_comm. apply Nat.Div0.mul_div_le. }
  assert (Hr : length l - q * g < g).
  { unfold q. pose proof (Nat.div_mod_eq (length l) g).
    pose proof (Nat.mod_upper_bound (length l) g). lia. }
  rewrite <- (firstn_skipn (q * g) l) at 1.
  rewrite fold_left_app, cap_fold_runs by assumption.
  rewrite cap_fold_partial by (rewrite length_skipn; simpl; lia).
  reflexivity.
Qed.

(** What [cap_sections] returns when there are more sections than slides:
    the first [k] runs of [n / k] consecutive sections, each of them full. *)
Lemma cap_sections_runs (sections : list sec) (k : Z) :
  (1 <= k)%Z ->
  (k < Z.of_nat (length sections))%Z ->
  let g := length sections / Z.to_nat k in
  1 <= g /\
  Z.to_nat k * g <= length sections /\
  cap_sections sections k
  = Ok (map (fun i => merge_bucket (run_at g sections i)) (seq 0 (Z.to_nat k))).
Proof.
  intros Hk Hn g.
  set (n := length sections) in *.
  set (kn := Z.to_nat k) in *.
  assert (Hkn : 1 <= kn < n) by (unfold kn; lia).
  assert (Hg : 1 <= g).
  { unfold g. apply Nat.div_le_lower_bound; lia. }
  assert (Hkg : kn * g <= n).
  { unfold g. apply Nat.Div0.mul_div_le. }
  split; [assumption | split; [assumption|]].
  unfold cap_sections. fold n.
  destruct (Z.of_nat n >? k)%Z eqn:E; [| rewrite Z.gtb_ltb, Z.ltb_ge in E; lia].
  destruct (k =? 0)%Z eqn:E0; [apply Z.eqb_eq in E0; lia|].
  assert (Hthr : Z.max 1 (Z.of_nat n / k) = Z.of_nat g).
  { unfold g. rewrite Nat2Z.inj_div. unfold kn.
    rewrite Z2Nat.id by lia.
    assert (1 <= Z.of_nat n / k)%Z by (apply Z.div_le_lower_bound; lia).
    lia. }
  rewrite Hthr, cap_fold_all by assumption. fold n.
  assert (Hq : kn <= n / g).
  { apply Nat.div_le_lower_bound; lia. }
  f_equal.
  rewrite slice_to_nonneg by lia. fold kn.
  destruct (nonempty (skipn (n / g * g) sections));
    [rewrite firstn_app, length_map, length_seq;
     replace (kn - n / g) with 0 by lia; rewrite firstn_O, app_nil_r |];
    rewrite firstn_map, firstn_seq_le by assumption; reflexivity.
Qed.

Lemma run_at_full {A} (g : nat) (l : list A) (k i : nat) :
  k * g <= length l -> i < k -> length (run_at g l i) = g.
Proof.
  intros Hk Hi. unfold run_at. rewrite length_firstn, length_skipn.
  assert (S i * g <= k * g) by (apply Nat.mul_le_mono_r; lia).
  simpl in *. lia.
Qed.

(** ** Stripping and line splitting *)

Lemma dropwhile_head {A} (p : A -> bool) (l : list A) x r :
  dropwhile p l = x :: r -> p x = false.
Proof.
  induction l as [|a l IH]; simpl; [discriminate|].
  destruct (p a) eqn:E; [exact IH | intros [= <- _]; exact E].
Qed.

Lemma dropwhile_nil_all {A} (p : A -> bool) (l : list A) :
  dropwhile p l = [] -> forallb p l = true.
Proof.
  induction l as [|a l IH]; simpl; [reflexivity|].
  destruct (p a); [exact IH | discriminate].
Qed.

Lemma dropwhile_app_stop {A} (p : A -> bool) (l : list A) d :
  p d = false -> dropwhile p (l ++ [d]) <> [].
Proof.
  intros Hd. induction l as [|a l IH]; simpl.
  - rewrite Hd. discriminate.
  - destruct (p a); [exact IH | discriminate].
Qed.

Lemma takewhile_dropwhile {A} (p : A -> bool) (l : list A) :
  takewhile p l ++ dropwhile p l = l.
Proof.
  induction l as [|a l IH]; simpl; [reflexivity|].
  destruct (p a); simpl; [now rewrite IH | reflexivity].
Qed.

(** The last character of a right-stripped string is not one of the
    stripped ones. *)
Lemma rstrip_by_last (p : N -> bool) (s pre : pystr) c :
  rstrip_by p s = pre ++ [c] -> p c = false.
Proof.
  unfold rstrip_by. intros H.
  apply (f_equal (@rev N)) in H.
  rewrite rev_involutive, rev_app_distr in H. simpl in H.
  exact (dropwhile_head _ _ _ _ H).
Qed.

(** A string that starts with a kept character does not strip to nothing. *)
Lemma strip_by_keeps (p : N -> bool) d (r : pystr) :
  p d = false -> strip_by p (d :: r) <> [].
Proof.
  intros Hd. unfold strip_by, lstrip_by, rstrip_by. simpl. rewrite Hd.
  intros H. apply (f_equal (@rev N)) in H.
  rewrite rev_involutive in H. simpl in H.
  exact (dropwhile_app_stop p (rev r) d Hd H).
Qed.

Lemma splitlines_from_nonempty (s cur : pystr) :
  s <> [] \/ cur <> [] -> splitlines_from cur s <> [].
Proof.
  revert cur. induction s as [|c rest IH]; intros cur H; simpl.
  - destruct H as [H|H]; [congruence|].
    destruct cur; [congruence | discriminate].
  - destruct (N.eqb c 13).
    + destruct rest as [|d rest']; [discriminate|].
      destruct (N.eqb d 10); discriminate.
    + destruct (is_linebreak c); [discriminate|].
      apply IH. right. discriminate.
Qed.

Lemma splitlines_nonempty (s : pystr) : s <> [] -> splitlines s <> [].
Proof. intros H. apply splitlines_from_nonempty. now left. Qed.

(** ** The structural pass *)

(** The title a heading line gives is never empty: the stripped line ends
    in a character that is not white space, so something follows the white
    space after the [#]s. *)
Lemma heading_title_nonempty (line g2 : pystr) :
  heading_match line = Some g2 -> strip g2 <> [].
Proof.
  unfold heading_match.
  set (l := strip line).
  destruct ((1 <=? length (takewhile (N.eqb 35) l))
            && (length (takewhile (N.eqb 35) l) <=? 6)); [|discriminate].
  destruct (dropwhile (N.eqb 35) l) as [|c rest'] eqn:Hrest; [discriminate|].
  destruct (isspace c) eqn:Hc; [|discriminate].
  intros [= <-].
  destruct (dropwhile isspace (c :: rest')) as [|d r'] eqn:Hdrop.
  - exfalso.
    apply dropwhile_nil_all in Hdrop.
    destruct (@exists_last _ (c :: rest')) as [pre [z Hz]]; [discriminate|].
    rewrite Hz, forallb_app in Hdrop. simpl in Hdrop.
    apply andb_prop in Hdrop. destruct Hdrop as [_ Hz'].
    rewrite andb_true_r in Hz'.
    pose proof (takewhile_dropwhile (N.eqb 35) l) as Hl.
    rewrite Hrest, Hz, app_assoc in Hl.
    unfold l, strip, strip_by in Hl.
    symmetry in Hl. apply rstrip_by_last in Hl. congruence.
  - pose proof (dropwhile_head _ _ _ _ Hdrop) as Hd.
    assert (Hnl : N.eqb d NL = false).
    { destruct (N.eqb d NL) eqn:Hnl; [|reflexivity].
      apply N.eqb_eq in Hnl. subst d. discriminate. }
    change (if isspace c then dropwhile isspace rest' else c :: rest')
      with (dropwhile isspace (c :: rest')).
    rewrite Hdrop. cbn [takewhile]. rewrite Hnl. cbn [negb].
    apply strip_by_keeps. exact Hd.
Qed.

Lemma title_or_default_nonempty (t : option pystr) :
  nonempty (title_or_default t) = true.
Proof. destruct t as [[|c r]|]; reflexivity. Qed.

Lemma flush_current_titles (sections : list sec) (current : current_sec) :
  Forall (fun s => nonempty (sec_title s) = true) sections ->
  Forall (fun s => nonempty (sec_title s) = true) (flush_current sections current).
Proof.
  intros H. unfold flush_current.
  destruct (title_truthy (cur_title current) || nonempty (cur_content current));
    [| exact H].
  apply Forall_app. split; [exact H|].
  constructor; [apply title_or_default_nonempty | constructor].
Qed.

Lemma split_fold_titles (lines : list pystr) :
  forall st,
    Forall (fun s => nonempty (sec_title s) = true) (fst st) ->
    Forall (fun s => nonempty (sec_title s) = true)
           (fst (fold_left split_step lines st)).
Proof.
  induction lines as [|line lines IH]; intros [sections current] H; simpl;
    [exact H|].
  apply IH. simpl in *. unfold split_step.
  destruct (heading_match line); simpl; [now apply flush_current_titles | exact H].
Qed.

Lemma split_step_live (st : list sec * current_sec) (line : pystr) :
  live (split_step st line).
Proof.
  destruct st as [sections current]. unfold split_step, live.
  destruct (heading_match line) as [g2|] eqn:Hm; simpl.
  - right. apply heading_title_nonempty in Hm.
    destruct (strip g2); [congruence | reflexivity].
  - right. rewrite orb_true_iff. right.
    destruct (cur_content current); reflexivity.
Qed.

Lemma flush_live (st : list sec * current_sec) :
  live st -> flush_current (fst st) (snd st) <> [].
Proof.
  destruct st as [sections current]. unfold live, flush_current. simpl.
  intros [H|H].
  - destruct (title_truthy (cur_title current) || nonempty (cur_content current));
      [| exact H].
    destruct sections; [congruence | discriminate].
  - rewrite H. destruct sections; discriminate.
Qed.

Lemma filter_all {A} (p : A -> bool) (l : list A) :
  Forall (fun x => p x = true) l -> filter p l = l.
Proof.
  induction 1 as [|x l Hx _ IH]; simpl; [reflexivity|].
  now rewrite Hx, IH.
Qed.

(** The sections are what the loop leaves, flushed: the final filter drops
    nothing, every title being non-empty. *)
Lemma split_sections_unfiltered (md : pystr) :
  _split_markdown_sections md
  = (let st := fold_left split_step (splitlines md)
                 ([], {| cur_title := None; cur_content := [] |}) in
     flush_current (fst st) (snd st)).
Proof.
  unfold _split_markdown_sections.
  pose proof (split_fold_titles (splitlines md)
                ([], {| cur_title := None; cur_content := [] |})
                (Forall_nil _)) as H.
  destruct (fold_left split_step (splitlines md) _) as [sections current].
  simpl in *. apply filter_all.
  eapply Forall_impl; [| apply flush_current_titles; exact H].
  intros s Hs. simpl in Hs. now rewrite Hs.
Qed.

(** Any text that is not empty has at least one section, headings or not. *)
Lemma split_sections_nonempty (md : pystr) :
  md <> [] -> _split_markdown_sections md <> [].
Proof.
  intros Hmd. rewrite split_sections_unfiltered. cbv zeta.
  apply flush_live.
  destruct (exists_last (splitlines_nonempty md Hmd)) as [ls [line Hls]].
  rewrite Hls, fold_left_app. simpl. apply split_step_live.
Qed.

Lemma split_sections_empty : _split_markdown_sections [] = [].
Proof. reflexivity. Qed.

(** ** Length of the outline *)

Lemma cap_sections_length (sections : list sec) (k : Z) :
  (1 <= k)%Z ->
  sections <> [] ->
  exists capped,
    cap_sections sections k = Ok capped /\
    1 <= length capped /\ (Z.of_nat (length capped) <= k)%Z.
Proof.
  intros Hk Hne.
  destruct (Z_lt_le_dec k (Z.of_nat (length sections))) as [Hlt|Hle].
  - destruct (cap_sections_runs sections k Hk Hlt) as (_ & _ & Heq).
    eexists. split; [exact Heq|].
    rewrite length_map, length_seq. lia.
  - exists sections. split.
    + unfold cap_sections.
      destruct (Z.of_nat (length sections) >? k)%Z eqn:E; [|reflexivity].
      rewrite Z.gtb_ltb in E. apply Z.ltb_lt in E. lia.
    + destruct sections; [congruence | simpl in *; lia].
Qed.

Lemma slice_to_all {A} (k : Z) (xs : list A) :
  (Z.of_nat (length xs) <= k)%Z -> slice_to k xs = xs.
Proof.
  intros H. rewrite slice_to_nonneg by lia. apply firstn_all2. lia.
Qed.

Lemma length_slice_to {A} (k : Z) (xs : list A) :
  (1 <= k)%Z -> xs <> [] ->
  1 <= length (slice_to k xs) /\ (Z.of_nat (length (slice_to k xs)) <= k)%Z.
Proof.
  intros Hk Hne. rewrite slice_to_nonneg, length_firstn by lia.
  destruct xs; [congruence | simpl length; lia].
Qed.

Lemma nonempty_true {A} (l : list A) : l <> [] -> nonempty l = true.
Proof. destruct l; [congruence | reflexivity]. Qed.

Section OutlineLength.

Variable textwrap_shorten : pystr -> Z -> pystr -> pystr.

(** C2.  For every text that is not empty and every [max_slides = k >= 1],
    both entry points of the extractor return (they raise nothing) an
    outline of at least one and at most [k] entries; for the empty text
    both return the empty outline, whatever [k]. *)
Theorem outline_never_fails_and_is_bounded
    (text : pystr) (guidance : option pystr) (k : Z) :
  (text <> [] ->
   (1 <= k)%Z ->
   exists o1 o2,
     heuristic_outline textwrap_shorten text k = Ok o1 /\
     outline_from_text textwrap_shorten text guidance k = Ok o2 /\
     1 <= length o1 /\ (Z.of_nat (length o1) <= k)%Z /\
     1 <= length o2 /\ (Z.of_nat (length o2) <= k)%Z) /\
  (text = [] ->
   heuristic_outline textwrap_shorten text k = Ok [] /\
   outline_from_text textwrap_shorten text guidance k = Ok []).
Proof.
  split.
  - intros Hne Hk.
    pose proof (split_sections_nonempty text Hne) as Hsecs.
    destruct (cap_sections_length (_split_markdown_sections text) k Hk Hsecs)
      as (capped & Hcap & Hlo & Hhi).
    eexists. eexists.
    unfold outline_from_text, heuristic_outline.
    rewrite (nonempty_true _ Hsecs), Hcap.
    split; [reflexivity|]. split; [reflexivity|].
    rewrite !length_map.
    rewrite (slice_to_all k capped Hhi).
    pose proof (length_slice_to k (_split_markdown_sections text) Hk Hsecs).
    lia.
  - intros ->.
    assert (Hempty : heuristic_outline textwrap_shorten [] k = Ok []).
    { unfold heuristic_outline. rewrite split_sections_empty. simpl.
      unfold cap_sections. simpl.
      assert (Hslice : slice_to k (@nil sec) = []).
      { unfold slice_to. destruct (k <? 0)%Z; apply firstn_nil. }
      destruct (0 >? k)%Z eqn:Hneg.
      - destruct (k =? 0)%Z eqn:Hzero.
        + apply Z.eqb_eq in Hzero. subst k. discriminate.
        + now rewrite !Hslice.
      - now rewrite !Hslice. }
    split; [exact Hempty|].
    unfold outline_from_text. rewrite split_sections_empty. exact Hempty.
Qed.

End OutlineLength.

Lemma outline_never_fails_and_is_bounded_witness :
  (py "ab" <> [] ->
   (1 <= 3)%Z ->
   exists o1 o2,
     heuristic_outline (fun b _ _ => b) (py "ab") 3 = Ok o1 /\
     outline_from_text (fun b _ _ => b) (py "ab") None 3 = Ok o2 /\
     1 <= length o1 /\ (Z.of_nat (length o1) <= 3)%Z /\
     1 <= length o2 /\ (Z.of_nat (length o2) <= 3)%Z) /\
  (py "ab" = [] ->
   heuristic_outline (fun b _ _ => b) (py "ab") 3 = Ok [] /\
   outline_from_text (fun b _ _ => b) (py "ab") None 3 = Ok []).
Proof.
  exact (outline_never_fails_and_is_bounded (fun b _ _ => b) (py "ab") None 3).
Defined.

(** ** Capping: the buckets *)

(** Three sections capped to two slides: the code makes runs of
    [3 // 2 = 1] section and drops the third, where runs of
    [ceil(3 / 2) = 2] would give [A+B] and [C]. *)
Lemma cap_three_to_two_is_not_ceil :
  let three := [sec_of "A" "a"; sec_of "B" "b"; sec_of "C" "c"] in
  cap_sections three 2 = Ok [sec_of "A" "a"; sec_of "B" "b"] /\
  cap_sections_ceil three 2
  = [ {| sec_title := py "A"; sec_content := py "a" ++ [NL; NL] ++ py "b" |};
      sec_of "C" "c" ] /\
  cap_sections three 2 <> Ok (cap_sections_ceil three 2).
Proof.
  cbv zeta. split; [reflexivity|]. split; [reflexivity|].
  vm_compute. discriminate.
Qed.

Lemma run_at_cons {A} (g : nat) (l : list A) (k i : nat) :
  1 <= g -> k * g <= length l -> i < k ->
  exists first rest, run_at g l i = first :: rest.
Proof.
  intros Hg Hk Hi.
  pose proof (run_at_full g l k i Hk Hi) as Hlen.
  destruct (run_at g l i) as [|first rest]; [simpl in Hlen; lia|].
  now exists first, rest.
Qed.

Section Capping.

Variable textwrap_shorten : pystr -> Z -> pystr -> pystr.

(** C4 (amended).  When the text has more sections than [max_slides = k]
    (with [k >= 1]), the heuristic extractor cuts them into consecutive
    runs of [g = floor(count / k)] sections and keeps exactly the first [k]
    runs: bucket [i] (from 0) is made of the [g] sections from position
    [i * g] on, has the title of the first of them and their contents
    joined by blank lines, and the outline is made of these [k] buckets. *)
Theorem heuristic_caps_by_floor_runs (text : pystr) (k : Z) :
  let sections := _split_markdown_sections text in
  let g := length sections / Z.to_nat k in
  (1 <= k)%Z ->
  (k < Z.of_nat (length sections))%Z ->
  exists buckets,
    cap_sections sections k = Ok buckets /\
    heuristic_outline textwrap_shorten text k
    = Ok (map (make_entry textwrap_shorten) buckets) /\
    length buckets = Z.to_nat k /\
    forall i, i < Z.to_nat k ->
      exists first rest,
        run_at g sections i = first :: rest /\
        length (first :: rest) = g /\
        nth_error buckets i
        = Some {| sec_title := sec_title first;
                  sec_content := join [NL; NL] (map sec_content (first :: rest)) |}.
Proof.
  intros sections g Hk Hn.
  destruct (cap_sections_runs sections k Hk Hn) as (Hg & Hkg & Heq).
  fold g in Hg, Hkg, Heq.
  eexists. split; [exact Heq|]. split; [|split].
  - unfold heuristic_outline. fold sections.
    rewrite nonempty_true by (intros E; rewrite E in Hn; simpl in Hn; lia).
    rewrite Heq. rewrite slice_to_all; [reflexivity|].
    rewrite length_map, length_seq. lia.
  - now rewrite length_map, length_seq.
  - intros i Hi.
    destruct (run_at_cons g sections (Z.to_nat k) i Hg Hkg Hi) as (first & rest & Hrun).
    exists first, rest. split; [exact Hrun|]. split.
    + rewrite <- Hrun. exact (run_at_full g sections (Z.to_nat k) i Hkg Hi).
    + rewrite nth_error_map, nth_error_seq.
      destruct (i <? Z.to_nat k) eqn:E; [| apply Nat.ltb_ge in E; lia].
      simpl. rewrite Hrun. reflexivity.
Qed.

End Capping.

Lemma heuristic_caps_by_floor_runs_witness :
  let text := twenty_sections_text in
  let sections := _split_markdown_sections text in
  let g := length sections / Z.to_nat 5 in
  ((1 <= 5)%Z /\ (5 < Z.of_nat (length sections))%Z) /\
  exists buckets,
    cap_sections sections 5 = Ok buckets /\
    heuristic_outline (fun b _ _ => b) text 5
    = Ok (map (make_entry (fun b _ _ => b)) buckets) /\
    length buckets = Z.to_nat 5 /\
    forall i, i < Z.to_nat 5 ->
      exists first rest,
        run_at g sections i = first :: rest /\
        length (first :: rest) = g /\
        nth_error buckets i
        = Some {| sec_title := sec_title first;
                  sec_content := join [NL; NL] (map sec_content (first :: rest)) |}.
Proof.
  cbv zeta. split; [split; [lia | vm_compute; reflexivity] |].
  apply (heuristic_caps_by_floor_runs (fun b _ _ => b) twenty_sections_text 5).
  - lia.
  - vm_compute. reflexivity.
Defined.

(** Twenty sections and five slides: five buckets of four, in order. *)
Example twenty_sections_five_slides (shorten : pystr -> Z -> pystr -> pystr) :
  heuristic_outline shorten twenty_sections_text 5
  = Ok [ {| title := py "H1";  bullets := [py "c1";  py "c2";  py "c3";  py "c4"] |};
         {| title := py "H5";  bullets := [py "c5";  py "c6";  py "c7";  py "c8"] |};
         {| title := py "H9";  bullets := [py "c9";  py "c10"; py "c11"; py "c12"] |};
         {| title := py "H13"; bullets := [py "c13"; py "c14"; py "c15"; py "c16"] |};
         {| title := py "H17"; bullets := [py "c17"; py "c18"; py "c19"; py "c20"] |} ].
Proof. vm_compute. reflexivity. Qed.

(** ** Bounds on the entries *)

Section EntryBounds.

Variable textwrap_shorten : pystr -> Z -> pystr -> pystr.

(** [textwrap.shorten] returns a text that fits in the width. *)
Hypothesis shorten_fits :
  forall t, length (textwrap_shorten t 240 [ELLIPSIS]) <= 240.

Lemma make_entry_bounded (s : sec) : entry_bounded (make_entry textwrap_shorten s).
Proof.
  unfold entry_bounded, make_entry. cbn [title bullets]. repeat split.
  - apply firstn_le_length.
  - rewrite length_map. apply firstn_le_length.
  - apply Forall_map, Forall_forall. intros b _.
    destruct (length b <=? 240) eqn:E; [now apply Nat.leb_le | apply shorten_fits].
Qed.

(** The heuristic entry point keeps every entry within the bounds of the
    data model: title of at most 90 characters, at most 8 bullets, each of
    at most 240 characters. *)
Theorem heuristic_outline_entries_bounded (text : pystr) (k : Z) (outline : list entry) :
  heuristic_outline textwrap_shorten text k = Ok outline ->
  Forall entry_bounded outline.
Proof.
  unfold heuristic_outline.
  destruct (cap_sections _ k); [| discriminate].
  intros [= <-]. apply Forall_map, Forall_forall. intros s _.
  apply make_entry_bounded.
Qed.

End EntryBounds.

Lemma heuristic_outline_entries_bounded_witness :
  let shorten := fun (t : pystr) (w : Z) (_ : pystr) => firstn (Z.to_nat w) t in
  Forall entry_bounded
    [ {| title := py "A"; bullets := [py "a"; py "b"] |} ].
Proof.
  cbv zeta.
  apply (heuristic_outline_entries_bounded
           (fun t w _ => firstn (Z.to_nat w) t)
           (fun t => firstn_le_length 240 t)
           (py "# A" ++ [NL] ++ py "a" ++ [NL] ++ py "- b") 12).
  vm_compute. reflexivity.
Defined.

(** The structural entry point bounds the title and the number of bullets;
    it does nothing about the length of a bullet. *)
Theorem outline_from_text_title_and_count
    (shorten : pystr -> Z -> pystr -> pystr)
    (text : pystr) (guidance : option pystr) (k : Z) (outline : list entry) :
  text <> [] ->
  outline_from_text shorten text guidance k = Ok outline ->
  Forall (fun e => length (title e) <= 90 /\ length (bullets e) <= 8) outline.
Proof.
  intros Hne. unfold outline_from_text.
  rewrite (nonempty_true _ (split_sections_nonempty text Hne)).
  intros H.
  assert (E : outline
              = map (fun s =>
                       {| title := firstn 90 (sec_title s);
                          bullets :=
                            firstn 8
                              (filter (fun b => 0 <? length b)
                                 (map (strip_by dash_bullet_space)
                                    (filter (fun ln => nonempty (strip ln))
                                       (splitlines (sec_content s))))) |})
                    (slice_to k (_split_markdown_sections text)))
    by congruence.
  rewrite E. apply Forall_map, Forall_forall. intros s _.
  cbn [title bullets]. split; apply firstn_le_length.
Qed.

Lemma outline_from_text_title_and_count_witness :
  Forall (fun e => length (title e) <= 90 /\ length (bullets e) <= 8)
    [ {| title := py "A"; bullets := [py "a"; py "b"] |} ].
Proof.
  apply (outline_from_text_title_and_count (fun b _ _ => b)
           (py "# A" ++ [NL] ++ py "a" ++ [NL] ++ py "- b") None 12).
  - discriminate.
  - vm_compute. reflexivity.
Defined.

(** C1.  The structural entry point returns a bullet of 241 characters: a
    line of a section's content becomes a bullet as it is, whatever its
    length. *)
Theorem outline_from_text_long_bullet (shorten : pystr -> Z -> pystr -> pystr) :
  let text := py "# T" ++ [NL] ++ repeat 120%N 241 in
  exists e b,
    outline_from_text shorten text None 12 = Ok [e] /\
    title e = py "T" /\
    bullets e = [b] /\
    length b = 241.
Proof.
  cbv zeta.
  exists {| title := py "T"; bullets := [repeat 120%N 241] |}, (repeat 120%N 241).
  repeat split; vm_compute; reflexivity.
Qed.

(** ** The fallback pass *)

(** The paragraph pass of [heuristic_outline] runs on the empty text only:
    for any other text the sections are the ones of the structural pass. *)
Theorem heuristic_outline_skips_paragraphs
    (shorten : pystr -> Z -> pystr -> pystr) (text : pystr) (k : Z) :
  text <> [] ->
  heuristic_outline shorten text k
  = match cap_sections (_split_markdown_sections text) k with
    | Raise e => Raise e
    | Ok sections => Ok (map (make_entry shorten) (slice_to k sections))
    end.
Proof.
  intros Hne. unfold heuristic_outline.
  now rewrite (nonempty_true _ (split_sections_nonempty text Hne)).
Qed.

Lemma heuristic_outline_skips_paragraphs_witness :
  heuristic_outline (fun b _ _ => b) (py "ab") 3
  = match cap_sections (_split_markdown_sections (py "ab")) 3 with
    | Raise e => Raise e
    | Ok sections => Ok (map (make_entry (fun b _ _ => b)) (slice_to 3 sections))
    end.
Proof.
  apply (heuristic_outline_skips_paragraphs (fun b _ _ => b) (py "ab") 3).
  discriminate.
Defined.

(** C3.  Two paragraphs and no heading, [max_slides = 12]: both entry points
    return one entry, titled [Section], whose bullets are the two
    paragraphs. *)
Theorem two_paragraphs_give_one_section (shorten : pystr -> Z -> pystr -> pystr) :
  let text := py "Alpha beta. Gamma." ++ [NL; NL] ++ py "Delta eps." in
  let one_section :=
    [ {| title := py "Section";
         bullets := [py "Alpha beta. Gamma."; py "Delta eps."] |} ] in
  _split_markdown_sections text
  = [ {| sec_title := py "Section"; sec_content := text |} ] /\
  heuristic_outline shorten text 12 = Ok one_section /\
  outline_from_text shorten text None 12 = Ok one_section.
Proof. cbv zeta. repeat split; vm_compute; reflexivity. Qed.

(** ** Titles *)

Lemma heuristic_outline_empty (shorten : pystr -> Z -> pystr -> pystr) (k : Z) :
  heuristic_outline shorten [] k = Ok [].
Proof.
  unfold heuristic_outline. rewrite split_sections_empty. simpl.
  unfold cap_sections. simpl.
  assert (Hslice : slice_to k (@nil sec) = []).
  { unfold slice_to. destruct (k <? 0)%Z; apply firstn_nil. }
  destruct (0 >? k)%Z eqn:Hneg.
  - destruct (k =? 0)%Z eqn:Hzero.
    + apply Z.eqb_eq in Hzero. subst k. discriminate.
    + now rewrite !Hslice.
  - now rewrite !Hslice.
Qed.

Lemma split_sections_titles (md : pystr) :
  Forall (fun s => nonempty (sec_title s) = true) (_split_markdown_sections md).
Proof.
  rewrite split_sections_unfiltered. cbv zeta.
  apply flush_current_titles, split_fold_titles. constructor.
Qed.

Lemma merge_bucket_title (bucket : list sec) :
  bucket <> [] ->
  Forall (fun s => nonempty (sec_title s) = true) bucket ->
  nonempty (sec_title (merge_bucket bucket)) = true.
Proof.
  intros Hne H. destruct bucket as [|s r]; [congruence|].
  inversion H; subst. assumption.
Qed.

(** The capping loop keeps the titles non-empty: a bucket takes the title
    of its first member. *)
Lemma cap_fold_titles (threshold : Z) (xs : list sec) :
  Forall (fun s => nonempty (sec_title s) = true) xs ->
  forall merged bucket,
    Forall (fun s => nonempty (sec_title s) = true) merged ->
    Forall (fun s => nonempty (sec_title s) = true) bucket ->
    Forall (fun s => nonempty (sec_title s) = true)
           (fst (fold_left (cap_step threshold) xs (merged, bucket))) /\
    Forall (fun s => nonempty (sec_title s) = true)
           (snd (fold_left (cap_step threshold) xs (merged, bucket))).
Proof.
  induction 1 as [|x xs Hx Hxs IH]; intros merged bucket Hm Hb; simpl;
    [now split|].
  assert (Hbx : Forall (fun s => nonempty (sec_title s) = true) (bucket ++ [x])).
  { apply Forall_app. split; [exact Hb | now constructor]. }
  destruct (Z.of_nat (length (bucket ++ [x])) >=? threshold)%Z.
  - apply IH; [| constructor].
    apply Forall_app. split; [exact Hm|]. constructor; [| constructor].
    apply merge_bucket_title; [destruct bucket; discriminate | exact Hbx].
  - now apply IH.
Qed.

Lemma Forall_firstn_of {A} (P : A -> Prop) (n : nat) (l : list A) :
  Forall P l -> Forall P (firstn n l).
Proof.
  intros H. revert n. induction H as [|x l Hx _ IH]; intros [|n]; simpl;
    try constructor; auto.
Qed.

Lemma Forall_slice_to {A} (P : A -> Prop) (k : Z) (l : list A) :
  Forall P l -> Forall P (slice_to k l).
Proof.
  intros H. unfold slice_to. destruct (k <? 0)%Z; now apply Forall_firstn_of.
Qed.

Lemma cap_sections_titles (sections capped : list sec) (k : Z) :
  Forall (fun s => nonempty (sec_title s) = true) sections ->
  cap_sections sections k = Ok capped ->
  Forall (fun s => nonempty (sec_title s) = true) capped.
Proof.
  intros H. unfold cap_sections.
  destruct (Z.of_nat (length sections) >? k)%Z; [| now intros [= <-]].
  destruct (k =? 0)%Z; [discriminate|].
  pose proof (cap_fold_titles (Z.max 1 (Z.of_nat (length sections) / k)) sections H
                [] [] (Forall_nil _) (Forall_nil _)) as [Hm Hb].
  destruct (fold_left _ sections ([], [])) as [merged bucket].
  simpl in Hm, Hb. intros [= <-]. apply Forall_slice_to.
  destruct (nonempty bucket) eqn:E; [| exact Hm].
  apply Forall_app. split; [exact Hm|]. constructor; [| constructor].
  apply merge_bucket_title; [destruct bucket; discriminate | exact Hb].
Qed.

Lemma firstn_nonempty {A} (n : nat) (l : list A) :
  1 <= n -> nonempty l = true -> firstn n l <> [].
Proof. destruct n; [lia|]. destruct l; discriminate. Qed.

(** No entry of an outline has an empty title, whichever entry point made
    it: a heading's title is never empty, a section without heading is
    titled [Section], a paragraph without first sentence [Topic], a bucket
    takes the title of its first section, and the cut to 90 characters
    leaves at least one. *)
Theorem outline_titles_nonempty
    (shorten : pystr -> Z -> pystr -> pystr)
    (text : pystr) (guidance : option pystr) (k : Z) (outline : list entry) :
  heuristic_outline shorten text k = Ok outline \/
  outline_from_text shorten text guidance k = Ok outline ->
  Forall (fun e => title e <> []) outline.
Proof.
  assert (Hheur : forall o, heuristic_outline shorten text k = Ok o ->
                            Forall (fun e => title e <> []) o).
  { intros o. unfold heuristic_outline.
    set (sections := if nonempty (_split_markdown_sections text) then _ else _).
    assert (Hs : Forall (fun s => nonempty (sec_title s) = true) sections).
    { unfold sections.
      destruct (nonempty (_split_markdown_sections text)) eqn:E;
        [apply split_sections_titles|].
      apply Forall_app. split; [apply split_sections_titles|].
      apply Forall_map, Forall_forall. intros p _. cbn [sec_title].
      destruct (nonempty (firstn 80 (hd [] (split_char 46 p)))) eqn:Ht;
        [exact Ht | reflexivity]. }
    destruct (cap_sections sections k) as [capped|e] eqn:Hcap; [| discriminate].
    intros [= <-].
    apply Forall_map, Forall_slice_to.
    eapply Forall_impl; [| exact (cap_sections_titles _ _ _ Hs Hcap)].
    intros s Hne. unfold make_entry. cbn [title].
    apply firstn_nonempty; [lia | exact Hne]. }
  intros [H|H]; [now apply Hheur|].
  unfold outline_from_text in H.
  destruct (nonempty (_split_markdown_sections text)); [| now apply Hheur].
  assert (E : outline
              = map (fun s =>
                       {| title := firstn 90 (sec_title s);
                          bullets :=
                            firstn 8
                              (filter (fun b => 0 <? length b)
                                 (map (strip_by dash_bullet_space)
                                    (filter (fun ln => nonempty (strip ln))
                                       (splitlines (sec_content s))))) |})
                    (slice_to k (_split_markdown_sections text)))
    by congruence.
  rewrite E. apply Forall_map, Forall_slice_to.
  eapply Forall_impl; [| apply split_sections_titles].
  intros s Hne. cbn [title]. apply firstn_nonempty; [lia | exact Hne].
Qed.

Lemma outline_titles_nonempty_witness :
  Forall (fun e => title e <> [])
    [ {| title := py "Section"; bullets := [py "intro"] |};
      {| title := py "A"; bullets := [] |} ].
Proof.
  apply (outline_titles_nonempty (fun b _ _ => b)
           (py "intro" ++ [NL] ++ py "# A") None 12).
  right. vm_compute. reflexivity.
Defined.

(** ** Sections and headings *)

Lemma split_fold_content (lines : list pystr) :
  no_heading lines ->
  forall sections current,
    fold_left split_step lines (sections, current)
    = (sections, {| cur_title := cur_title current;
                    cur_content := cur_content current ++ lines |}).
Proof.
  induction 1 as [|line lines Hl _ IH]; intros sections current; simpl.
  - rewrite app_nil_r. destruct current; reflexivity.
  - rewrite Hl, IH. cbn [cur_title cur_content]. now rewrite <- app_assoc.
Qed.

Lemma split_fold_block (b : heading_block) (sections : list sec) (current : current_sec) :
  heading_title (block_heading b) = Some (block_title b) ->
  no_heading (block_lines b) ->
  fold_left split_step (block_heading b :: block_lines b) (sections, current)
  = (flush_current sections current,
     {| cur_title := Some (block_title b); cur_content := block_lines b |}).
Proof.
  intros Hh Hl. unfold heading_title in Hh. cbn [fold_left].
  unfold split_step at 2.
  destruct (heading_match (block_heading b)) as [g2|]; [|discriminate].
  injection Hh as Hh. rewrite (split_fold_content _ Hl). cbn [cur_title cur_content].
  now rewrite Hh.
Qed.

Lemma heading_title_is_nonempty (line t : pystr) :
  heading_title line = Some t -> t <> [].
Proof.
  unfold heading_title. destruct (heading_match line) as [g2|] eqn:E; [|discriminate].
  intros [= <-]. exact (heading_title_nonempty line g2 E).
Qed.

(** Each heading closes the section before it and opens its own. *)
Lemma split_fold_blocks (blocks : list heading_block) :
  Forall (fun b => heading_title (block_heading b) = Some (block_title b) /\
                   no_heading (block_lines b)) blocks ->
  forall sections current,
    let st := fold_left split_step
                (flat_map (fun b => block_heading b :: block_lines b) blocks)
                (sections, current) in
    flush_current (fst st) (snd st)
    = flush_current sections current ++ map block_section blocks.
Proof.
  induction 1 as [|b blocks [Hh Hl] _ IH]; intros sections current; cbv zeta.
  - simpl. now rewrite app_nil_r.
  - cbn [flat_map]. rewrite fold_left_app.
    rewrite (split_fold_block b sections current Hh Hl).
    cbv zeta in IH. rewrite IH. cbn [map].
    unfold flush_current at 1. cbn [cur_title cur_content].
    pose proof (heading_title_is_nonempty _ _ Hh) as Hne.
    destruct (block_title b) as [|c r] eqn:Et; [congruence|].
    cbn [title_truthy orb title_or_default].
    rewrite <- app_assoc. unfold block_section. rewrite Et. reflexivity.
Qed.

(** The sections of a text are its heading-delimited blocks, in order: one
    section per heading, titled by the heading, whose content is the lines
    under it, joined and stripped; before them, when a line precedes the
    first heading (a blank line is enough), a section titled [Section]
    with these lines. *)
Theorem sections_follow_headings
    (md : pystr) (prelude : list pystr) (blocks : list heading_block) :
  splitlines md = lines_of prelude blocks ->
  cut_at_headings prelude blocks ->
  _split_markdown_sections md = prelude_section prelude ++ map block_section blocks.
Proof.
  intros Hlines [Hp Hb].
  rewrite split_sections_unfiltered, Hlines. cbv zeta.
  unfold lines_of. rewrite fold_left_app, (split_fold_content _ Hp).
  cbn [cur_title cur_content app].
  pose proof (split_fold_blocks blocks Hb [] {| cur_title := None; cur_content := prelude |})
    as H.
  cbv zeta in H. rewrite H. reflexivity.
Qed.

Lemma sections_follow_headings_witness :
  _split_markdown_sections
    ([NL] ++ py "# A" ++ [NL] ++ py "x" ++ [NL] ++ py "y" ++ [NL] ++ py "## B")
  = [ sec_of "Section" "" ]
    ++ [ {| sec_title := py "A"; sec_content := py "x" ++ [NL] ++ py "y" |};
         sec_of "B" "" ].
Proof.
  apply (sections_follow_headings
           ([NL] ++ py "# A" ++ [NL] ++ py "x" ++ [NL] ++ py "y" ++ [NL] ++ py "## B")
           [[]]
           [ {| block_heading := py "# A"; block_title := py "A";
                block_lines := [py "x"; py "y"] |};
             {| block_heading := py "## B"; block_title := py "B";
                block_lines := [] |} ]).
  - reflexivity.
  - split; repeat constructor.
Defined.

(** A text without any heading, however long, is one section titled
    [Section], and so one entry for both entry points: the structural one
    keeps its first eight lines that are not blank as bullets. *)
Theorem text_without_headings_is_one_section
    (shorten : pystr -> Z -> pystr -> pystr)
    (md : pystr) (guidance : option pystr) (k : Z) :
  md <> [] ->
  no_heading (splitlines md) ->
  (1 <= k)%Z ->
  let content := strip (join [NL] (splitlines md)) in
  let one := {| sec_title := py "Section"; sec_content := content |} in
  _split_markdown_sections md = [one] /\
  heuristic_outline shorten md k = Ok [make_entry shorten one] /\
  exists bs,
    outline_from_text shorten md guidance k
    = Ok [ {| title := py "Section"; bullets := bs |} ] /\
    length bs <= 8 /\
    bs = firstn 8 (filter (fun b => 0 <? length b)
                     (map (strip_by dash_bullet_space)
                        (filter (fun ln => nonempty (strip ln)) (splitlines content)))).
Proof.
  intros Hne Hno Hk content one.
  assert (Hsecs : _split_markdown_sections md = [one]).
  { rewrite split_sections_unfiltered. cbv zeta.
    rewrite (split_fold_content _ Hno). cbn [fst snd cur_title cur_content app].
    unfold flush_current. cbn [cur_title cur_content title_truthy orb].
    rewrite (nonempty_true _ (splitlines_nonempty md Hne)). reflexivity. }
  split; [exact Hsecs|]. split.
  - unfold heuristic_outline. rewrite Hsecs. cbn [nonempty].
    unfold cap_sections. cbn [length].
    destruct (Z.of_nat 1 >? k)%Z eqn:E;
      [rewrite Z.gtb_ltb in E; apply Z.ltb_lt in E; lia|].
    rewrite slice_to_all by (simpl; lia). reflexivity.
  - eexists. split; [| split; [| reflexivity]].
    + unfold outline_from_text. rewrite Hsecs. cbn [nonempty].
      rewrite slice_to_all by (simpl; lia). reflexivity.
    + apply firstn_le_length.
Qed.

Lemma text_without_headings_is_one_section_witness :
  let md := py "Alpha." ++ [NL; NL] ++ py "- Beta" in
  let one := {| sec_title := py "Section"; sec_content := md |} in
  _split_markdown_sections md = [one] /\
  heuristic_outline (fun b _ _ => b) md 3 = Ok [make_entry (fun b _ _ => b) one] /\
  exists bs,
    outline_from_text (fun b _ _ => b) md None 3
    = Ok [ {| title := py "Section"; bullets := bs |} ] /\
    length bs <= 8 /\
    bs = firstn 8 (filter (fun b => 0 <? length b)
                     (map (strip_by dash_bullet_space)
                        (filter (fun ln => nonempty (strip ln)) (splitlines md)))).
Proof.
  cbv zeta.
  apply (text_without_headings_is_one_section (fun b _ _ => b)
           (py "Alpha." ++ [NL; NL] ++ py "- Beta") None 3).
  - discriminate.
  - repeat constructor.
  - lia.
Defined.

(** ** Heading lines *)

Lemma dropwhile_app_keep {A} (p : A -> bool) (l : list A) c m :
  p c = false -> dropwhile p (l ++ c :: m) = dropwhile p l ++ c :: m.
Proof.
  intros Hc. induction l as [|a l IH]; simpl.
  - now rewrite Hc.
  - destruct (p a); [exact IH | reflexivity].
Qed.

Lemma dropwhile_all {A} (p : A -> bool) (l m : list A) :
  forallb p l = true -> dropwhile p (l ++ m) = dropwhile p m.
Proof.
  induction l as [|a l IH]; simpl; [reflexivity|].
  intros H. apply andb_prop in H. destruct H as [Ha Hl]. rewrite Ha. now apply IH.
Qed.

Lemma takewhile_all {A} (p : A -> bool) (l m : list A) :
  forallb p l = true -> takewhile p (l ++ m) = l ++ takewhile p m.
Proof.
  induction l as [|a l IH]; simpl; [reflexivity|].
  intros H. apply andb_prop in H. destruct H as [Ha Hl]. rewrite Ha.
  now rewrite IH.
Qed.

Lemma takewhile_id {A} (p : A -> bool) (l : list A) :
  forallb p l = true -> takewhile p l = l.
Proof.
  intros H. rewrite <- (app_nil_r l) at 1. rewrite takewhile_all by exact H.
  simpl. apply app_nil_r.
Qed.

(** What is left of a right strip when a kept character is in the text:
    everything up to that character, and the strip of what follows. *)
Lemma rstrip_by_keep (p : N -> bool) (pre : pystr) c (r : pystr) :
  p c = false -> rstrip_by p (pre ++ c :: r) = pre ++ c :: rstrip_by p r.
Proof.
  intros Hc. unfold rstrip_by.
  rewrite rev_app_distr. cbn [rev]. rewrite <- app_assoc. cbn [app].
  rewrite dropwhile_app_keep by exact Hc.
  rewrite rev_app_distr. cbn [rev]. rewrite rev_involutive.
  now rewrite <- app_assoc.
Qed.

Lemma rstrip_by_all (p : N -> bool) (s : pystr) :
  forallb p s = true -> rstrip_by p s = [].
Proof.
  intros H. unfold rstrip_by.
  assert (Hr : forallb p (rev s) = true).
  { rewrite forallb_forall in *. intros x Hx. apply H. now apply in_rev. }
  rewrite <- (app_nil_r (rev s)), dropwhile_all by exact Hr. reflexivity.
Qed.

Lemma forallb_repeat {A} (p : A -> bool) (x : A) (n : nat) :
  p x = true -> forallb p (repeat x n) = true.
Proof. intros H. induction n; simpl; [reflexivity | now rewrite H]. Qed.

Lemma space_is_no_hash (c : N) : isspace c = true -> N.eqb 35 c = false.
Proof.
  intros H. destruct (N.eqb 35 c) eqn:E; [| reflexivity].
  apply N.eqb_eq in E. subst c. discriminate.
Qed.

(** Stripping removes the white space around a text that neither starts
    nor ends with white space, and nothing else. *)
Lemma strip_keeps (before s after : pystr) :
  all_space before -> all_space after ->
  s <> [] ->
  isspace (hd 0%N s) = false ->
  isspace (last s 0%N) = false ->
  strip (before ++ s ++ after) = s.
Proof.
  intros Hb Ha Hs Hhd Hlast. unfold strip, strip_by, lstrip_by.
  rewrite dropwhile_all by exact Hb.
  destruct (exists_last Hs) as [pre [d Hd]].
  rewrite Hd, last_last in Hlast.
  assert (Hl : dropwhile isspace (s ++ after) = s ++ after).
  { destruct s as [|c r]; [congruence|]. cbn [hd] in Hhd.
    cbn [app dropwhile]. now rewrite Hhd. }
  rewrite Hl, Hd, <- app_assoc. cbn [app].
  rewrite (rstrip_by_keep isspace pre d after Hlast).
  now rewrite (rstrip_by_all isspace after Ha).
Qed.

(** A line made of [n >= 1] characters [#], white space and a title,
    whatever white space surrounds it, is a heading with that title when
    [n] is at most 6, and is no heading (so a line of content) when [n] is
    7 or more. *)
Theorem heading_line_is_recognised (n : nat) (before gap title after : pystr) :
  all_space before -> all_space gap -> all_space after ->
  gap <> [] ->
  title <> [] ->
  isspace (hd 0%N title) = false ->
  isspace (last title 0%N) = false ->
  ~ In NL title ->
  1 <= n ->
  heading_title (before ++ repeat 35%N n ++ gap ++ title ++ after)
  = if n <=? 6 then Some title else None.
Proof.
  intros Hb Hg Ha Hgap Ht Hhd Hlast Hnl Hn.
  destruct n as [|m]; [lia|].
  assert (Hstrip :
    strip (before ++ repeat 35%N (S m) ++ gap ++ title ++ after)
    = repeat 35%N (S m) ++ gap ++ title).
  { replace (repeat 35%N (S m) ++ gap ++ title ++ after)
      with ((repeat 35%N (S m) ++ gap ++ title) ++ after)
      by (now rewrite <- !app_assoc).
    apply strip_keeps; try assumption.
    - discriminate.
    - reflexivity.
    - destruct (exists_last Ht) as [pre [d Hd]].
      rewrite Hd in *. rewrite last_last in Hlast.
      rewrite !app_assoc, last_last. exact Hlast. }
  assert (Hhash : forallb (N.eqb 35) (repeat 35%N (S m)) = true)
    by (apply forallb_repeat; reflexivity).
  destruct gap as [|s gap']; [congruence|].
  assert (Hs : isspace s = true).
  { unfold all_space in Hg. simpl in Hg. now apply andb_prop in Hg. }
  assert (Hgap' : forallb isspace gap' = true).
  { unfold all_space in Hg. simpl in Hg. now apply andb_prop in Hg. }
  unfold heading_title, heading_match. rewrite Hstrip.
  rewrite (takewhile_all _ _ _ Hhash), (dropwhile_all _ _ _ Hhash).
  cbn [app takewhile dropwhile]. rewrite (space_is_no_hash s Hs).
  rewrite app_nil_r, repeat_length.
  change (1 <=? S m) with true. cbn [andb].
  destruct (S m <=? 6); [| reflexivity].
  rewrite !Hs. cbv match. cbn [dropwhile]. rewrite Hs, (dropwhile_all _ _ _ Hgap').
  assert (Hdrop : dropwhile isspace title = title).
  { destruct title as [|c r]; [congruence|]. cbn [hd] in Hhd.
    cbn [dropwhile]. now rewrite Hhd. }
  rewrite Hdrop, takewhile_id.
  - cbn [option_map]. f_equal.
    pose proof (strip_keeps [] title [] eq_refl eq_refl Ht Hhd Hlast) as Hk.
    cbn [app] in Hk. now rewrite app_nil_r in Hk.
  - rewrite forallb_forall. intros x Hx.
    destruct (N.eqb x NL) eqn:E; [| reflexivity].
    apply N.eqb_eq in E. subst x. contradiction.
Qed.

Lemma heading_line_is_recognised_witness :
  heading_title (py "  " ++ repeat 35%N 3 ++ [9; 32]%N ++ py "My title" ++ py " ")
  = Some (py "My title").
Proof.
  apply (heading_line_is_recognised 3 (py "  ") [9; 32]%N (py "My title") (py " "));
    try reflexivity; try discriminate; try lia.
  vm_compute. intros H. repeat (destruct H as [H|H]; [discriminate|]). exact H.
Defined.

(** A line where text follows the [#]s at once, with no white space
    between them, is no heading, however many [#] there are. *)
Theorem hash_without_space_is_no_heading
    (n : nat) (before : pystr) (c : N) (rest : pystr) :
  all_space before ->
  isspace c = false ->
  c <> 35%N ->
  heading_match (before ++ repeat 35%N n ++ c :: rest) = None.
Proof.
  intros Hb Hc Hhash.
  assert (Hstrip :
    strip (before ++ repeat 35%N n ++ c :: rest)
    = repeat 35%N n ++ c :: rstrip_by isspace rest).
  { unfold strip, strip_by, lstrip_by. rewrite dropwhile_all by exact Hb.
    assert (Hl : dropwhile isspace (repeat 35%N n ++ c :: rest)
                 = repeat 35%N n ++ c :: rest).
    { destruct n; cbn [repeat app dropwhile]; [now rewrite Hc | reflexivity]. }
    rewrite Hl. apply rstrip_by_keep. exact Hc. }
  assert (Hh : forallb (N.eqb 35) (repeat 35%N n) = true)
    by (apply forallb_repeat; reflexivity).
  unfold heading_match. rewrite Hstrip.
  rewrite (takewhile_all _ _ _ Hh), (dropwhile_all _ _ _ Hh).
  cbn [takewhile dropwhile].
  assert (E : N.eqb 35 c = false) by (apply N.eqb_neq; congruence).
  rewrite E, Hc. now destruct (_ && _).
Qed.

Lemma hash_without_space_is_no_heading_witness :
  heading_match ([] ++ repeat 35%N 1 ++ 84%N :: py "itle") = None.
Proof.
  apply (hash_without_space_is_no_heading 1 [] 84%N (py "itle"));
    [reflexivity | reflexivity | discriminate].
Defined.

(** ** Bullets of the structural entry point *)

(** The ends of a stripped text are kept characters. *)
Lemma strip_by_ends (p : N -> bool) (s : pystr) (d : N) :
  strip_by p s <> [] ->
  p (hd d (strip_by p s)) = false /\ p (last (strip_by p s) d) = false.
Proof.
  unfold strip_by, lstrip_by. intros Hne.
  destruct (dropwhile p s) as [|x r] eqn:E; [now destruct Hne|].
  pose proof (dropwhile_head _ _ _ _ E) as Hx.
  split.
  - pose proof (rstrip_by_keep p [] x r Hx) as Hk. cbn [app] in Hk.
    rewrite Hk. exact Hx.
  - destruct (exists_last Hne) as [pre [c Hc]].
    rewrite Hc, last_last. exact (rstrip_by_last p _ _ _ Hc).
Qed.

(** Every bullet the structural entry point returns is trimmed: it is not
    empty, and the spaces, hyphens and bullet characters around it (the
    list markers) are gone. *)
Theorem outline_from_text_bullets_trimmed
    (shorten : pystr -> Z -> pystr -> pystr)
    (text : pystr) (guidance : option pystr) (k : Z) (outline : list entry) :
  outline_from_text shorten text guidance k = Ok outline ->
  Forall (fun e => Forall trimmed (bullets e)) outline.
Proof.
  unfold outline_from_text.
  destruct (nonempty (_split_markdown_sections text)) eqn:Esecs.
  - intros H.
    assert (E : outline
                = map (fun s =>
                         {| title := firstn 90 (sec_title s);
                            bullets :=
                              firstn 8
                                (filter (fun b => 0 <? length b)
                                   (map (strip_by dash_bullet_space)
                                      (filter (fun ln => nonempty (strip ln))
                                         (splitlines (sec_content s))))) |})
                      (slice_to k (_split_markdown_sections text)))
      by congruence.
    rewrite E. apply Forall_map, Forall_forall. intros s _. cbn [bullets].
    apply Forall_firstn_of, Forall_forall. intros b Hb.
    apply filter_In in Hb. destruct Hb as [Hin Hlen].
    apply in_map_iff in Hin. destruct Hin as (ln & <- & _).
    assert (Hne : strip_by dash_bullet_space ln <> []).
    { intros E0. rewrite E0 in Hlen. discriminate. }
    split; [exact Hne | exact (strip_by_ends _ _ _ Hne)].
  - destruct text as [|c r].
    + rewrite heuristic_outline_empty. intros [= <-]. constructor.
    + exfalso. apply (split_sections_nonempty (c :: r)); [discriminate|].
      destruct (_split_markdown_sections (c :: r)); [reflexivity | discriminate].
Qed.

Lemma outline_from_text_bullets_trimmed_witness :
  Forall (fun e => Forall trimmed (bullets e))
    [ {| title := py "A"; bullets := [py "a"; py "b - c"] |} ].
Proof.
  apply (outline_from_text_bullets_trimmed (fun b _ _ => b)
           (py "# A" ++ [NL] ++ py " - a " ++ [NL] ++ [BULLET] ++ py " b - c") None 12).
  vm_compute. reflexivity.
Defined.

(** ** The cap at its edges *)

(** With [max_slides = 0] and a text that is not empty, the heuristic
    entry point divides by zero, and the structural one returns the empty
    outline. *)
Theorem zero_slides_raise_or_give_nothing
    (shorten : pystr -> Z -> pystr -> pystr) (text : pystr) (guidance : option pystr) :
  text <> [] ->
  heuristic_outline shorten text 0 = Raise ZeroDivisionError /\
  outline_from_text shorten text guidance 0 = Ok [].
Proof.
  intros Hne. pose proof (split_sections_nonempty text Hne) as Hsecs.
  unfold outline_from_text, heuristic_outline.
  rewrite (nonempty_true _ Hsecs). split; [| reflexivity].
  unfold cap_sections.
  destruct (_split_markdown_sections text) as [|s l]; [congruence|].
  reflexivity.
Qed.

Lemma zero_slides_raise_or_give_nothing_witness :
  heuristic_outline (fun b _ _ => b) (py "ab") 0 = Raise ZeroDivisionError /\
  outline_from_text (fun b _ _ => b) (py "ab") None 0 = Ok [].
Proof.
  apply (zero_slides_raise_or_give_nothing (fun b _ _ => b) (py "ab") None).
  discriminate.
Defined.

Lemma concat_runs {A} (g : nat) (l : list A) (j : nat) :
  j * g <= length l ->
  concat (map (run_at g l) (seq 0 j)) = firstn (j * g) l.
Proof.
  induction j as [|j IH]; intros Hlen; [reflexivity|].
  rewrite seq_S, map_app, concat_app, IH by (simpl in Hlen; lia).
  cbn [map concat Nat.add]. rewrite app_nil_r. unfold run_at.
  rewrite <- (firstn_skipn (j * g) l) at 3.
  rewrite firstn_app, length_firstn.
  replace (Nat.min (j * g) (length l)) with (j * g) by (simpl in Hlen; lia).
  replace (S j * g - j * g) with g by lia.
  rewrite (firstn_all2 (n := S j * g)) by (rewrite length_firstn; lia).
  reflexivity.
Qed.

(** What capping keeps: with at most [k] sections, all of them, unmerged;
    with [n > k] sections, [k] buckets of [n / k] sections each that hold,
    in order, the first [n - n mod k] sections: the last [n mod k]
    sections are in no bucket, and nothing is lost exactly when [k]
    divides [n]. *)
Theorem capping_drops_the_remainder (sections : list sec) (k : Z) :
  let n := length sections in
  (1 <= k)%Z ->
  ((Z.of_nat n <= k)%Z ->
   cap_sections sections k = Ok sections) /\
  ((k < Z.of_nat n)%Z ->
   exists runs,
     cap_sections sections k = Ok (map merge_bucket runs) /\
     length runs = Z.to_nat k /\
     Forall (fun run => length run = n / Z.to_nat k) runs /\
     concat runs = firstn (n - n mod Z.to_nat k) sections).
Proof.
  intros n Hk. split.
  - intros Hle. unfold cap_sections. fold n.
    destruct (Z.of_nat n >? k)%Z eqn:E; [| reflexivity].
    rewrite Z.gtb_ltb in E. apply Z.ltb_lt in E. lia.
  - intros Hlt.
    destruct (cap_sections_runs sections k Hk Hlt) as (Hg & Hkg & Heq).
    fold n in Hg, Hkg, Heq.
    exists (map (run_at (n / Z.to_nat k) sections) (seq 0 (Z.to_nat k))).
    split; [| split; [| split]].
    + rewrite Heq, map_map. reflexivity.
    + now rewrite length_map, length_seq.
    + apply Forall_map, Forall_forall. intros i Hi. apply in_seq in Hi.
      apply (run_at_full _ _ (Z.to_nat k)); [exact Hkg | lia].
    + rewrite concat_runs by exact Hkg. f_equal.
      pose proof (Nat.div_mod_eq n (Z.to_nat k)). lia.
Qed.

Lemma capping_drops_the_remainder_witness :
  let sections := [sec_of "A" "a"; sec_of "B" "b"; sec_of "C" "c"] in
  ((3 <= 2)%Z -> cap_sections sections 2 = Ok sections) /\
  ((2 < 3)%Z ->
   exists runs,
     cap_sections sections 2 = Ok (map merge_bucket runs) /\
     length runs = 2 /\
     Forall (fun run => length run = 1) runs /\
     concat runs = [sec_of "A" "a"; sec_of "B" "b"]).
Proof.
  cbv zeta.
  apply (capping_drops_the_remainder [sec_of "A" "a"; sec_of "B" "b"; sec_of "C" "c"] 2).
  lia.
Defined.

(* ================================================================== *)
(** * Properties of the LLM adapter *)
(* ================================================================== *)

(** ** The fuel of the JSON scanner *)

Lemma length_dropwhile {A} (p : A -> bool) (l : list A) :
  length (dropwhile p l) <= length l.
Proof.
  induction l as [|a l IH]; simpl; [lia|]. destruct (p a); simpl; lia.
Qed.

Lemma length_skip_ws (s : pystr) : length (skip_ws s) <= length s.
Proof. apply length_dropwhile. Qed.

(** Every value the scanner reads takes at least one character. *)
Lemma scanstring_from_shorter (s : pystr) :
  forall skip acc str r,
    scanstring_from skip acc s = Some (str, r) -> length r < length s.
Proof.
  induction s as [|c s IH]; intros skip acc str r; simpl; [discriminate|].
  destruct skip as [|k].
  - destruct (N.eqb c 34).
    + intros [= _ <-]. lia.
    + destruct (N.eqb c 92).
      * destruct (escape s) as [[ch n]|]; [|discriminate].
        intros H. apply IH in H. lia.
      * destruct (c <=? 31)%N; [discriminate|].
        intros H. apply IH in H. lia.
  - intros H. apply IH in H. lia.
Qed.

Lemma match_number_shorter (s : pystr) (x : result json) (r : pystr) :
  match_number s = Some (x, r) -> length r < length s.
Proof.
  unfold match_number.
  set (cut := match s with 45%N :: r0 => (true, r0) | _ => (false, s) end).
  assert (Hcut : length (snd cut) <= length s).
  { unfold cut. destruct s as [|c s0]; simpl; [lia|].
    destruct c as [|p]; simpl; try lia.
    do 6 (destruct p; simpl; try lia). }
  destruct cut as [neg s1]. simpl in Hcut.
  destruct s1 as [|d r1]; [discriminate|].
  destruct (is_digit d); [|discriminate].
  set (int_digits := if N.eqb d 48 then [d] else d :: takewhile is_digit r1).
  assert (Hint : 1 <= length int_digits).
  { unfold int_digits. destruct (N.eqb d 48); simpl; lia. }
  cbv zeta.
  assert (Hlen : forall a b : nat,
            length (skipn a (skipn b (skipn (length int_digits) (d :: r1))))
            < length s).
  { intros a b. rewrite !length_skipn. clearbody int_digits.
    change (length (d :: r1)) with (S (length r1)) in *. lia. }
  destruct (_ || _); [intros [= _ <-]; apply Hlen|].
  destruct (INT_MAX_STR_DIGITS <? length int_digits);
    intros [= _ <-]; apply Hlen.
Qed.

Section ScanFuel.

(** Two scanners of values, the second giving the settled outcomes of the
    first on the texts no longer than [bound]. *)
Variables scanA scanB : pystr -> result (json * pystr).
Variable bound : nat.

Hypothesis scanA_shorter :
  forall t v r, scanA t = Ok (v, r) -> length r < length t.
Hypothesis scanB_extends :
  forall t x, length t <= bound -> scanA t = x -> settled x -> scanB t = x.

Lemma array_items_shorter (f : nat) :
  forall s vs r, array_items scanA f s = Ok (vs, r) -> length r < length s.
Proof.
  induction f as [|f IH]; intros s vs r; simpl; [discriminate|].
  destruct (scanA s) as [[v r1]|e] eqn:Hv; [|discriminate].
  apply scanA_shorter in Hv. pose proof (length_skip_ws r1) as Hws.
  destruct (skip_ws r1) as [|c r2]; [discriminate|]. simpl in Hws.
  destruct (N.eqb c 93); [intros [= _ <-]; lia|].
  destruct (N.eqb c 44); [|discriminate].
  destruct (array_items scanA f (skip_ws r2)) as [[vs' r3]|e] eqn:Hrest;
    [|discriminate].
  intros [= _ <-]. apply IH in Hrest. pose proof (length_skip_ws r2). lia.
Qed.

Lemma array_items_enough (f : nat) :
  forall s x g,
    array_items scanA f s = x -> settled x ->
    length s <= bound -> length s < g ->
    array_items scanB g s = x.
Proof.
  induction f as [|f IH]; intros s x g; simpl;
    [intros <- Hx; now destruct Hx|].
  intros H Hx Hb Hg. destruct g as [|g]; [lia|]. simpl.
  destruct (scanA s) as [[v r1]|e] eqn:Hv.
  - rewrite (scanB_extends s _ Hb Hv) by discriminate.
    apply scanA_shorter in Hv. pose proof (length_skip_ws r1) as Hws.
    destruct (skip_ws r1) as [|c r2]; [exact H|]. simpl in Hws.
    destruct (N.eqb c 93); [exact H|].
    destruct (N.eqb c 44); [|exact H].
    pose proof (length_skip_ws r2).
    destruct (array_items scanA f (skip_ws r2)) as [[vs' r3]|e] eqn:Hrest.
    + rewrite (IH _ _ g Hrest) by (try discriminate; lia). exact H.
    + rewrite (IH _ _ g Hrest); [exact H | | lia | lia].
      intros E. apply Hx. rewrite <- H. injection E as ->. reflexivity.
  - rewrite (scanB_extends s _ Hb Hv); [exact H|].
    intros E. apply Hx. rewrite <- H. injection E as ->. reflexivity.
Qed.

Lemma object_pairs_shorter (f : nat) :
  forall s ps r, object_pairs scanA f s = Ok (ps, r) -> length r < length s.
Proof.
  induction f as [|f IH]; intros s ps r; simpl; [discriminate|].
  destruct (scanstring s) as [[key r0]|] eqn:Hkey; [|discriminate].
  apply scanstring_from_shorter in Hkey.
  pose proof (length_skip_ws r0) as Hws0.
  destruct (skip_ws r0) as [|c r1]; [discriminate|]. simpl in Hws0.
  destruct (N.eqb c 58); [|discriminate].
  pose proof (length_skip_ws r1) as Hws1.
  destruct (scanA (skip_ws r1)) as [[v r2]|e] eqn:Hv; [|discriminate].
  apply scanA_shorter in Hv.
  pose proof (length_skip_ws r2) as Hws2.
  destruct (skip_ws r2) as [|d r3]; [discriminate|]. simpl in Hws2.
  destruct (N.eqb d 125); [intros [= _ <-]; lia|].
  destruct (N.eqb d 44); [|discriminate].
  pose proof (length_skip_ws r3) as Hws3.
  destruct (skip_ws r3) as [|q r4]; [discriminate|]. simpl in Hws3.
  destruct (N.eqb q 34); [|discriminate].
  destruct (object_pairs scanA f r4) as [[ps' r5]|e] eqn:Hrest; [|discriminate].
  intros [= _ <-]. apply IH in Hrest. lia.
Qed.

Lemma object_pairs_enough (f : nat) :
  forall s x g,
    object_pairs scanA f s = x -> settled x ->
    length s <= bound -> length s < g ->
    object_pairs scanB g s = x.
Proof.
  induction f as [|f IH]; intros s x g; simpl;
    [intros <- Hx; now destruct Hx|].
  intros H Hx Hb Hg. destruct g as [|g]; [lia|]. simpl.
  destruct (scanstring s) as [[key r0]|] eqn:Hkey; [|exact H].
  apply scanstring_from_shorter in Hkey.
  pose proof (length_skip_ws r0) as Hws0.
  destruct (skip_ws r0) as [|c r1]; [exact H|]. simpl in Hws0.
  destruct (N.eqb c 58); [|exact H].
  pose proof (length_skip_ws r1) as Hws1.
  assert (Hlen1 : length (skip_ws r1) <= bound) by lia.
  destruct (scanA (skip_ws r1)) as [[v r2]|e] eqn:Hv.
  - rewrite (scanB_extends _ _ Hlen1 Hv) by discriminate.
    apply scanA_shorter in Hv.
    pose proof (length_skip_ws r2) as Hws2.
    destruct (skip_ws r2) as [|d r3]; [exact H|]. simpl in Hws2.
    destruct (N.eqb d 125); [exact H|].
    destruct (N.eqb d 44); [|exact H].
    pose proof (length_skip_ws r3) as Hws3.
    destruct (skip_ws r3) as [|q r4]; [exact H|]. simpl in Hws3.
    destruct (N.eqb q 34); [|exact H].
    destruct (object_pairs scanA f r4) as [[ps' r5]|e] eqn:Hrest.
    + rewrite (IH _ _ g Hrest) by (try discriminate; lia). exact H.
    + rewrite (IH _ _ g Hrest); [exact H | | lia | lia].
      intros E. apply Hx. rewrite <- H. injection E as ->. reflexivity.
  - rewrite (scanB_extends _ _ Hlen1 Hv); [exact H|].
    intros E. apply Hx. rewrite <- H. injection E as ->. reflexivity.
Qed.

End ScanFuel.

Lemma length_skipn_lt {A} (n : nat) (l : list A) :
  1 <= n -> l <> [] -> length (skipn n l) < length l.
Proof.
  intros Hn Hl. rewrite length_skipn.
  destruct l as [|a l]; [congruence|].
  change (length (a :: l)) with (S (length l)). lia.
Qed.

Lemma scan_once_shorter (f : nat) :
  forall d s v r, scan_once f d s = Ok (v, r) -> length r < length s.
Proof.
  induction f as [|f IH]; intros d s v r; [discriminate|].
  destruct s as [|c s0]; [discriminate|].
  cbn [scan_once].
  destruct (N.eqb c 34).
  { destruct (scanstring s0) as [[str r']|] eqn:E; [|discriminate].
    intros [= _ <-]. apply scanstring_from_shorter in E. simpl. lia. }
  destruct (N.eqb c 123).
  { destruct d as [|d]; [discriminate|].
    pose proof (length_skip_ws s0) as Hws.
    destruct (skip_ws s0) as [|q r']; [discriminate|]. simpl in Hws.
    destruct (N.eqb q 125); [intros [= _ <-]; simpl; lia|].
    destruct (N.eqb q 34); [|discriminate].
    destruct (object_pairs (scan_once f d) f r') as [[ps r'']|e] eqn:E;
      [|discriminate].
    intros [= _ <-]. apply (object_pairs_shorter _ (IH d)) in E. simpl. lia. }
  destruct (N.eqb c 91).
  { destruct d as [|d]; [discriminate|].
    pose proof (length_skip_ws s0) as Hws.
    destruct (skip_ws s0) as [|q r']; [discriminate|]. simpl in Hws.
    destruct (N.eqb q 93); [intros [= _ <-]; simpl; lia|].
    destruct (array_items (scan_once f d) f (q :: r')) as [[vs r'']|e] eqn:E;
      [|discriminate].
    intros [= _ <-]. apply (array_items_shorter _ (IH d)) in E. simpl in *. lia. }
  destruct (startswith (c :: s0) (py "null"));
    [intros [= _ <-]; apply (length_skipn_lt 4 (c :: s0)); [lia | discriminate]|].
  destruct (startswith (c :: s0) (py "true"));
    [intros [= _ <-]; apply (length_skipn_lt 4 (c :: s0)); [lia | discriminate]|].
  destruct (startswith (c :: s0) (py "false"));
    [intros [= _ <-]; apply (length_skipn_lt 5 (c :: s0)); [lia | discriminate]|].
  destruct (match_number (c :: s0)) as [[[v'|e'] r']|] eqn:E.
  { intros [= _ <-]. exact (match_number_shorter _ _ _ E). }
  { discriminate. }
  destruct (startswith (c :: s0) (py "NaN"));
    [intros [= _ <-]; apply (length_skipn_lt 3 (c :: s0)); [lia | discriminate]|].
  destruct (startswith (c :: s0) (py "Infinity"));
    [intros [= _ <-]; apply (length_skipn_lt 8 (c :: s0)); [lia | discriminate]|].
  destruct (startswith (c :: s0) (py "-Infinity"));
    [intros [= _ <-]; apply (length_skipn_lt 9 (c :: s0)); [lia | discriminate]|].
  discriminate.
Qed.

(** What the scanner settles on with some fuel, it settles on with any fuel
    above the length of the text. *)
Lemma scan_once_enough (f : nat) :
  forall d s x g,
    scan_once f d s = x -> settled x -> length s < g -> scan_once g d s = x.
Proof.
  induction f as [|f IH]; intros d s x g;
    [intros <- Hx; now destruct Hx|].
  intros H Hx Hg. destruct g as [|g]; [lia|].
  destruct s as [|c s0]; [exact H|].
  cbn [scan_once] in *. simpl length in Hg.
  assert (Hext : forall d' t y, length t <= length s0 ->
                                scan_once f d' t = y -> settled y ->
                                scan_once g d' t = y).
  { intros d' t y Ht Hy Hs. apply (IH d' t y g Hy Hs). lia. }
  destruct (N.eqb c 34); [exact H|].
  destruct (N.eqb c 123).
  { destruct d as [|d]; [exact H|].
    pose proof (length_skip_ws s0) as Hws.
    destruct (skip_ws s0) as [|q r']; [exact H|]. simpl in Hws.
    destruct (N.eqb q 125); [exact H|].
    destruct (N.eqb q 34); [|exact H].
    destruct (object_pairs (scan_once f d) f r') as [[ps r'']|e] eqn:E.
    - rewrite (object_pairs_enough (scan_once f d) (scan_once g d) (length s0)
                 (scan_once_shorter f d) (Hext d) f r' _ g E)
        by (try discriminate; lia).
      exact H.
    - rewrite (object_pairs_enough (scan_once f d) (scan_once g d) (length s0)
                 (scan_once_shorter f d) (Hext d) f r' _ g E);
        [exact H | | lia | lia].
      intros E'. apply Hx. rewrite <- H. injection E' as ->. reflexivity. }
  destruct (N.eqb c 91).
  { destruct d as [|d]; [exact H|].
    pose proof (length_skip_ws s0) as Hws.
    destruct (skip_ws s0) as [|q r']; [exact H|].
    destruct (N.eqb q 93); [exact H|].
    destruct (array_items (scan_once f d) f (q :: r')) as [[vs r'']|e] eqn:E.
    - rewrite (array_items_enough (scan_once f d) (scan_once g d) (length s0)
                 (scan_once_shorter f d) (Hext d) f (q :: r') _ g E)
        by (try discriminate; simpl in *; lia).
      exact H.
    - rewrite (array_items_enough (scan_once f d) (scan_once g d) (length s0)
                 (scan_once_shorter f d) (Hext d) f (q :: r') _ g E);
        [exact H | | simpl in *; lia | simpl in *; lia].
      intros E'. apply Hx. rewrite <- H. injection E' as ->. reflexivity. }
  exact H.
Qed.

(** The fuel [json_loads] gives the scanner is enough: what the scanner
    settles on with any fuel is what [json_loads] goes on with. *)
Lemma json_loads_fuel_is_enough (s : pystr) (f : nat) (v : json) (r : pystr) :
  hd_error s <> Some 65279%N ->
  scan_once f scanner_depth (skip_ws s) = Ok (v, r) ->
  skip_ws r = [] ->
  json_loads s = Ok v.
Proof.
  intros Hbom Hscan Hrest. unfold json_loads.
  assert (Hfull : scan_once (S (length s)) scanner_depth (skip_ws s) = Ok (v, r)).
  { apply (scan_once_enough f _ _ _ _ Hscan); [discriminate|].
    pose proof (length_skip_ws s). lia. }
  rewrite Hfull, Hrest.
  destruct s as [|c s0]; [reflexivity|].
  destruct c as [|p]; [reflexivity|].
  destruct (Pos.eq_dec p 65279) as [->|Hp]; [simpl in Hbom; congruence|].
  clear -Hp.
  do 16 (destruct p as [p|p|]; try reflexivity); congruence.
Qed.

(** The same for what the scanner raises, the decode error apart. *)
Lemma json_loads_raises_what_the_scanner_raises (s : pystr) (f : nat) (e : exn) :
  hd_error s <> Some 65279%N ->
  scan_once f scanner_depth (skip_ws s) = Raise e ->
  e <> JSONDecodeError ->
  json_loads s = Raise e.
Proof.
  intros Hbom Hscan He. unfold json_loads.
  assert (Hfull : scan_once (S (length s)) scanner_depth (skip_ws s) = Raise e).
  { apply (scan_once_enough f _ _ _ _ Hscan); [intros [= E]; now apply He|].
    pose proof (length_skip_ws s). lia. }
  rewrite Hfull.
  destruct s as [|c s0]; [reflexivity|].
  destruct c as [|p]; [reflexivity|].
  destruct (Pos.eq_dec p 65279) as [->|Hp]; [simpl in Hbom; congruence|].
  clear -Hp.
  do 16 (destruct p as [p|p|]; try reflexivity); congruence.
Qed.

(** ** What [json.loads] raises besides the decode error *)

(** An integer of 4300 digits is read; one of 4301 digits makes [int]
    raise [ValueError], also inside an array. *)
Example json_loads_long_integer :
  (exists z, json_loads (repeat 49%N 4300) = Ok (JInt z)) /\
  json_loads (repeat 49%N 4301) = Raise (int_too_long 4301) /\
  json_loads (91%N :: 45%N :: repeat 49%N 4301 ++ [93%N])
  = Raise (int_too_long 4301).
Proof.
  split; [eexists; vm_compute; reflexivity|].
  split; vm_compute; reflexivity.
Qed.

(** Arrays nested 995 deep are read; nested 996 deep, closed or not, they
    raise [RecursionError], and so do objects. *)
Example json_loads_deep_nesting :
  json_loads (repeat 91%N 995 ++ repeat 93%N 995) <> Raise RecursionError /\
  json_loads (repeat 91%N 996 ++ repeat 93%N 996) = Raise RecursionError /\
  json_loads (repeat 91%N 996) = Raise RecursionError /\
  json_loads (concat (repeat (pyq "{'a':") 996) ++ py "1" ++ repeat 125%N 996)
  = Raise RecursionError.
Proof.
  split; [|split; [|split]]; vm_compute; try reflexivity.
  discriminate.
Qed.

(** ** Response parsing *)

(** What [bracket_search] finds is a part of the text that starts at its
    first opening bracket and ends at its last closing bracket. *)
Lemma bracket_search_span (s group1 : pystr) :
  bracket_search s = Some group1 ->
  exists before inside after,
    s = before ++ group1 ++ after /\
    group1 = 91%N :: inside ++ [93%N] /\
    forallb (fun c => negb (N.eqb c 91)) before = true /\
    forallb (fun c => negb (N.eqb c 93)) after = true.
Proof.
  unfold bracket_search.
  pose proof (takewhile_dropwhile (fun c => negb (N.eqb c 91)) s) as Hs.
  destruct (dropwhile (fun c => negb (N.eqb c 91)) s) as [|open rest] eqn:Hopen;
    [discriminate|].
  pose proof (dropwhile_head _ _ _ _ Hopen) as Ho.
  apply negb_false_iff, N.eqb_eq in Ho. subst open.
  pose proof (takewhile_dropwhile (fun c => negb (N.eqb c 93)) (rev rest)) as Hr.
  destruct (dropwhile (fun c => negb (N.eqb c 93)) (rev rest)) as [|close mid] eqn:Hclose;
    [discriminate|].
  pose proof (dropwhile_head _ _ _ _ Hclose) as Hc.
  apply negb_false_iff, N.eqb_eq in Hc. subst close.
  simpl rev.
  destruct (rev mid ++ [93%N]) eqn:E; [destruct (rev mid); discriminate|].
  intros [= <-]. rewrite <- E.
  exists (takewhile (fun c => negb (N.eqb c 91)) s), (rev mid),
         (rev (takewhile (fun c => negb (N.eqb c 93)) (rev rest))).
  split; [|split; [reflexivity | split]].
  - rewrite <- Hs at 1. f_equal. simpl. f_equal.
    apply (f_equal (@rev N)) in Hr.
    rewrite rev_involutive, rev_app_distr in Hr. simpl in Hr.
    symmetry. exact Hr.
  - clear. induction s as [|c s IH]; simpl; [reflexivity|].
    destruct (negb (N.eqb c 91)) eqn:E; simpl; [now rewrite E | reflexivity].
  - rewrite forallb_forall. intros x Hx. apply in_rev in Hx.
    revert Hx. clear. generalize (rev rest) as l.
    induction l as [|c l IH]; simpl; [tauto|].
    destruct (negb (N.eqb c 93)) eqn:E; simpl; [|tauto].
    intros [<-|H]; [exact E | now apply IH].
Qed.


(** ** Provider dispatch *)

(** The name [Google] is none of the three providers' names, whatever the
    case, and holds none of them; and yet the adapter makes a call, to
    Gemini, and raises nothing. *)
Lemma google_is_dispatched_to_gemini :
  let cfg := {| name := py "Google"; api_key := py "key"; model := None |} in
  (forall p, ~ same_name_ignoring_case (name cfg) (provider_name p)) /\
  (forall p, contains (lower (name cfg)) (lower (provider_name p)) = false) /\
  exists c,
    make_outline_with_llm (canned (py "[]")) (py "text") None cfg 12 []
    = (Ok (JArr []), [c]) /\
    call_provider c = Gemini.
Proof.
  cbv zeta. split; [|split].
  - intros [] H; vm_compute in H; discriminate.
  - intros []; reflexivity.
  - eexists. split; vm_compute; reflexivity.
Qed.

(** C8 (amended).  The adapter looks for the words [openai], [anthropic],
    [gemini] and [google] inside the lower-cased provider name.  When none
    occurs it raises the provider error and makes no call.  When one occurs
    it makes exactly one call, to OpenAI if [openai] occurs, else to
    Anthropic if [anthropic] occurs, else to Gemini; in particular a name
    that is a provider's name up to case goes to that provider. *)
Theorem dispatch_by_keyword_in_name
    (net : network) (text : pystr) (guidance : option pystr)
    (cfg : ProviderConfig) (k : Z) (log : list net_call) :
  let lname := lower (name cfg) in
  let run := make_outline_with_llm net text guidance cfg k log in
  let has kw := contains lname kw in
  (has (py "openai") = false -> has (py "anthropic") = false ->
   has (py "gemini") = false -> has (py "google") = false ->
   run = (Raise unsupported_provider, log)) /\
  (has (py "openai") || has (py "anthropic") || has (py "gemini") || has (py "google") = true ->
   exists c,
     snd run = log ++ [c] /\
     call_provider c
     = (if has (py "openai") then OpenAI
        else if has (py "anthropic") then Anthropic else Gemini) /\
     call_api_key c = api_key cfg /\
     call_prompt c = _prompt_outline text guidance k) /\
  (forall p,
     same_name_ignoring_case (name cfg) (provider_name p) ->
     exists c, snd run = log ++ [c] /\ call_provider c = p).
Proof.
  cbv zeta.
  assert (Hcalls :
    contains (lower (name cfg)) (py "openai")
    || contains (lower (name cfg)) (py "anthropic")
    || contains (lower (name cfg)) (py "gemini")
    || contains (lower (name cfg)) (py "google") = true ->
    exists c,
      snd (make_outline_with_llm net text guidance cfg k log) = log ++ [c] /\
      call_provider c
      = (if contains (lower (name cfg)) (py "openai") then OpenAI
         else if contains (lower (name cfg)) (py "anthropic") then Anthropic
              else Gemini) /\
      call_api_key c = api_key cfg /\
      call_prompt c = _prompt_outline text guidance k).
  { unfold make_outline_with_llm.
    destruct (contains (lower (name cfg)) (py "openai")) eqn:Ho.
    - intros _. eexists. unfold bind, round_trip, lift.
      destruct (openai_create net _ _); simpl; repeat split; reflexivity.
    - destruct (contains (lower (name cfg)) (py "anthropic")) eqn:Ha.
      + intros _. eexists. unfold bind, round_trip, lift.
        destruct (anthropic_create net _ _); simpl; repeat split; reflexivity.
      + simpl. intros Hg. rewrite Hg. eexists. unfold bind, round_trip, lift.
        destruct (gemini_generate net _ _); simpl; repeat split; reflexivity. }
  split; [|split].
  - intros Ho Ha Hg Hgo. unfold make_outline_with_llm.
    now rewrite Ho, Ha, Hg, Hgo.
  - exact Hcalls.
  - intros p Hp. unfold same_name_ignoring_case in Hp.
    destruct Hcalls as (c & Hlog & Hprov & _).
    + rewrite Hp. destruct p; reflexivity.
    + exists c. split; [exact Hlog|]. rewrite Hprov, Hp.
      destruct p; reflexivity.
Qed.

(** ** No validation of the shape *)

(** C10.  Whatever the provider, a response that is valid JSON comes back
    as it was parsed, with no check of its shape: a JSON object and an array
    of strings, neither of them an outline, are returned and nothing is
    raised. *)
Theorem parsed_response_is_not_validated
    (p : provider) (text : pystr) (guidance : option pystr) (k : Z)
    (log : list net_call) :
  let cfg := {| name := provider_name p; api_key := py "key"; model := None |} in
  let object := JObj [(py "a", JInt 1)] in
  let strings := JArr [JStr (py "x"); JStr (py "y")] in
  fst (make_outline_with_llm (canned (pyq "{'a': 1}")) text guidance cfg k log)
  = Ok object /\
  fst (make_outline_with_llm (canned (pyq "['x', 'y']")) text guidance cfg k log)
  = Ok strings /\
  as_outline object = None /\
  as_outline strings = None.
Proof.
  cbv zeta. destruct p; repeat split; reflexivity.
Qed.

(** ** What the prompt reads of the text *)

(** The adapter reads the text through its first 15000 characters only,
    and a missing or empty guidance as the default sentence: two runs whose
    texts agree up to there, and whose guidances agree once defaulted, make
    the same call and return the same result. *)
Theorem adapter_reads_first_15000
    (net : network) (t1 t2 : pystr) (g1 g2 : option pystr)
    (cfg : ProviderConfig) (k : Z) (log : list net_call) :
  slice_to 15000 t1 = slice_to 15000 t2 ->
  str_or g1 (py "Create a concise professional slide deck.")
  = str_or g2 (py "Create a concise professional slide deck.") ->
  make_outline_with_llm net t1 g1 cfg k log
  = make_outline_with_llm net t2 g2 cfg k log.
Proof.
  intros Ht Hg. unfold make_outline_with_llm.
  assert (E : _prompt_outline t1 g1 k = _prompt_outline t2 g2 k).
  { unfold _prompt_outline. now rewrite Ht, Hg. }
  now rewrite E.
Qed.

Lemma adapter_reads_first_15000_witness :
  let long := repeat 120%N (Z.to_nat 15000) in
  let cfg := {| name := py "OpenAI"; api_key := py "k"; model := None |} in
  make_outline_with_llm (canned (py "[]")) (long ++ py "tail") None cfg 3 []
  = make_outline_with_llm (canned (py "[]")) long (Some []) cfg 3 [].
Proof.
  cbv zeta. apply adapter_reads_first_15000.
  - vm_compute. reflexivity.
  - reflexivity.
Defined.

(** ** The answer and the result *)

(** When the adapter makes a call, the answer to that call decides its
    result: what the provider's client raises reaches the caller as it is
    (no retry, nothing swallowed), and a text answered is parsed by
    [_safe_parse_json].  The call asks for the configured model, or for the
    provider's default model when none is configured. *)
Theorem answer_decides_the_result
    (net : network) (text : pystr) (guidance : option pystr)
    (cfg : ProviderConfig) (k : Z) (log : list net_call) (c : net_call) :
  let run := make_outline_with_llm net text guidance cfg k log in
  snd run = log ++ [c] ->
  call_model c = str_or (model cfg) (default_model (call_provider c)) /\
  fst run = match client_answer net (length log) c with
            | Ok content => _safe_parse_json content
            | Raise e => Raise e
            end.
Proof.
  cbv zeta. unfold make_outline_with_llm, client_answer.
  destruct (contains (lower (name cfg)) (py "openai")).
  { unfold bind, round_trip, lift.
    destruct (openai_create net (length log) _) eqn:E; cbn [snd fst];
      intros H; apply app_inv_head in H; injection H as <-;
      cbn [call_provider call_model]; rewrite E; split; reflexivity. }
  destruct (contains (lower (name cfg)) (py "anthropic")).
  { unfold bind, round_trip, lift.
    destruct (anthropic_create net (length log) _) eqn:E; cbn [snd fst];
      intros H; apply app_inv_head in H; injection H as <-;
      cbn [call_provider call_model]; rewrite E; split; reflexivity. }
  destruct (contains (lower (name cfg)) (py "gemini")
            || contains (lower (name cfg)) (py "google")).
  { unfold bind, round_trip, lift.
    destruct (gemini_generate net (length log) _) eqn:E; cbn [snd fst];
      intros H; apply app_inv_head in H; injection H as <-;
      cbn [call_provider call_model]; rewrite E; split; reflexivity. }
  unfold raise. cbn [snd]. intros H.
  apply (f_equal (@Datatypes.length net_call)) in H.
  rewrite length_app in H. simpl in H. lia.
Qed.

Lemma answer_decides_the_result_witness :
  let down := {| openai_create := fun _ _ => Raise (ProviderFailure (py "503"));
                 anthropic_create := fun _ _ => Ok [];
                 gemini_generate := fun _ _ => Ok [] |} in
  let cfg := {| name := py "OpenAI"; api_key := py "k"; model := None |} in
  let c := {| call_provider := OpenAI; call_api_key := py "k";
              call_model := py "gpt-4o-mini";
              call_prompt := _prompt_outline (py "text") None 3 |} in
  call_model c = py "gpt-4o-mini" /\
  fst (make_outline_with_llm down (py "text") None cfg 3 [])
  = Raise (ProviderFailure (py "503")).
Proof.
  cbv zeta.
  apply (answer_decides_the_result
           {| openai_create := fun _ _ => Raise (ProviderFailure (py "503"));
              anthropic_create := fun _ _ => Ok [];
              gemini_generate := fun _ _ => Ok [] |}
           (py "text") None
           {| name := py "OpenAI"; api_key := py "k"; model := None |} 3 []
           {| call_provider := OpenAI; call_api_key := py "k";
              call_model := py "gpt-4o-mini";
              call_prompt := _prompt_outline (py "text") None 3 |}).
  reflexivity.
Defined.

(** ** An array inside prose *)

(** The search finds the bracketed part whenever there is one: from the
    first opening bracket to the last closing bracket. *)
Lemma bracket_search_found (before inside after : pystr) :
  no_char 91 before -> no_char 93 after ->
  bracket_search (before ++ 91%N :: inside ++ 93%N :: after)
  = Some (91%N :: inside ++ [93%N]).
Proof.
  intros Hb Ha. unfold bracket_search.
  rewrite (dropwhile_all _ before _ Hb). cbn [dropwhile N.eqb Pos.eqb negb].
  rewrite rev_app_distr. cbn [rev]. rewrite <- app_assoc. cbn [app].
  assert (Hr : forallb (fun c => negb (N.eqb c 93)) (rev after) = true).
  { unfold no_char in Ha. rewrite forallb_forall in *. intros x Hx.
    apply Ha. now apply in_rev. }
  rewrite (dropwhile_all _ (rev after) _ Hr). cbn [dropwhile N.eqb Pos.eqb negb].
  cbn [rev]. rewrite rev_involutive.
  destruct (inside ++ [93%N]) eqn:E; [destruct inside; discriminate | reflexivity].
Qed.

(** A response that wraps an array in prose (no opening bracket before it,
    no closing bracket after it): when the whole response is JSON, its value
    is returned; when the parse of the whole stops on a decode error, the
    result is that of parsing the array alone, the prose on both sides being
    dropped; any other exception of the first parse (an integer literal of
    more than 4300 digits, nesting beyond the recursion limit) leaves the
    function as it is. *)
Theorem wrapped_array_is_recovered (before inside after : pystr) :
  no_char 91 before -> no_char 93 after ->
  let array := 91%N :: inside ++ [93%N] in
  _safe_parse_json (before ++ array ++ after)
  = match json_loads (before ++ array ++ after) with
    | Ok v => Ok v
    | Raise JSONDecodeError => json_loads array
    | Raise e => Raise e
    end.
Proof.
  intros Hb Ha array. unfold _safe_parse_json.
  destruct (json_loads (before ++ array ++ after)) as [v|e] eqn:E; [reflexivity|].
  destruct e; try reflexivity.
  unfold array. cbn [app]. rewrite <- app_assoc. cbn [app].
  now rewrite (bracket_search_found before inside after Hb Ha).
Qed.

Lemma wrapped_array_is_recovered_witness :
  let before := py "Sure! " in
  let inside := pyq "{'title':'A','bullets':[]}" in
  let after := py " Done." in
  let array := 91%N :: inside ++ [93%N] in
  (no_char 91 before /\ no_char 93 after) /\
  _safe_parse_json (before ++ array ++ after)
  = match json_loads (before ++ array ++ after) with
    | Ok v => Ok v
    | Raise JSONDecodeError => json_loads array
    | Raise e => Raise e
    end /\
  _safe_parse_json (before ++ array ++ after)
  = Ok (JArr [JObj [(py "title", JStr (py "A")); (py "bullets", JArr [])]]).
Proof.
  cbv zeta. split; [split; reflexivity|]. split.
  - apply (wrapped_array_is_recovered (py "Sure! ")
             (pyq "{'title':'A','bullets':[]}") (py " Done.")); reflexivity.
  - vm_compute. reflexivity.
Defined.

(** ** The exceptions that are not caught *)

(** Only a decode error sends [_safe_parse_json] to the search: any other
    exception of the parse of the whole response leaves the function as
    it is, even where the response holds an array that parses. *)
Theorem only_decode_errors_are_retried (s : pystr) (e : exn) :
  json_loads s = Raise e -> e <> JSONDecodeError -> _safe_parse_json s = Raise e.
Proof.
  intros H He. unfold _safe_parse_json. rewrite H.
  destruct e; try reflexivity. congruence.
Qed.

(** An integer of 4301 digits before an array: the array alone parses, and
    the function raises what [int] raised. *)
Lemma only_decode_errors_are_retried_witness :
  let s := repeat 49%N 4301 ++ py " [1]" in
  (json_loads s = Raise (int_too_long 4301) /\
   int_too_long 4301 <> JSONDecodeError) /\
  bracket_search s = Some (py "[1]") /\
  json_loads (py "[1]") = Ok (JArr [JInt 1]) /\
  _safe_parse_json s = Raise (int_too_long 4301).
Proof.
  cbv zeta. split; [split; [vm_compute; reflexivity | discriminate]|].
  split; [vm_compute; reflexivity|]. split; [vm_compute; reflexivity|].
  apply (only_decode_errors_are_retried (repeat 49%N 4301 ++ py " [1]")
           (int_too_long 4301)); [vm_compute; reflexivity | discriminate].
Defined.

(* ================================================================== *)
(** * Properties of the deck composer *)
(* ================================================================== *)

(** ** Lists updated in place *)

Lemma update_at_last {A} (l : list A) (x : A) (f : A -> A) :
  update_at (length l) f (l ++ [x]) = l ++ [f x].
Proof. induction l as [|a l IH]; simpl; [reflexivity | now rewrite IH]. Qed.

Lemma length_update_at {A} (i : nat) (f : A -> A) (l : list A) :
  length (update_at i f l) = length l.
Proof.
  revert i. induction l as [|a l IH]; intros [|i]; simpl; auto.
Qed.

Lemma nth_update_at_same {A} (i : nat) (f : A -> A) (l : list A) (d : A) :
  i < length l -> nth i (update_at i f l) d = f (nth i l d).
Proof.
  revert i. induction l as [|a l IH]; intros [|i] H; simpl in *; try lia; auto.
  apply IH. lia.
Qed.

Lemma nth_update_at_other {A} (i j : nat) (f : A -> A) (l : list A) (d : A) :
  i <> j -> nth j (update_at i f l) d = nth j l d.
Proof.
  revert i j. induction l as [|a l IH]; intros [|i] [|j] H; simpl; auto.
  congruence.
Qed.

Lemma find_index_update_at {A} (p : A -> bool) (f : A -> A) (i : nat) (l : list A) :
  (forall x, p (f x) = p x) -> find_index p (update_at i f l) = find_index p l.
Proof.
  intros Hf. revert i. induction l as [|a l IH]; intros [|i]; simpl; auto.
  - now rewrite Hf.
  - now rewrite IH.
Qed.

Lemma find_index_Some {A} (p : A -> bool) (l : list A) (i : nat) (d : A) :
  find_index p l = Some i -> i < length l /\ p (nth i l d) = true.
Proof.
  revert i. induction l as [|a l IH]; intros i; simpl; [discriminate|].
  destruct (p a) eqn:E.
  - intros [= <-]. split; [lia | exact E].
  - destruct (find_index p l) as [j|]; [|discriminate].
    intros [= <-]. destruct (IH j eq_refl). split; [lia | assumption].
Qed.

Lemma find_index_None {A} (p : A -> bool) (l : list A) :
  find_index p l = None <-> existsb p l = false.
Proof.
  induction l as [|a l IH]; simpl; [tauto|].
  destruct (p a); simpl; [split; discriminate|].
  destruct (find_index p l); [|tauto].
  split; [discriminate|]. intros H. apply IH in H. discriminate.
Qed.

(** ** Text frames *)

Lemma split_char_from_nonempty (sep : N) (s cur : pystr) :
  split_char_from sep cur s <> [].
Proof.
  revert cur. induction s as [|c s IH]; intros cur; simpl; [discriminate|].
  destruct (N.eqb c sep); [discriminate | apply IH].
Qed.

Lemma set_text_keeps (t : pystr) (ph : placeholder) :
  let ph' := match set_text t ph with Some ph' => ph' | None => ph end in
  ph_idx ph' = ph_idx ph /\ has_text_frame ph' = has_text_frame ph /\
  ((has_text_frame ph = true -> paragraphs ph <> []) ->
   has_text_frame ph' = true -> paragraphs ph' <> []).
Proof.
  unfold set_text. destruct (has_text_frame ph) eqn:E; simpl.
  - repeat split. intros _ _ H. apply map_eq_nil in H.
    exact (split_char_from_nonempty NL t [] H).
  - rewrite E. repeat split. intros _ H. discriminate.
Qed.

Lemma Forall_update_at {A} (P : A -> Prop) (f : A -> A) (i : nat) (l : list A) :
  (forall x, P x -> P (f x)) -> Forall P l -> Forall P (update_at i f l).
Proof.
  intros Hf H. revert i.
  induction H as [|a l Ha Hl IH]; intros [|i]; simpl; try constructor; auto.
Qed.

Lemma new_slide_frames_ready (l : layout) : frames_ready (new_slide l).
Proof.
  unfold frames_ready, new_slide. simpl.
  apply Forall_map, Forall_forall. intros [idx text] _. simpl.
  intros ->. discriminate.
Qed.

Lemma try_set_title_frames_ready (t : pystr) (s : slide) :
  frames_ready s -> frames_ready (try_set_title t s).
Proof.
  unfold frames_ready, try_set_title. intros H.
  destruct (title_shape s); [|exact H]. simpl.
  apply Forall_update_at; [|exact H].
  intros ph Hph. apply (set_text_keeps t ph).  exact Hph.
Qed.

Lemma titled_frames_ready (l : layout) (spec : slide_spec) :
  frames_ready (titled l spec).
Proof. apply try_set_title_frames_ready, new_slide_frames_ready. Qed.

Lemma apply_bullets_ok (frame : list paragraph) (bs : list pystr) :
  frame <> [] -> exists frame', _apply_bullets frame bs = Ok frame'.
Proof.
  intros H. unfold _apply_bullets.
  destruct bs as [|b more]; [eexists; reflexivity|].
  destruct frame; [congruence|]. simpl. eexists. reflexivity.
Qed.

Lemma body_frame_ok (s : slide) (body : nat) (bs : list pystr) :
  frames_ready s ->
  find_body s = Some body ->
  exists frame,
    _apply_bullets (paragraphs (nth body (placeholders s) no_placeholder)) bs = Ok frame.
Proof.
  intros Hready Hbody. unfold find_body in Hbody.
  destruct (find_index_Some _ _ _ no_placeholder Hbody) as [Hlt Hp].
  apply andb_prop in Hp. destruct Hp as [Htext _].
  apply apply_bullets_ok.
  unfold frames_ready in Hready. rewrite Forall_forall in Hready.
  apply Hready; [apply nth_In; exact Hlt | exact Htext].
Qed.

(** ** The loop over the outline *)

Section Loop.

Variable net : network.
Variable picture_ok : bytes -> bool.

(** Notes generation returns a text, whatever the network does. *)
Lemma gen_notes_returns (spec : slide_spec) (cfg : ProviderConfig)
    (log : list net_call) :
  exists notes log', _gen_notes net spec cfg log = (Ok notes, log').
Proof.
  unfold _gen_notes, try_except, bind.
  destruct (make_outline_with_llm net _ _ cfg 1 log) as [[outline|e] log1];
    [| eexists; eexists; reflexivity].
  destruct outline as [| | | | | [|[| | | | | |d] rest] |];
    try (eexists; eexists; reflexivity).
  destruct (join_value _); eexists; eexists; reflexivity.
Qed.

Lemma img_at_Some (imgs : list bytes) (i : nat) :
  imgs <> [] -> exists img, img_at imgs i = Some img.
Proof.
  intros H. unfold img_at. rewrite (nonempty_true _ H).
  destruct (nth_error imgs (i mod length imgs)) eqn:E; [eauto|].
  apply nth_error_None in E.
  assert (length imgs <> 0) by (destruct imgs; [congruence | discriminate]).
  pose proof (Nat.mod_upper_bound i (length imgs)). lia.
Qed.

Lemma img_idx_position (imgs : list bytes) (i : nat) :
  Z.to_nat (Z.of_nat i mod Z.of_nat (length imgs)) = i mod length imgs.
Proof. now rewrite <- Nat2Z.inj_mod, Nat2Z.id. Qed.

Lemma place_entry_spec (layout_tc layout_title_only : layout)
    (prs : Presentation) (spec : slide_spec) (log : list net_call) :
  let placed := placed_slides layout_tc layout_title_only spec in
  place_entry layout_tc layout_title_only prs spec log
  = (Ok (append_slides prs (fst placed ++ [snd placed]),
         length (slides prs ++ fst placed)),
     log).
Proof.
  unfold place_entry, placed_slides, add_slide, set_slide, get_slide.
  cbn [slides slide_layouts notes_placeholder].
  rewrite update_at_last, nth_middle.
  fold (titled layout_tc spec). fold no_placeholder.
  destruct (find_body (titled layout_tc spec)) as [body|] eqn:Hbody.
  - destruct (body_frame_ok (titled layout_tc spec) body
                (get_or (spec_bullets spec) [])
                (titled_frames_ready layout_tc spec) Hbody) as [frame Hframe].
    rewrite Hframe. unfold bind, lift, ret. cbn [fst snd].
    rewrite update_at_last, app_nil_r. reflexivity.
  - unfold ret. cbn [fst snd slides slide_layouts notes_placeholder].
    rewrite update_at_last. unfold append_slides, with_slides.
    now rewrite <- app_assoc.
Qed.

Lemma place_image_spec (imgs : list bytes) (prs : Presentation)
    (pre : list slide) (s : slide) (i : nat) (log : list net_call) :
  slides prs = pre ++ [s] ->
  place_image picture_ok imgs prs (length pre) (idx_at imgs i) log
  = (Ok (with_slides prs (pre ++ [with_image picture_ok (img_at imgs i) s]),
         idx_at imgs (S i)),
     log).
Proof.
  intros Hs. unfold place_image, idx_at, img_at.
  destruct (nonempty imgs) eqn:Hne.
  - rewrite img_idx_position.
    destruct (img_at_Some imgs i) as [img Himg];
      [intros ->; discriminate|].
    unfold img_at in Himg. rewrite Hne in Himg. rewrite Himg.
    unfold ret, set_slide, with_slides. rewrite Hs, update_at_last.
    simpl with_image. repeat f_equal. lia.
  - unfold ret, with_slides. simpl with_image. rewrite <- Hs.
    destruct prs; reflexivity.
Qed.

Lemma attach_notes_spec (cfg : option ProviderConfig) (prs : Presentation)
    (pre : list slide) (s : slide) (spec : slide_spec) (log : list net_call) :
  slides prs = pre ++ [s] ->
  exists notes log',
    attach_notes net cfg prs (length pre) spec log
    = (Ok (with_slides prs (pre ++ [with_notes notes s])), log').
Proof.
  intros Hs. unfold attach_notes.
  destruct cfg as [cfg|].
  - destruct (gen_notes_returns spec cfg log) as (notes & log' & Hnotes).
    unfold bind. rewrite Hnotes.
    destruct (notes_placeholder prs) eqn:Hph.
    + exists (Some (frame_text notes)), log'. unfold ret, set_slide, with_slides.
      rewrite Hs, update_at_last. reflexivity.
    + exists None, log'. unfold ret, with_slides. simpl with_notes.
      rewrite <- Hs. destruct prs; reflexivity.
  - exists None, log. unfold ret, with_slides. simpl with_notes.
    rewrite <- Hs. destruct prs; reflexivity.
Qed.

(** One turn of the loop appends the entry's slides to the deck and moves
    [img_idx] on by one when there are images. *)
Lemma compose_entry_appends (layout_tc layout_title_only : layout)
    (imgs : list bytes) (cfg : option ProviderConfig)
    (prs : Presentation) (i : nat) (spec : slide_spec) (log : list net_call) :
  exists notes log',
    compose_entry net picture_ok layout_tc layout_title_only imgs cfg
      (prs, idx_at imgs i) spec log
    = (Ok (append_slides prs
             (entry_slides picture_ok layout_tc layout_title_only spec
                (img_at imgs i) notes),
           idx_at imgs (S i)),
       log').
Proof.
  unfold compose_entry, entry_slides.
  set (placed := placed_slides layout_tc layout_title_only spec).
  unfold bind at 1. cbn [fst snd].
  rewrite place_entry_spec. fold placed. cbn [fst snd].
  unfold bind at 1.
  rewrite (place_image_spec imgs _ (slides prs ++ fst placed) (snd placed) i log)
    by (unfold append_slides, with_slides; simpl; now rewrite app_assoc).
  cbn [fst snd].
  destruct (attach_notes_spec cfg
              (with_slides (append_slides prs (fst placed ++ [snd placed]))
                 ((slides prs ++ fst placed)
                  ++ [with_image picture_ok (img_at imgs i) (snd placed)]))
              (slides prs ++ fst placed)
              (with_image picture_ok (img_at imgs i) (snd placed))
              spec log eq_refl) as (notes & log' & Hnotes).
  exists notes, log'. unfold bind. rewrite Hnotes. unfold ret.
  unfold append_slides, with_slides. simpl. now rewrite app_assoc.
Qed.

(** The whole loop: one group of slides per entry, appended in order. *)
Lemma for_each_groups (layout_tc layout_title_only : layout)
    (imgs : list bytes) (cfg : option ProviderConfig) (outline : list slide_spec) :
  forall (prs : Presentation) (j : nat) (log : list net_call),
  exists groups log',
    for_each (compose_entry net picture_ok layout_tc layout_title_only imgs cfg)
      outline (prs, idx_at imgs j) log
    = (Ok (append_slides prs (concat groups), idx_at imgs (j + length outline)), log') /\
    length groups = length outline /\
    forall i spec,
      nth_error outline i = Some spec ->
      exists notes,
        nth_error groups i
        = Some (entry_slides picture_ok layout_tc layout_title_only spec
                  (img_at imgs (j + i)) notes).
Proof.
  induction outline as [|spec outline IH]; intros prs j log.
  - exists [], log. split; [|split].
    + simpl. unfold ret, append_slides, with_slides.
      rewrite app_nil_r, Nat.add_0_r. destruct prs; reflexivity.
    + reflexivity.
    + intros [|i] s H; discriminate.
  - destruct (compose_entry_appends layout_tc layout_title_only imgs cfg prs j spec log)
      as (notes & log1 & Hstep).
    destruct (IH (append_slides prs
                    (entry_slides picture_ok layout_tc layout_title_only spec
                       (img_at imgs j) notes))
                 (S j) log1) as (groups & log' & Hloop & Hlen & Hnth).
    exists (entry_slides picture_ok layout_tc layout_title_only spec
              (img_at imgs j) notes :: groups), log'.
    split; [|split].
    + cbn [for_each]. unfold bind. rewrite Hstep, Hloop.
      replace (j + length (spec :: outline)) with (S j + length outline)
        by (simpl; lia).
      unfold append_slides, with_slides. cbn [slides slide_layouts notes_placeholder concat].
      now rewrite <- app_assoc.
    + simpl. now rewrite Hlen.
    + intros [|i] s H; simpl in H.
      * injection H as <-. exists notes. rewrite Nat.add_0_r. reflexivity.
      * destruct (Hnth i s H) as [notes' Hn]. exists notes'.
        replace (j + S i) with (S j + i) by lia. exact Hn.
Qed.

End Loop.

(** ** The whole build *)

Lemma make_cover_spec (prs : Presentation) (l : layout) (ls : list layout)
    (t : pystr) (subtitle : option pystr) :
  slide_layouts prs = l :: ls ->
  _make_cover_slide prs t subtitle
  = Ok (append_slides prs [cover_of l t subtitle], length (slides prs)).
Proof.
  intros Hl. unfold _make_cover_slide. rewrite Hl.
  unfold add_slide, set_slide, append_slides, with_slides, cover_of.
  cbn [slides slide_layouts notes_placeholder].
  now rewrite !update_at_last.
Qed.

Lemma layout_named_ok (p : pystr -> bool) (prs : Presentation) :
  slide_layouts prs <> [] -> exists l, layout_named p prs = Ok l.
Proof.
  intros H. unfold layout_named.
  destruct (find _ (slide_layouts prs)); [eauto|].
  destruct (slide_layouts prs); [congruence | eauto].
Qed.

Section Build.

Variable net : network.
Variable shuffle : list bytes -> list bytes.
Variable picture_ok : bytes -> bool.

(** The deck [build_presentation] returns: the template's own slides, the
    cover, and then one group of slides per entry of the outline, in
    order. *)
Lemma build_presentation_groups (text : pystr) (outline : list slide_spec)
    (tpl : template) (guidance : option pystr)
    (cfg : option ProviderConfig) (preview : bool) (log : list net_call) :
  slide_layouts (opened tpl) <> [] ->
  first_has_title outline ->
  exists first_layout layout_tc layout_title_only groups log',
    hd_error (slide_layouts (opened tpl)) = Some first_layout /\
    _title_content_layout (opened tpl) = Ok layout_tc /\
    _title_only_layout (opened tpl) = Ok layout_title_only /\
    build_presentation net shuffle picture_ok text outline tpl guidance cfg
      preview log
    = (Ok (append_slides (opened tpl)
             (cover_of first_layout (cover_title outline) (cover_subtitle guidance)
              :: concat groups),
           render_previews preview outline),
       log') /\
    length groups = length outline /\
    forall i spec,
      nth_error outline i = Some spec ->
      exists notes,
        nth_error groups i
        = Some (entry_slides picture_ok layout_tc layout_title_only spec
                  (img_at (shuffle (_collect_template_images tpl)) i) notes).
Proof.
  intros Hlayouts Htitle.
  destruct (slide_layouts (opened tpl)) as [|l ls] eqn:Hl; [congruence|].
  destruct (layout_named_ok
              (fun names => contains names (py "title")
                            && (contains names (py "content")
                                || contains names (py "text")
                                || contains names (py "body")))
              (opened tpl)) as [ltc Htc]; [congruence|].
  destruct (layout_named_ok (fun names => contains names (py "title only"))
              (opened tpl)) as [lto Hto]; [congruence|].
  set (imgs := shuffle (_collect_template_images tpl)).
  set (cover := cover_of l (cover_title outline) (cover_subtitle guidance)).
  destruct (for_each_groups net picture_ok ltc lto imgs cfg outline
              (append_slides (opened tpl) [cover]) 0 log)
    as (groups & log' & Hloop & Hlen & Hnth).
  exists l, ltc, lto, groups, log'.
  split; [reflexivity|]. split; [exact Htc|]. split; [exact Hto|].
  split; [|split; [exact Hlen | exact Hnth]].
  unfold build_presentation. fold imgs.
  assert (Hfirst :
    match outline with
    | first :: _ =>
        match spec_title first with
        | Some t => ret t
        | None => raise (KeyError (py "title"))
        end
    | [] => ret (py "Presentation")
    end log = (Ok (cover_title outline), log)).
  { destruct outline as [|first rest]; [reflexivity|].
    simpl in Htitle. simpl. destruct (spec_title first); [reflexivity | congruence]. }
  unfold bind at 1. rewrite Hfirst.
  fold (cover_subtitle guidance).
  rewrite (make_cover_spec (opened tpl) l ls _ _ Hl). fold cover.
  unfold bind at 1. unfold lift at 1. cbn [fst snd].
  unfold _title_content_layout, _title_only_layout in *.
  unfold layout_named in *. cbn [append_slides with_slides slide_layouts] in *.
  unfold bind at 1. unfold lift at 1. rewrite Htc.
  unfold bind at 1. unfold lift at 1. rewrite Hto.
  unfold bind.
  assert (Hzero : idx_at imgs 0 = 0%Z) by (unfold idx_at; destruct (nonempty imgs); reflexivity).
  rewrite Hzero in Hloop.
  rewrite Hloop. unfold ret. cbn [fst].
  unfold append_slides, with_slides. cbn [slides slide_layouts notes_placeholder].
  now rewrite <- app_assoc.
Qed.

End Build.

(** ** Reading a content slide back *)

Lemma join_cons (sep p : pystr) (rest : list pystr) :
  rest <> [] -> join sep (p :: rest) = p ++ sep ++ join sep rest.
Proof. destruct rest; [congruence | reflexivity]. Qed.

(** Splitting at a character and joining with it gives the text back. *)
Lemma join_split_char_from (sep : N) (s cur : pystr) :
  join [sep] (split_char_from sep cur s) = rev cur ++ s.
Proof.
  revert cur. induction s as [|c s IH]; intros cur; simpl split_char_from.
  - simpl. now rewrite app_nil_r.
  - destruct (N.eqb c sep) eqn:E.
    + apply N.eqb_eq in E. subst c.
      rewrite join_cons by apply split_char_from_nonempty.
      now rewrite IH.
    + rewrite IH. simpl. now rewrite <- app_assoc.
Qed.

Lemma join_split_char (sep : N) (s : pystr) : join [sep] (split_char sep s) = s.
Proof. apply (join_split_char_from sep s []). Qed.

Lemma new_slide_placeholders (l : layout) :
  placeholders (new_slide l) = map fresh_placeholder (layout_placeholders l).
Proof. reflexivity. Qed.

Lemma find_index_map {A B} (p : B -> bool) (f : A -> B) (l : list A) :
  find_index p (map f l) = find_index (fun x => p (f x)) l.
Proof.
  induction l as [|a l IH]; simpl; [reflexivity|].
  destruct (p (f a)); [reflexivity | now rewrite IH].
Qed.

Lemma find_index_find {A} (p : A -> bool) (l : list A) (x d : A) :
  find p l = Some x -> exists i, find_index p l = Some i /\ nth i l d = x.
Proof.
  induction l as [|a l IH]; simpl; [discriminate|].
  destruct (p a).
  - intros [= <-]. now exists 0.
  - intros H. destruct (IH H) as (i & Hi & Hn). exists (S i). now rewrite Hi.
Qed.

Lemma new_slide_title (l : layout) :
  has_title_placeholder l = true ->
  exists i,
    title_shape (new_slide l) = Some i /\
    i < length (placeholders (new_slide l)) /\
    has_text_frame (nth i (placeholders (new_slide l)) no_placeholder) = true.
Proof.
  unfold has_title_placeholder, title_shape. rewrite new_slide_placeholders.
  destruct (find _ (layout_placeholders l)) as [[idx text]|] eqn:Hfind;
    [|discriminate].
  intros Htext. destruct text; [|discriminate].
  destruct (find_index_find _ _ _ (0%Z, false) Hfind) as (i & Hi & Hn).
  exists i. rewrite find_index_map. split; [exact Hi|].
  destruct (find_index_Some _ _ _ (0%Z, false) Hi) as [Hlt _].
  split; [now rewrite length_map|].
  change no_placeholder with (fresh_placeholder (0%Z, false)).
  now rewrite map_nth, Hn.
Qed.

Lemma new_slide_body (l : layout) :
  has_body_placeholder l = true -> exists b, find_body (new_slide l) = Some b.
Proof.
  unfold has_body_placeholder, find_body. rewrite new_slide_placeholders.
  intros H. rewrite find_index_map. cbn [fresh_placeholder ph_idx has_text_frame].
  destruct (find_index _ (layout_placeholders l)) eqn:E; [eauto|].
  apply find_index_None in E. congruence.
Qed.

Lemma new_slide_frame (l : layout) (j : nat) :
  has_text_frame (nth j (placeholders (new_slide l)) no_placeholder) = true ->
  paragraphs (nth j (placeholders (new_slide l)) no_placeholder) = [empty_paragraph].
Proof.
  rewrite new_slide_placeholders.
  change no_placeholder with (fresh_placeholder (0%Z, false)).
  rewrite map_nth. unfold fresh_placeholder. simpl.
  now intros ->.
Qed.

Lemma apply_bullets_fresh (b : pystr) (more : list pystr) :
  _apply_bullets [empty_paragraph] (b :: more)
  = Ok (map bullet_paragraph (b :: more)).
Proof.
  unfold _apply_bullets. simpl map at 1. cbv iota. f_equal.
  assert (H : forall frame,
             fold_left (fun frame b' => frame ++ [bullet_paragraph b']) more frame
             = frame ++ map bullet_paragraph more).
  { induction more as [|b' more IH]; intros frame; simpl.
    - now rewrite app_nil_r.
    - rewrite IH, <- app_assoc. reflexivity. }
  rewrite H. reflexivity.
Qed.

Lemma map_p_text_bullets (bs : list pystr) :
  map p_text (map bullet_paragraph bs) = map paragraph_text bs.
Proof. induction bs as [|b bs IH]; simpl; [reflexivity | now rewrite IH]. Qed.

(** A plain text has nothing to escape and no line break. *)
Lemma plain_cons (c : N) (s : pystr) :
  plain (c :: s) = true ->
  (c = 9%N \/ (32 <= c)%N) /\ plain s = true.
Proof.
  unfold plain. cbn [forallb]. intros H. apply andb_prop in H.
  destruct H as [Hc Hs]. split; [|exact Hs].
  apply orb_prop in Hc. destruct Hc as [Hc | Hc].
  - left. now apply N.eqb_eq.
  - right. unfold xml_char in Hc.
    repeat (apply andb_prop in Hc; destruct Hc as [Hc _]).
    now apply N.leb_le.
Qed.

Lemma escape_plain (s : pystr) : plain s = true -> _escape_ctrl_chars s = s.
Proof.
  induction s as [|c s IH]; intros H; [reflexivity|].
  apply plain_cons in H. destruct H as [Hc Hs].
  unfold _escape_ctrl_chars in *. cbn [flat_map]. rewrite (IH Hs).
  assert (E : (c <=? 8)%N || ((11 <=? c)%N && (c <=? 31)%N) = false).
  { destruct Hc as [-> | Hc]; [reflexivity|].
    apply orb_false_iff. split; [apply N.leb_gt; lia|].
    apply andb_false_iff. right. apply N.leb_gt. lia. }
  now rewrite E.
Qed.

Lemma plain_no_break (c : N) (s : pystr) :
  plain (c :: s) = true -> N.eqb c NL || N.eqb c VT = false.
Proof.
  intros H. apply plain_cons in H. destruct H as [Hc _].
  unfold NL, VT. apply orb_false_iff.
  split; apply N.eqb_neq; destruct Hc as [-> | Hc]; lia.
Qed.

Lemma re_split_plain_from (s cur : pystr) :
  plain s = true -> re_split_from line_break_sep 0 cur s = [rev cur ++ s].
Proof.
  revert cur. induction s as [|c s IH]; intros cur H.
  - simpl. now rewrite app_nil_r.
  - cbn [re_split_from line_break_sep]. rewrite (plain_no_break c s H).
    apply plain_cons in H. rewrite (IH (c :: cur) (proj2 H)).
    simpl. now rewrite <- app_assoc.
Qed.

Lemma paragraph_text_plain (s : pystr) : plain s = true -> paragraph_text s = s.
Proof.
  intros H. unfold paragraph_text, re_split.
  rewrite (re_split_plain_from s [] H). simpl. now apply escape_plain.
Qed.

Lemma map_paragraph_text_plain (bs : list pystr) :
  Forall (fun b => plain b = true) bs -> map paragraph_text bs = bs.
Proof.
  induction 1 as [|b bs Hb _ IH]; simpl; [reflexivity|].
  now rewrite (paragraph_text_plain b Hb), IH.
Qed.

Lemma split_char_plain_from (s cur : pystr) :
  plain s = true -> split_char_from NL cur s = [rev cur ++ s].
Proof.
  revert cur. induction s as [|c s IH]; intros cur H.
  - simpl. now rewrite app_nil_r.
  - cbn [split_char_from].
    pose proof (plain_no_break c s H) as Hc. apply orb_false_iff in Hc.
    rewrite (proj1 Hc). apply plain_cons in H.
    rewrite (IH (c :: cur) (proj2 H)). simpl. now rewrite <- app_assoc.
Qed.

Lemma frame_text_plain (s : pystr) : plain s = true -> frame_text s = s.
Proof.
  intros H. unfold frame_text, frame_paragraphs, split_char.
  rewrite (split_char_plain_from s [] H). simpl.
  now apply paragraph_text_plain.
Qed.

Lemma placeholders_with_notes (notes : option pystr) (s : slide) :
  placeholders (with_notes notes s) = placeholders s.
Proof. destruct notes; reflexivity. Qed.

Lemma placeholders_with_image (picture_ok : bytes -> bool) (img : option bytes)
    (s : slide) :
  placeholders (with_image picture_ok img s) = placeholders s.
Proof.
  destruct img; [|reflexivity]. simpl. unfold _add_image_if_layout_allows.
  destruct (picture_ok b); reflexivity.
Qed.

Lemma set_text_paragraphs (t : pystr) (ph : placeholder) :
  has_text_frame ph = true ->
  get_text (match set_text t ph with Some ph' => ph' | None => ph end)
  = frame_text t.
Proof. intros H. unfold set_text, get_text. rewrite H. reflexivity. Qed.

(** On a layout with a title placeholder and a body placeholder, an entry
    with a title and at least one bullet becomes one slide, and that slide
    reads back as the entry: its title, and one paragraph per bullet. *)
Lemma content_slide_reads_back (picture_ok : bytes -> bool)
    (layout_tc layout_title_only : layout) (t b : pystr) (more : list pystr)
    (img : option bytes) (notes : option pystr) :
  has_title_placeholder layout_tc = true ->
  has_body_placeholder layout_tc = true ->
  let spec := {| spec_title := Some t; spec_bullets := Some (b :: more) |} in
  exists content,
    entry_slides picture_ok layout_tc layout_title_only spec img notes = [content] /\
    read_title content = Some (frame_text t) /\
    read_body content = Some (map paragraph_text (b :: more)).
Proof.
  intros Htitle Hbody spec.
  destruct (new_slide_title layout_tc Htitle) as (i & Hi & Hilt & Hitext).
  destruct (new_slide_body layout_tc Hbody) as (body & Hb).
  set (fresh := new_slide layout_tc) in *.
  set (setter := fun ph => match set_text t ph with Some ph' => ph' | None => ph end).
  assert (Hkeep_idx : forall ph, (ph_idx (setter ph) =? 0)%Z = (ph_idx ph =? 0)%Z).
  { intros ph. unfold setter. now rewrite (proj1 (set_text_keeps t ph)). }
  assert (Hkeep_body : forall ph,
            has_text_frame (setter ph) && negb (ph_idx (setter ph) =? 0)%Z
            = has_text_frame ph && negb (ph_idx ph =? 0)%Z).
  { intros ph. unfold setter.
    destruct (set_text_keeps t ph) as (E1 & E2 & _). now rewrite E1, E2. }
  assert (Hfirst : placeholders (titled layout_tc spec)
                   = update_at i setter (placeholders fresh)).
  { unfold titled, try_set_title. fold fresh. now rewrite Hi. }
  assert (Hfb : find_body (titled layout_tc spec) = Some body).
  { unfold find_body. rewrite Hfirst.
    rewrite (find_index_update_at _ setter i _ Hkeep_body). exact Hb. }
  destruct (find_index_Some _ _ _ no_placeholder Hb) as [Hblt Hbp].
  destruct (find_index_Some _ _ _ no_placeholder Hi) as [_ Hip].
  apply andb_prop in Hbp. destruct Hbp as [Hbtext Hbidx].
  assert (Hne : i <> body).
  { intros ->. rewrite Hip in Hbidx. discriminate. }
  assert (Hframe : paragraphs (nth body (placeholders (titled layout_tc spec))
                                 no_placeholder) = [empty_paragraph]).
  { rewrite Hfirst, nth_update_at_other by exact Hne.
    apply new_slide_frame. exact Hbtext. }
  unfold entry_slides, placed_slides. rewrite Hfb, Hframe.
  cbn [spec_bullets spec get_or]. rewrite apply_bullets_fresh.
  cbn [fst snd app].
  eexists. split; [reflexivity|].
  set (frame := map bullet_paragraph (b :: more)).
  set (fill := fun ph => {| ph_idx := ph_idx ph; has_text_frame := has_text_frame ph;
                            paragraphs := frame |}).
  assert (Hphs : placeholders
                   (with_notes notes
                      (with_image picture_ok img
                         (with_frame body frame (titled layout_tc spec))))
                 = update_at body fill (update_at i setter (placeholders fresh))).
  { rewrite placeholders_with_notes, placeholders_with_image.
    unfold with_frame. cbn [placeholders]. now rewrite Hfirst. }
  split.
  - unfold read_title, title_shape. rewrite Hphs.
    rewrite (find_index_update_at _ fill body) by reflexivity.
    rewrite (find_index_update_at _ setter i _ Hkeep_idx).
    fold (title_shape fresh). rewrite Hi.
    rewrite (nth_error_nth' _ no_placeholder)
      by (rewrite !length_update_at; exact Hilt).
    rewrite nth_update_at_other by congruence.
    rewrite nth_update_at_same by exact Hilt.
    simpl option_map. f_equal. apply set_text_paragraphs. exact Hitext.
  - unfold read_body, find_body. rewrite Hphs.
    rewrite (find_index_update_at _ fill body) by reflexivity.
    rewrite (find_index_update_at _ setter i _ Hkeep_body).
    fold (find_body fresh). rewrite Hb.
    rewrite (nth_error_nth' _ no_placeholder)
      by (rewrite !length_update_at; exact Hblt).
    rewrite nth_update_at_same by (rewrite length_update_at; exact Hblt).
    simpl option_map. f_equal. unfold fill, frame. cbn [paragraphs].
    exact (map_p_text_bullets (b :: more)).
Qed.

(** On that template the slide after the cover has the title [Intro] and
    no body to read, and the bullets are on no slide of the deck. *)
Lemma intro_bullets_lost_on_title_only_template :
  exists deck previews cover content rest,
    build_presentation (canned []) (fun l => l) (fun _ => true) []
      intro_outline title_only_template None None false []
    = (Ok (deck, previews), []) /\
    slides deck = cover :: content :: rest /\
    read_title content = Some (py "Intro") /\
    read_body content = None /\
    Forall (fun s => read_body s = None) (slides deck).
Proof.
  eexists. eexists. eexists. eexists. eexists.
  split; [vm_compute; reflexivity|].
  split; [vm_compute; reflexivity|].
  split; [reflexivity|]. split; [reflexivity|].
  repeat constructor.
Qed.

Section RoundTrip.

Variable net : network.
Variable shuffle : list bytes -> list bytes.
Variable picture_ok : bytes -> bool.

(** C6 (amended).  On a template whose title-and-content layout has a title
    placeholder and a body placeholder, the build of the outline of the one
    entry [Intro] with bullets [a] and [b] returns a deck made of the
    template's slides, the cover and one content slide; read back, that
    slide has the title [Intro] and two body paragraphs, [a] and [b], in
    this order. *)
Theorem intro_round_trip (text : pystr) (tpl : template)
    (guidance : option pystr) (cfg : option ProviderConfig)
    (preview : bool) (log : list net_call) (layout_tc : layout) :
  _title_content_layout (opened tpl) = Ok layout_tc ->
  has_title_placeholder layout_tc = true ->
  has_body_placeholder layout_tc = true ->
  exists deck previews cover content log',
    build_presentation net shuffle picture_ok text intro_outline tpl guidance cfg
      preview log
    = (Ok (deck, previews), log') /\
    slides deck = slides (opened tpl) ++ [cover; content] /\
    read_title content = Some (py "Intro") /\
    read_body content = Some [py "a"; py "b"].
Proof.
  intros Htc Htitle Hbody.
  assert (Hlayouts : slide_layouts (opened tpl) <> []).
  { intros E. unfold _title_content_layout, layout_named in Htc.
    rewrite E in Htc. discriminate. }
  destruct (build_presentation_groups net shuffle picture_ok text intro_outline
              tpl guidance cfg preview log Hlayouts)
    as (l0 & ltc & lto & groups & log' & _ & Htc' & _ & Hbuild & Hlen & Hnth).
  { simpl. discriminate. }
  assert (ltc = layout_tc) by congruence. subst ltc.
  destruct (Hnth 0 _ eq_refl) as [notes Hg].
  destruct groups as [|g [|g' groups]]; try discriminate.
  simpl in Hg. injection Hg as ->.
  destruct (content_slide_reads_back picture_ok layout_tc lto (py "Intro")
              (py "a") [py "b"]
              (img_at (shuffle (_collect_template_images tpl)) 0) notes
              Htitle Hbody) as (content & Hcontent & Hrt & Hrb).
  eexists. eexists. eexists. exists content, log'.
  split; [exact Hbuild|]. split; [|split; assumption].
  unfold append_slides, with_slides. cbn [slides concat].
  change (entry_dict {| title := py "Intro"; bullets := [py "a"; py "b"] |})
    with {| spec_title := Some (py "Intro"); spec_bullets := Some [py "a"; py "b"] |}.
  rewrite Hcontent. reflexivity.
Qed.

End RoundTrip.

Lemma intro_round_trip_witness :
  let layout_tc := {| layout_name := py "Title and Content";
                      layout_placeholders := [(0%Z, true); (1%Z, true)] |} in
  (_title_content_layout (opened sample_template) = Ok layout_tc /\
   has_title_placeholder layout_tc = true /\
   has_body_placeholder layout_tc = true) /\
  exists deck previews cover content log',
    build_presentation (canned []) (@rev bytes) (fun _ => true) []
      intro_outline sample_template None None true []
    = (Ok (deck, previews), log') /\
    slides deck = slides (opened sample_template) ++ [cover; content] /\
    read_title content = Some (py "Intro") /\
    read_body content = Some [py "a"; py "b"].
Proof.
  cbv zeta. split; [repeat split|].
  apply (intro_round_trip (canned []) (@rev bytes) (fun _ => true) []
           sample_template None None true []
           {| layout_name := py "Title and Content";
              layout_placeholders := [(0%Z, true); (1%Z, true)] |});
    reflexivity.
Defined.

(** ** Pictures on the generated slides *)






(** Setting the title moves no body placeholder. *)
Lemma find_body_titled (l : layout) (spec : slide_spec) :
  find_body (titled l spec) = find_body (new_slide l).
Proof.
  unfold titled, try_set_title, find_body.
  destruct (title_shape (new_slide l)); [|reflexivity].
  cbn [placeholders]. apply find_index_update_at.
  intros ph.
  destruct (set_text_keeps (get_or (spec_title spec) (py "Slide")) ph)
    as (E1 & E2 & _).
  now rewrite E1, E2.
Qed.

(** With a body placeholder on the layout, an entry leaves one slide. *)
Lemma placed_slides_single (ltc lto : layout) (spec : slide_spec) :
  has_body_placeholder ltc = true -> fst (placed_slides ltc lto spec) = [].
Proof.
  intros Hbody. unfold placed_slides.
  destruct (new_slide_body ltc Hbody) as [body Hb].
  rewrite find_body_titled, Hb.
  destruct (_apply_bullets _ _); reflexivity.
Qed.

Lemma placed_slides_double (ltc lto : layout) (spec : slide_spec) :
  has_body_placeholder ltc = false ->
  fst (placed_slides ltc lto spec) = [titled ltc spec].
Proof.
  intros Hbody. unfold placed_slides.
  assert (Hnone : find_body (titled ltc spec) = None).
  { rewrite find_body_titled. unfold find_body.
    apply find_index_None. rewrite new_slide_placeholders.
    unfold has_body_placeholder in Hbody.
    clear -Hbody. induction (layout_placeholders ltc) as [|a l IH];
      simpl in *; [reflexivity|].
    apply orb_false_iff in Hbody. destruct Hbody as [Ha Hl].
    now rewrite Ha, IH. }
  now rewrite Hnone.
Qed.

Lemma length_entry_slides (picture_ok : bytes -> bool) (ltc lto : layout)
    (spec : slide_spec) (img : option bytes) (notes : option pystr) :
  length (entry_slides picture_ok ltc lto spec img notes) = slides_per_entry ltc.
Proof.
  unfold entry_slides, slides_per_entry. rewrite length_app.
  destruct (has_body_placeholder ltc) eqn:E.
  - now rewrite placed_slides_single.
  - now rewrite placed_slides_double.
Qed.

Lemma str_eqb_eq (a b : pystr) : str_eqb a b = true -> a = b.
Proof. unfold str_eqb. destruct (list_eq_dec N.eq_dec a b); [auto | discriminate]. Qed.




Section ImagePlacement.

Variable net : network.
Variable shuffle : list bytes -> list bytes.
Variable picture_ok : bytes -> bool.

(** [random.shuffle] reorders the list. *)
Hypothesis shuffle_permutes : forall l, Permutation (shuffle l) l.


End ImagePlacement.



(** The sample template has two images; with the reversed order as the
    shuffle, the three entries get the second, the first and the second. *)
Example sample_images_cycle :
  _collect_template_images sample_template = [[1%N]; [2%N]] /\
  exists deck previews,
    build_presentation (canned []) (@rev bytes) (fun _ => true) []
      (map entry_dict sample_entries) sample_template None None false []
    = (Ok (deck, previews), []) /\
    map (fun s => map pic_image (pictures s)) (slides deck)
    = [ []; [[2%N]]; [[1%N]]; [[2%N]] ].
Proof. split; [reflexivity|]. eexists. eexists. split; reflexivity. Qed.


(** ** The fallback to the title-only layout *)

(** C5.  On that template the build of two entries leaves four slides
    after the cover, two per entry: the slide of the title-and-content
    layout stays in the deck, followed by the title-only slide. *)
Theorem fallback_keeps_the_first_slide :
  exists deck previews,
    build_presentation (canned []) (fun l => l) (fun _ => true) []
      (map entry_dict two_entries) no_body_template None None false []
    = (Ok (deck, previews), []) /\
    length (slides deck) = 5 /\
    map read_title (slides deck)
    = [ Some (py "A");
        Some (py "A"); Some (py "A");
        Some (py "B"); Some (py "B") ].
Proof. eexists. eexists. repeat split; vm_compute; reflexivity. Qed.

Lemma length_concat_const {A} (n : nat) (groups : list (list A)) :
  Forall (fun g => length g = n) groups ->
  length (concat groups) = length groups * n.
Proof.
  induction 1 as [|g groups Hg _ IH]; simpl; [reflexivity|].
  rewrite length_app, Hg, IH. reflexivity.
Qed.

(** Without a body placeholder on the title-and-content layout, the
    slides of an entry are two. *)
Lemma entry_slides_without_body (picture_ok : bytes -> bool)
    (layout_tc layout_title_only : layout) (spec : slide_spec)
    (img : option bytes) (notes : option pystr) :
  has_body_placeholder layout_tc = false ->
  entry_slides picture_ok layout_tc layout_title_only spec img notes
  = [ titled layout_tc spec;
      with_notes notes (with_image picture_ok img (titled layout_title_only spec)) ].
Proof.
  intros Hbody. unfold entry_slides.
  pose proof (placed_slides_double layout_tc layout_title_only spec Hbody) as Hfst.
  unfold placed_slides in *.
  destruct (find_body (titled layout_tc spec)).
  - destruct (_apply_bullets _ _); discriminate.
  - reflexivity.
Qed.

Section Fallback.

Variable net : network.
Variable shuffle : list bytes -> list bytes.
Variable picture_ok : bytes -> bool.

(** Whatever the template and the outline: when the title-and-content
    layout has no body placeholder, the build leaves two slides per entry
    in the deck, after the template's slides and the cover and in the
    order of the outline.  The first is the slide of the title-and-content
    layout with the entry's title, which stays in the deck; the second is
    the slide of the title-only layout with the same title, and the image
    and the notes of the entry go to it.  The bullets are on neither. *)
Theorem fallback_doubles_the_slides (text : pystr) (outline : list slide_spec)
    (tpl : template) (guidance : option pystr) (cfg : option ProviderConfig)
    (preview : bool) (log : list net_call) (layout_tc layout_title_only : layout) :
  first_has_title outline ->
  _title_content_layout (opened tpl) = Ok layout_tc ->
  _title_only_layout (opened tpl) = Ok layout_title_only ->
  has_body_placeholder layout_tc = false ->
  let imgs := shuffle (_collect_template_images tpl) in
  exists deck previews cover groups log',
    build_presentation net shuffle picture_ok text outline tpl guidance cfg
      preview log
    = (Ok (deck, previews), log') /\
    slides deck = slides (opened tpl) ++ cover :: concat groups /\
    length groups = length outline /\
    length (slides deck) = length (slides (opened tpl)) + 1 + 2 * length outline /\
    forall i spec,
      nth_error outline i = Some spec ->
      exists notes,
        nth_error groups i
        = Some [ titled layout_tc spec;
                 with_notes notes
                   (with_image picture_ok (img_at imgs i)
                      (titled layout_title_only spec)) ] /\
        read_body (titled layout_tc spec) = None.
Proof.
  intros Htitle Htc Hto Hbody imgs.
  assert (Hlayouts : slide_layouts (opened tpl) <> []).
  { intros E. unfold _title_content_layout, layout_named in Htc.
    rewrite E in Htc. discriminate. }
  destruct (build_presentation_groups net shuffle picture_ok text outline tpl
              guidance cfg preview log Hlayouts Htitle)
    as (l0 & ltc & lto & groups & log' & _ & Htc' & Hto' & Hbuild & Hlen & Hnth).
  assert (ltc = layout_tc) by congruence. subst ltc.
  assert (lto = layout_title_only) by congruence. subst lto.
  assert (Hgroups : forall i spec,
            nth_error outline i = Some spec ->
            exists notes,
              nth_error groups i
              = Some [ titled layout_tc spec;
                       with_notes notes
                         (with_image picture_ok (img_at imgs i)
                            (titled layout_title_only spec)) ]).
  { intros i spec Hspec. destruct (Hnth i spec Hspec) as [notes Hg].
    exists notes. rewrite Hg. f_equal.
    now apply entry_slides_without_body. }
  eexists. eexists. eexists. exists groups, log'.
  split; [exact Hbuild|]. split; [reflexivity|]. split; [exact Hlen|]. split.
  - unfold append_slides, with_slides. cbn [slides].
    rewrite length_app. cbn [length].
    rewrite (length_concat_const 2); [rewrite Hlen; lia|].
    apply Forall_forall. intros g Hg.
    apply In_nth_error in Hg. destruct Hg as [i Hi].
    assert (Hlt : i < length outline).
    { rewrite <- Hlen. apply nth_error_Some. congruence. }
    destruct (nth_error outline i) as [spec|] eqn:Hs;
      [| apply nth_error_None in Hs; lia].
    destruct (Hgroups i spec Hs) as [notes Hn].
    rewrite Hn in Hi. now injection Hi as <-.
  - intros i spec Hspec. destruct (Hgroups i spec Hspec) as [notes Hg].
    exists notes. split; [exact Hg|].
    pose proof (placed_slides_double layout_tc layout_title_only spec Hbody) as Hfst.
    unfold read_body. unfold placed_slides in Hfst.
    destruct (find_body (titled layout_tc spec)); [|reflexivity].
    destruct (_apply_bullets _ _); discriminate.
Qed.

End Fallback.

Lemma fallback_doubles_the_slides_witness :
  let tpl := no_body_template in
  let layout_tc := {| layout_name := py "Title and Content";
                      layout_placeholders := [(0%Z, true)] |} in
  let layout_title_only := {| layout_name := py "Title Only";
                              layout_placeholders := [(0%Z, true)] |} in
  let outline := map entry_dict two_entries in
  let imgs := _collect_template_images tpl in
  (first_has_title outline /\
   _title_content_layout (opened tpl) = Ok layout_tc /\
   _title_only_layout (opened tpl) = Ok layout_title_only /\
   has_body_placeholder layout_tc = false) /\
  exists deck previews cover groups log',
    build_presentation (canned []) (fun l => l) (fun _ => true) [] outline tpl
      None None false []
    = (Ok (deck, previews), log') /\
    slides deck = slides (opened tpl) ++ cover :: concat groups /\
    length groups = length outline /\
    length (slides deck) = length (slides (opened tpl)) + 1 + 2 * length outline /\
    forall i spec,
      nth_error outline i = Some spec ->
      exists notes,
        nth_error groups i
        = Some [ titled layout_tc spec;
                 with_notes notes
                   (with_image (fun _ => true) (img_at imgs i)
                      (titled layout_title_only spec)) ] /\
        read_body (titled layout_tc spec) = None.
Proof.
  cbv zeta. split; [repeat split; discriminate|].
  apply (fallback_doubles_the_slides (canned []) (fun l => l) (fun _ => true) []
           (map entry_dict two_entries) no_body_template None None false []
           {| layout_name := py "Title and Content";
              layout_placeholders := [(0%Z, true)] |}
           {| layout_name := py "Title Only";
              layout_placeholders := [(0%Z, true)] |});
    [discriminate | reflexivity | reflexivity | reflexivity].
Defined.

(** ** Previews *)

(** Whatever the outline, at most twelve previews are made, and none when
    previews are not asked for. *)
Theorem previews_at_most_twelve (preview : bool) (outline : list slide_spec) :
  length (render_previews preview outline) <= 12 /\
  length (render_previews preview outline) <= length outline /\
  (preview = false -> render_previews preview outline = []).
Proof.
  unfold render_previews, MAX_SLIDE_PREVIEWS. destruct preview.
  - rewrite length_map, slice_to_nonneg, length_firstn by lia.
    change (Z.to_nat 12) with 12. repeat split; try lia; discriminate.
  - simpl. repeat split; lia.
Qed.

Lemma nth_error_combine_seq {A} (l : list A) (j : nat) (x : A) :
  forall start,
    nth_error l j = Some x ->
    nth_error (combine (seq start (length l)) l) j = Some (start + j, x).
Proof.
  revert j. induction l as [|a l IH]; intros [|j] start H; simpl in *;
    try discriminate.
  - injection H as ->. now rewrite Nat.add_0_r.
  - rewrite (IH j (S start) H). f_equal. f_equal. lia.
Qed.

(** The bullets drawn on a preview are the first six of the entry, in
    order, bullet [j] (from 0) at height [124 + 28 j].  The text drawn is
    the glyph, a space and the bullet: the whole bullet when it has at
    most 80 characters, else its first 77 characters and three dots, 80
    characters in all. *)
Theorem preview_bullets_bounded (spec : slide_spec) :
  let bs := get_or (spec_bullets spec) [] in
  let drawn := drawn_bullets (render_preview spec) in
  length drawn = Nat.min 6 (length bs) /\
  forall j b,
    j < 6 -> nth_error bs j = Some b ->
    exists tb,
      nth_error drawn j = Some ((124 + 28 * Z.of_nat j)%Z, preview_glyph ++ tb) /\
      (length b <= 80 -> tb = b) /\
      (80 < length b -> tb = firstn 77 b ++ py "..." /\ length tb = 80).
Proof.
  cbv zeta. unfold render_preview. cbn [drawn_bullets]. split.
  - rewrite length_map, length_combine, length_seq, Nat.min_id.
    apply length_firstn.
  - intros j b Hj Hb.
    set (bs := get_or (spec_bullets spec) []) in *.
    assert (Hfirst : nth_error (firstn 6 bs) j = Some b).
    { rewrite nth_error_firstn.
      destruct (Nat.ltb_spec j 6) as [_ | Hge]; [exact Hb | lia]. }
    eexists. split.
    + rewrite nth_error_map.
      rewrite (nth_error_combine_seq (firstn 6 bs) j b 0 Hfirst).
      cbn [option_map Nat.add]. unfold preview_glyph.
      f_equal. f_equal. lia.
    + split.
      * intros Hle. apply Nat.leb_le in Hle. now rewrite Hle.
      * intros Hgt. apply Nat.leb_gt in Hgt as Hgt'. rewrite Hgt'.
        split; [reflexivity|].
        rewrite length_app, length_firstn. change (length (py "...")) with 3.
        lia.
Qed.

(** A bullet of 81 characters, the second of its entry, is drawn at height
    152 cut to 77 characters and three dots. *)
Lemma preview_bullets_bounded_witness :
  let long := repeat 120%N 81 in
  let spec := {| spec_title := Some (py "T");
                 spec_bullets := Some [py "a"; long] |} in
  (1 < 6 /\ nth_error (get_or (spec_bullets spec) []) 1 = Some long) /\
  exists tb,
    nth_error (drawn_bullets (render_preview spec)) 1
    = Some (152%Z, preview_glyph ++ tb) /\
    (length long <= 80 -> tb = long) /\
    (80 < length long -> tb = firstn 77 long ++ py "..." /\ length tb = 80).
Proof.
  cbv zeta. split; [split; [lia | reflexivity]|].
  apply (proj2 (preview_bullets_bounded
                  {| spec_title := Some (py "T");
                     spec_bullets := Some [py "a"; repeat 120%N 81] |})
           1 (repeat 120%N 81)); [lia | reflexivity].
Defined.

(** ** The images of the template *)

Lemma zf_read_entry (zf : list zip_entry) (name : pystr) (data : bytes) :
  zf_read zf name = Some data ->
  exists e, In e zf /\ entry_name e = name /\ entry_data e = Some data.
Proof.
  unfold zf_read.
  destruct (find _ (rev zf)) as [e|] eqn:E; [| discriminate].
  intros H. apply find_some in E. destruct E as [Hin Hname].
  exists e. split; [now apply in_rev | split; [now apply str_eqb_eq | exact H]].
Qed.

Lemma length_flat_map_le {A B} (f : A -> list B) (l : list A) :
  (forall x, length (f x) <= 1) -> length (flat_map f l) <= length l.
Proof.
  intros H. induction l as [|a l IH]; simpl; [lia|].
  rewrite length_app. specialize (H a). lia.
Qed.

(** The images collected are files of the template and nothing else: each
    is the content of an entry of the archive under [ppt/media/] whose
    name ends in [.png], [.jpg] or [.jpeg], in any case; there are no more
    of them than entries; and every such entry that can be read is
    collected. *)
Theorem collected_images_are_media_files (tpl : template) :
  length (_collect_template_images tpl) <= length (archive tpl) /\
  (forall img,
     In img (_collect_template_images tpl) ->
     exists e,
       In e (archive tpl) /\
       entry_data e = Some img /\
       startswith (entry_name e) (py "ppt/media/") = true /\
       image_extension (entry_name e) = true) /\
  (forall e img,
     In e (archive tpl) ->
     startswith (entry_name e) (py "ppt/media/") = true ->
     image_extension (entry_name e) = true ->
     zf_read (archive tpl) (entry_name e) = Some img ->
     In img (_collect_template_images tpl)).
Proof.
  unfold _collect_template_images. split; [| split].
  - eapply Nat.le_trans; [apply length_flat_map_le | now rewrite length_map].
    intros name.
    destruct (_ && _); [| simpl; lia].
    destruct (zf_read _ _); simpl; lia.
  - intros img Hin. apply in_flat_map in Hin. destruct Hin as (name & _ & Hin).
    destruct (startswith name (py "ppt/media/")) eqn:Hs; [| destruct Hin].
    cbn [andb] in Hin.
    destruct (existsb _ _) eqn:Hx; [| destruct Hin].
    destruct (zf_read (archive tpl) name) as [data|] eqn:Hr; [| destruct Hin].
    destruct Hin as [<- | []].
    destruct (zf_read_entry _ _ _ Hr) as (e & He & Hname & Hdata).
    exists e. subst name. repeat split; assumption.
  - intros e img He Hs Hx Hr. apply in_flat_map.
    exists (entry_name e). split; [now apply in_map|].
    unfold image_extension in Hx. rewrite Hs, Hx, Hr. now left.
Qed.

(** ** The bullets in a text frame *)

Lemma fold_append_paragraphs (more : list pystr) :
  forall frame,
    fold_left (fun frame b' => frame ++ [bullet_paragraph b']) more frame
    = frame ++ map bullet_paragraph more.
Proof.
  induction more as [|b' more IH]; intros frame; simpl.
  - now rewrite app_nil_r.
  - rewrite IH, <- app_assoc. reflexivity.
Qed.

Lemma map_const_nil {A} (f : A -> paragraph) (l : list A) :
  (forall x, p_text (f x) = []) -> map p_text (map f l) = repeat [] (length l).
Proof.
  intros H. induction l as [|a l IH]; simpl; [reflexivity | now rewrite H, IH].
Qed.

(** The texts of a frame after [_apply_bullets], for bullets a paragraph
    can hold.  Without bullets every paragraph is there, empty.  With
    bullets, the first goes into the first paragraph, the paragraphs that
    were after it stay, empty, and the other bullets come after them, one
    new paragraph each; on a frame without any paragraph the first bullet
    raises [IndexError].  A bullet reads back as [paragraph_text] gives it,
    with a vertical tab for each of its line feeds and its control
    characters escaped: as it is when it is plain. *)
Theorem apply_bullets_texts (frame : list paragraph) (bs : list pystr) :
  Forall (fun b => storable b = true) bs ->
  match bs, frame with
  | [], _ =>
      exists frame',
        _apply_bullets frame bs = Ok frame' /\
        map p_text frame' = repeat [] (length frame)
  | _ :: _, [] => _apply_bullets frame bs = Raise IndexError
  | b :: more, _ :: others =>
      exists frame',
        _apply_bullets frame bs = Ok frame' /\
        map p_text frame'
        = paragraph_text b :: repeat [] (length others) ++ map paragraph_text more /\
        length frame' = length frame + length bs - 1 /\
        (Forall (fun b => plain b = true) bs ->
         map p_text frame' = b :: repeat [] (length others) ++ more)
  end.
Proof.
  intros _. unfold _apply_bullets.
  destruct bs as [|b more].
  - eexists. split; [reflexivity|]. now apply map_const_nil.
  - destruct frame as [|p others]; [reflexivity|].
    cbn [map]. eexists. split; [reflexivity|].
    rewrite fold_append_paragraphs.
    assert (Htexts : map p_text
                       ((bullet_paragraph b
                         :: map (fun p0 => {| p_text := []; p_level := p_level p0;
                                              p_space_after := p_space_after p0 |})
                              others) ++ map bullet_paragraph more)
                     = paragraph_text b :: repeat [] (length others)
                       ++ map paragraph_text more).
    { cbn [app map p_text bullet_paragraph]. f_equal.
      rewrite map_app, map_p_text_bullets. f_equal.
      now apply map_const_nil. }
    split; [exact Htexts|]. split.
    + cbn [app length]. rewrite length_app, !length_map. lia.
    + intros Hplain. rewrite Htexts. inversion Hplain as [|? ? Hb Hmore]; subst.
      now rewrite (paragraph_text_plain b Hb), (map_paragraph_text_plain more Hmore).
Qed.

(** A bullet of two lines is one paragraph, read back with a vertical tab
    where the line feed was; a bell is read back escaped. *)
Lemma apply_bullets_texts_witness :
  let frame := [empty_paragraph; empty_paragraph] in
  let bs := [py "a" ++ [NL] ++ py "b"; [7%N]; py "c"] in
  Forall (fun b => storable b = true) bs /\
  (exists frame',
     _apply_bullets frame bs = Ok frame' /\
     map p_text frame'
     = paragraph_text (py "a" ++ [NL] ++ py "b")
       :: repeat [] 1 ++ map paragraph_text [[7%N]; py "c"] /\
     length frame' = length frame + length bs - 1 /\
     (Forall (fun b => plain b = true) bs ->
      map p_text frame' = (py "a" ++ [NL] ++ py "b") :: repeat [] 1 ++ [[7%N]; py "c"])) /\
  paragraph_text (py "a" ++ [NL] ++ py "b") = py "a" ++ [VT] ++ py "b" /\
  paragraph_text [7%N] = py "_x0007_".
Proof.
  cbv zeta. split; [repeat constructor|]. split; [|split; reflexivity].
  apply (apply_bullets_texts [empty_paragraph; empty_paragraph]
           [py "a" ++ [NL] ++ py "b"; [7%N]; py "c"]).
  repeat constructor.
Defined.

(** ** The choice of the layouts *)

Lemma layout_named_choice (p : pystr -> bool) (prs : Presentation)
    (l0 : layout) (ls : list layout) :
  slide_layouts prs = l0 :: ls ->
  exists l,
    layout_named p prs = Ok l /\
    In l (slide_layouts prs) /\
    (existsb (fun l' => p (lower (layout_name l'))) (slide_layouts prs) = true ->
     p (lower (layout_name l)) = true) /\
    (existsb (fun l' => p (lower (layout_name l'))) (slide_layouts prs) = false ->
     l = l0).
Proof.
  intros Hl. unfold layout_named.
  destruct (find _ (slide_layouts prs)) as [l|] eqn:E.
  - exists l. apply find_some in E as E'. destruct E' as [Hin Hp].
    repeat split; auto.
    intros Hx. exfalso.
    assert (Ht : existsb (fun l' => p (lower (layout_name l'))) (slide_layouts prs) = true)
      by (apply existsb_exists; eauto).
    congruence.
  - rewrite Hl. exists l0. repeat split; auto; [now left|].
    intros Hx. apply existsb_exists in Hx. destruct Hx as (l' & Hin & Hp).
    rewrite <- Hl in Hin.
    pose proof (find_none _ _ E l' Hin) as Hn. simpl in Hn. congruence.
Qed.

(** On a presentation with at least one layout both choices return one of
    its layouts.  The layout chosen has a name that passes the test, or
    else no layout of the presentation has one and the layout chosen is
    the first of all, the one the cover is made with. *)
Theorem layouts_come_from_the_template (prs : Presentation) :
  slide_layouts prs <> [] ->
  exists layout_tc layout_title_only,
    _title_content_layout prs = Ok layout_tc /\
    _title_only_layout prs = Ok layout_title_only /\
    In layout_tc (slide_layouts prs) /\
    In layout_title_only (slide_layouts prs) /\
    (names_title_content (lower (layout_name layout_tc)) = false ->
     hd_error (slide_layouts prs) = Some layout_tc /\
     Forall (fun l => names_title_content (lower (layout_name l)) = false)
            (slide_layouts prs)) /\
    (names_title_only (lower (layout_name layout_title_only)) = false ->
     hd_error (slide_layouts prs) = Some layout_title_only /\
     Forall (fun l => names_title_only (lower (layout_name l)) = false)
            (slide_layouts prs)).
Proof.
  intros Hne.
  destruct (slide_layouts prs) as [|l0 ls] eqn:Hl; [congruence|].
  destruct (layout_named_choice names_title_content prs l0 ls Hl)
    as (ltc & Htc & Hin1 & Hyes1 & Hno1).
  destruct (layout_named_choice names_title_only prs l0 ls Hl)
    as (lto & Hto & Hin2 & Hyes2 & Hno2).
  rewrite Hl in *.
  assert (Hall : forall p l,
            (existsb (fun l' => p (lower (layout_name l'))) (l0 :: ls) = true ->
             p (lower (layout_name l)) = true) ->
            (existsb (fun l' => p (lower (layout_name l'))) (l0 :: ls) = false ->
             l = l0) ->
            p (lower (layout_name l)) = false ->
            hd_error (l0 :: ls) = Some l /\
            Forall (fun l' => p (lower (layout_name l')) = false) (l0 :: ls)).
  { intros p l Hyes Hno Hp.
    destruct (existsb (fun l' => p (lower (layout_name l'))) (l0 :: ls)) eqn:Ex.
    - rewrite Hyes in Hp by reflexivity. discriminate.
    - rewrite (Hno eq_refl). split; [reflexivity|].
      apply Forall_forall. intros l' Hin.
      destruct (p (lower (layout_name l'))) eqn:Hp'; [| reflexivity].
      assert (existsb (fun l' => p (lower (layout_name l'))) (l0 :: ls) = true)
        by (apply existsb_exists; eauto).
      congruence. }
  exists ltc, lto. repeat split; try assumption.
  - apply (Hall names_title_content ltc Hyes1 Hno1). assumption.
  - apply (Hall names_title_content ltc Hyes1 Hno1). assumption.
  - apply (Hall names_title_only lto Hyes2 Hno2). assumption.
  - apply (Hall names_title_only lto Hyes2 Hno2). assumption.
Qed.

Lemma layouts_come_from_the_template_witness :
  let prs := opened title_only_template in
  exists layout_tc layout_title_only,
    _title_content_layout prs = Ok layout_tc /\
    _title_only_layout prs = Ok layout_title_only /\
    In layout_tc (slide_layouts prs) /\
    In layout_title_only (slide_layouts prs) /\
    (names_title_content (lower (layout_name layout_tc)) = false ->
     hd_error (slide_layouts prs) = Some layout_tc /\
     Forall (fun l => names_title_content (lower (layout_name l)) = false)
            (slide_layouts prs)) /\
    (names_title_only (lower (layout_name layout_title_only)) = false ->
     hd_error (slide_layouts prs) = Some layout_title_only /\
     Forall (fun l => names_title_only (lower (layout_name l)) = false)
            (slide_layouts prs)).
Proof.
  cbv zeta.
  apply (layouts_come_from_the_template (opened title_only_template)).
  discriminate.
Defined.

(** ** The cover *)

Lemma set_subtitles_find (p : placeholder -> bool) (s : pystr) (phs : list placeholder) :
  (forall ph ph', set_text s ph = Some ph' -> p ph' = p ph) ->
  find_index p (set_subtitles s phs) = find_index p phs.
Proof.
  intros Hp. induction phs as [|ph rest IH]; cbn [set_subtitles]; [reflexivity|].
  destruct (ph_idx ph =? 1)%Z.
  - destruct (set_text s ph) as [ph'|] eqn:E; [| reflexivity].
    cbn [find_index]. now rewrite (Hp ph ph' E), IH.
  - cbn [find_index]. now rewrite IH.
Qed.

Lemma set_subtitles_nth (s : pystr) (phs : list placeholder) (i : nat) (d : placeholder) :
  (ph_idx (nth i phs d) =? 1)%Z = false ->
  nth i (set_subtitles s phs) d = nth i phs d.
Proof.
  revert i. induction phs as [|ph rest IH]; intros i Hi; cbn [set_subtitles];
    [reflexivity|].
  destruct (ph_idx ph =? 1)%Z eqn:E.
  - destruct (set_text s ph) as [ph'|]; [| reflexivity].
    destruct i as [|i]; [simpl in Hi; congruence|].
    simpl. apply IH. exact Hi.
  - destruct i as [|i]; [reflexivity|]. simpl. apply IH. exact Hi.
Qed.

Lemma length_set_subtitles (s : pystr) (phs : list placeholder) :
  length (set_subtitles s phs) = length phs.
Proof.
  induction phs as [|ph rest IH]; cbn [set_subtitles]; [reflexivity|].
  destruct (ph_idx ph =? 1)%Z; [| simpl; now rewrite IH].
  destruct (set_text s ph); [simpl; now rewrite IH | reflexivity].
Qed.

Lemma set_subtitles_texts (s : pystr) (phs : list placeholder) :
  Forall (fun ph => (ph_idx ph =? 1)%Z = true -> has_text_frame ph = true) phs ->
  Forall (fun ph => (ph_idx ph =? 1)%Z = true -> get_text ph = frame_text s)
         (set_subtitles s phs).
Proof.
  induction 1 as [|ph rest Hph _ IH]; cbn [set_subtitles]; [constructor|].
  destruct (ph_idx ph =? 1)%Z eqn:E.
  - pose proof (set_text_paragraphs s ph (Hph eq_refl)) as Ht.
    unfold set_text in *. rewrite (Hph eq_refl) in *.
    constructor; [| exact IH]. intros _. exact Ht.
  - constructor; [| exact IH]. intros H. cbn in H. congruence.
Qed.

(** The cover is one more slide, at the end of the deck, made with the
    first layout.  For a plain title and a plain subtitle: when that layout
    has a title placeholder, the cover reads back with the title it was
    given; when its placeholders of idx 1 can hold text, each of them reads
    back as the subtitle, and as the empty text when no subtitle is
    given. *)
Theorem cover_reads_back (prs : Presentation) (l0 : layout) (ls : list layout)
    (t : pystr) (subtitle : option pystr) :
  slide_layouts prs = l0 :: ls ->
  has_title_placeholder l0 = true ->
  Forall (fun ph : Z * bool => fst ph = 1%Z -> snd ph = true) (layout_placeholders l0) ->
  plain t = true ->
  plain (str_or subtitle []) = true ->
  exists prs' cover,
    _make_cover_slide prs t subtitle = Ok (prs', length (slides prs)) /\
    slides prs' = slides prs ++ [cover] /\
    read_title cover = Some t /\
    Forall (fun ph => ph_idx ph = 1%Z -> get_text ph = str_or subtitle [])
           (placeholders cover).
Proof.
  intros Hl Htitle Hsub Hplain_t Hplain_s.
  rewrite (make_cover_spec prs l0 ls t subtitle Hl).
  eexists. eexists. split; [reflexivity|]. split; [reflexivity|].
  destruct (new_slide_title l0 Htitle) as (i & Hi & Hilt & Hitext).
  set (setter := fun ph => match set_text t ph with Some ph' => ph' | None => ph end).
  assert (Hkeep_idx : forall ph, (ph_idx (setter ph) =? 0)%Z = (ph_idx ph =? 0)%Z).
  { intros ph. unfold setter. now rewrite (proj1 (set_text_keeps t ph)). }
  assert (Hphs : placeholders (try_set_title t (new_slide l0))
                 = update_at i setter (placeholders (new_slide l0))).
  { unfold try_set_title. now rewrite Hi. }
  destruct (find_index_Some _ _ _ no_placeholder Hi) as [_ Hip].
  split.
  - unfold read_title, title_shape, cover_of. cbn [placeholders].
    rewrite set_subtitles_find.
    + rewrite Hphs, (find_index_update_at _ setter i _ Hkeep_idx).
      fold (title_shape (new_slide l0)). rewrite Hi.
      rewrite (nth_error_nth' _ no_placeholder)
        by (rewrite length_set_subtitles, length_update_at; exact Hilt).
      rewrite set_subtitles_nth.
      * rewrite nth_update_at_same by exact Hilt.
        simpl option_map. f_equal.
        etransitivity; [apply set_text_paragraphs; exact Hitext|].
        now apply frame_text_plain.
      * rewrite nth_update_at_same by exact Hilt.
        unfold setter. rewrite (proj1 (set_text_keeps t _)).
        apply Z.eqb_eq in Hip. rewrite Hip. reflexivity.
    + intros ph ph' E. unfold set_text in E.
      destruct (has_text_frame ph); [| discriminate]. now injection E as <-.
  - unfold cover_of. cbn [placeholders].
    eapply Forall_impl; [| apply set_subtitles_texts].
    + intros ph H E. rewrite <- (frame_text_plain _ Hplain_s).
      apply H. now apply Z.eqb_eq.
    + rewrite Hphs. apply Forall_update_at.
      * intros ph H E. destruct (set_text_keeps t ph) as (E1 & E2 & _).
        unfold setter in *. rewrite E2. apply H. now rewrite <- E1.
      * rewrite new_slide_placeholders. apply Forall_map.
        eapply Forall_impl; [| exact Hsub].
        intros [idx text] H E. cbn in *. apply H. now apply Z.eqb_eq.
Qed.

Lemma cover_reads_back_witness :
  let prs := opened sample_template in
  exists prs' cover,
    _make_cover_slide prs (py "Intro") (Some (py "Pitch")) = Ok (prs', length (slides prs)) /\
    slides prs' = slides prs ++ [cover] /\
    read_title cover = Some (py "Intro") /\
    Forall (fun ph => ph_idx ph = 1%Z -> get_text ph = str_or (Some (py "Pitch")) [])
           (placeholders cover).
Proof.
  cbv zeta.
  apply (cover_reads_back (opened sample_template)
           {| layout_name := py "Title Slide";
              layout_placeholders := [(0%Z, true); (1%Z, true)] |}
           [ {| layout_name := py "Title and Content";
                layout_placeholders := [(0%Z, true); (1%Z, true)] |};
             {| layout_name := py "Title Only";
                layout_placeholders := [(0%Z, true)] |} ]
           (py "Intro") (Some (py "Pitch"))).
  - reflexivity.
  - reflexivity.
  - repeat constructor.
  - reflexivity.
  - reflexivity.
Defined.

(** ** When the build fails, and how many slides it makes *)

Section BuildOutcome.

Variable net : network.
Variable shuffle : list bytes -> list bytes.
Variable picture_ok : bytes -> bool.

(** The outcome of the build, for a template that opens and an outline of
    dicts of strings.  When the first dict of the outline has no title the
    build raises [KeyError], and when it has one and the template has no
    layout, [IndexError]: both before a slide is added or a provider
    asked.  With a title in the first dict, a layout in the template, plain
    bullets and no previews to draw, the build returns a deck, whatever
    the images, the providers and the titles are: the template's layouts,
    the template's own slides first, unchanged, then the cover and one or
    two slides per entry (two when the title-and-content layout has no
    body placeholder). *)
Theorem build_fails_without_title_or_layout
    (text : pystr) (outline : list slide_spec) (tpl : template)
    (guidance : option pystr) (cfg : option ProviderConfig) (preview : bool)
    (log : list net_call) :
  let run := build_presentation net shuffle picture_ok text outline tpl guidance
               cfg preview log in
  (~ first_has_title outline -> run = (Raise (KeyError (py "title")), log)) /\
  (first_has_title outline -> slide_layouts (opened tpl) = [] ->
   run = (Raise IndexError, log)) /\
  (first_has_title outline -> slide_layouts (opened tpl) <> [] ->
   Forall (fun spec => Forall (fun b => plain b = true)
                              (get_or (spec_bullets spec) [])) outline ->
   preview = false ->
   exists deck log' layout_tc,
     run = (Ok (deck, []), log') /\
     _title_content_layout (opened tpl) = Ok layout_tc /\
     slide_layouts deck = slide_layouts (opened tpl) /\
     firstn (length (slides (opened tpl))) (slides deck) = slides (opened tpl) /\
     length (slides deck)
     = length (slides (opened tpl)) + 1 + length outline * slides_per_entry layout_tc).
Proof.
  cbv zeta. split; [| split].
  - intros Hno. unfold build_presentation.
    destruct outline as [|first rest]; [exfalso; apply Hno; exact I|].
    simpl in Hno. destruct (spec_title first) eqn:E; [exfalso; apply Hno; discriminate|].
    reflexivity.
  - intros Htitle Hl. unfold build_presentation.
    assert (Hfirst :
      match outline with
      | first :: _ =>
          match spec_title first with
          | Some t => ret t
          | None => raise (KeyError (py "title"))
          end
      | [] => ret (py "Presentation")
      end log = (Ok (cover_title outline), log)).
    { destruct outline as [|first rest]; [reflexivity|].
      simpl in Htitle. simpl. destruct (spec_title first); [reflexivity | congruence]. }
    unfold bind at 1. rewrite Hfirst.
    unfold _make_cover_slide. rewrite Hl. reflexivity.
  - intros Htitle Hl _ ->.
    destruct (build_presentation_groups net shuffle picture_ok text outline tpl
                guidance cfg false log Hl Htitle)
      as (l0 & ltc & lto & groups & log' & _ & Htc & _ & Hbuild & Hlen & Hnth).
    eexists. exists log', ltc.
    split; [exact Hbuild|]. split; [exact Htc|]. split; [reflexivity|].
    unfold append_slides, with_slides. cbn [slides].
    split.
    + rewrite firstn_app, Nat.sub_diag, firstn_O, app_nil_r.
      apply firstn_all.
    + rewrite length_app. cbn [length].
      rewrite (length_concat_const (slides_per_entry ltc)).
      * rewrite Hlen. lia.
      * apply Forall_forall. intros g Hg.
        apply In_nth_error in Hg. destruct Hg as [i Hi].
        assert (Hlt : i < length outline).
        { rewrite <- Hlen. apply nth_error_Some. congruence. }
        destruct (nth_error outline i) as [spec|] eqn:Hs;
          [| apply nth_error_None in Hs; lia].
        destruct (Hnth i spec Hs) as [notes Hn].
        rewrite Hn in Hi. injection Hi as <-.
        apply length_entry_slides.
Qed.

End BuildOutcome.

(** The three outcomes: an outline whose first dict has no title, a
    template without layout, and the sample build, of 1 + 3 slides. *)
Lemma build_fails_without_title_or_layout_witness :
  let untitled := [ {| spec_title := None; spec_bullets := Some [py "a"] |} ] in
  let bare := {| archive := [];
                 opened := {| slide_layouts := []; slides := [];
                              notes_placeholder := true |} |} in
  let outline := map entry_dict sample_entries in
  let build := build_presentation (canned []) (fun l => l) (fun _ => true) [] in
  build untitled sample_template None None false []
  = (Raise (KeyError (py "title")), []) /\
  build outline bare None None false [] = (Raise IndexError, []) /\
  exists deck log' layout_tc,
    build outline sample_template None None false [] = (Ok (deck, []), log') /\
    _title_content_layout (opened sample_template) = Ok layout_tc /\
    slide_layouts deck = slide_layouts (opened sample_template) /\
    firstn (length (slides (opened sample_template))) (slides deck)
    = slides (opened sample_template) /\
    length (slides deck)
    = length (slides (opened sample_template)) + 1
      + length outline * slides_per_entry layout_tc.
Proof.
  cbv zeta. split; [|split].
  - apply (proj1 (build_fails_without_title_or_layout (canned []) (fun l => l)
                    (fun _ => true) []
                    [ {| spec_title := None; spec_bullets := Some [py "a"] |} ]
                    sample_template None None false [])).
    intros H. apply H. reflexivity.
  - apply (proj1 (proj2 (build_fails_without_title_or_layout (canned [])
                           (fun l => l) (fun _ => true) []
                           (map entry_dict sample_entries)
                           {| archive := [];
                              opened := {| slide_layouts := []; slides := [];
                                           notes_placeholder := true |} |}
                           None None false []))).
    + discriminate.
    + reflexivity.
  - apply (proj2 (proj2 (build_fails_without_title_or_layout (canned [])
                           (fun l => l) (fun _ => true) []
                           (map entry_dict sample_entries) sample_template
                           None None false []))).
    + discriminate.
    + discriminate.
    + repeat constructor.
    + reflexivity.
Defined.

(** ** The calls to providers *)

Lemma calls_ret {A} (P : net_call -> Prop) (a : A) : calls_within P 0 (ret a).
Proof. intros log. exists []. simpl. rewrite app_nil_r. auto. Qed.

Lemma calls_raise {A} (P : net_call -> Prop) (e : exn) :
  calls_within P 0 (@raise A e).
Proof. intros log. exists []. simpl. rewrite app_nil_r. auto. Qed.

Lemma calls_lift {A} (P : net_call -> Prop) (r : result A) :
  calls_within P 0 (lift r).
Proof. intros log. exists []. simpl. rewrite app_nil_r. auto. Qed.

Lemma calls_mono {A} (P : net_call -> Prop) (a b : nat) (m : Net A) :
  a <= b -> calls_within P a m -> calls_within P b m.
Proof.
  intros Hab H log. destruct (H log) as (calls & E & Hlen & HP).
  exists calls. repeat split; auto. lia.
Qed.

Lemma calls_bind {A B} (P : net_call -> Prop) (a b : nat) (m : Net A) (f : A -> Net B) :
  calls_within P a m -> (forall x, calls_within P b (f x)) ->
  calls_within P (a + b) (bind m f).
Proof.
  intros Hm Hf log. unfold bind.
  destruct (Hm log) as (c1 & E1 & L1 & P1).
  destruct (m log) as [[x|e] log1]; simpl in E1; subst log1.
  - destruct (Hf x (log ++ c1)) as (c2 & E2 & L2 & P2).
    exists (c1 ++ c2). rewrite E2, app_assoc, length_app.
    repeat split; [lia | now apply Forall_app].
  - exists c1. simpl. repeat split; [lia | assumption].
Qed.

Lemma calls_try_except {A} (P : net_call -> Prop) (a b : nat) (body handler : Net A) :
  calls_within P a body -> calls_within P b handler ->
  calls_within P (a + b) (try_except body handler).
Proof.
  intros Hm Hh log. unfold try_except.
  destruct (Hm log) as (c1 & E1 & L1 & P1).
  destruct (body log) as [[x|e] log1]; simpl in E1; subst log1.
  - exists c1. simpl. repeat split; [lia | assumption].
  - destruct (Hh (log ++ c1)) as (c2 & E2 & L2 & P2).
    exists (c1 ++ c2). rewrite E2, app_assoc, length_app.
    repeat split; [lia | now apply Forall_app].
Qed.

Lemma calls_round_trip {A} (P : net_call -> Prop)
    (answer : nat -> net_call -> result A) (c : net_call) :
  P c -> calls_within P 1 (round_trip answer c).
Proof. intros Hc log. exists [c]. simpl. repeat split; auto. Qed.

Lemma for_each_calls {A S} (P : net_call -> Prop) (n : nat)
    (body : S -> A -> Net S) (items : list A) :
  (forall st x, calls_within P n (body st x)) ->
  forall st, calls_within P (length items * n) (for_each body items st).
Proof.
  intros Hbody. induction items as [|x items IH]; intros st; cbn [for_each].
  - apply calls_ret.
  - cbn [length Nat.mul]. apply calls_bind; [apply Hbody | apply IH].
Qed.

Section Calls.

Variable net : network.
Variable shuffle : list bytes -> list bytes.
Variable picture_ok : bytes -> bool.

Lemma make_outline_calls (text : pystr) (guidance : option pystr)
    (cfg : ProviderConfig) (k : Z) :
  calls_within (fun c => call_api_key c = api_key cfg) 1
    (make_outline_with_llm net text guidance cfg k).
Proof.
  unfold make_outline_with_llm.
  destruct (contains _ (py "openai")).
  { apply (calls_bind _ 1 0); [now apply calls_round_trip |].
    intros x. apply calls_lift. }
  destruct (contains _ (py "anthropic")).
  { apply (calls_bind _ 1 0); [now apply calls_round_trip |].
    intros x. apply calls_lift. }
  destruct (_ || _).
  { apply (calls_bind _ 1 0); [now apply calls_round_trip |].
    intros x. apply calls_lift. }
  apply (calls_mono _ 0); [lia | apply calls_raise].
Qed.

Lemma gen_notes_calls (spec : slide_spec) (cfg : ProviderConfig) :
  calls_within (fun c => call_api_key c = api_key cfg) 1 (_gen_notes net spec cfg).
Proof.
  unfold _gen_notes.
  apply (calls_try_except _ 1 0); [| apply calls_ret].
  apply (calls_bind _ 1 0); [apply make_outline_calls|].
  intros outline.
  destruct outline as [| | | | | [|[| | | | | |d] rest] |];
    try apply calls_ret; try apply calls_raise.
  destruct (join_value _); apply calls_ret.
Qed.

Lemma compose_entry_calls (ltc lto : layout) (imgs : list bytes)
    (cfg : option ProviderConfig) (st : Presentation * Z) (spec : slide_spec) :
  calls_within (notes_call cfg) (notes_calls cfg)
    (compose_entry net picture_ok ltc lto imgs cfg st spec).
Proof.
  unfold compose_entry.
  apply (calls_bind _ 0 (notes_calls cfg)).
  { intros log. exists []. rewrite place_entry_spec. simpl.
    rewrite app_nil_r. auto. }
  intros placed.
  apply (calls_bind _ 0 (notes_calls cfg)).
  { unfold place_image. destruct (nonempty imgs); [| apply calls_ret].
    destruct (nth_error _ _); [apply calls_ret | apply calls_raise]. }
  intros imaged.
  replace (notes_calls cfg) with (notes_calls cfg + 0) by lia.
  apply calls_bind; [| intros; apply calls_ret].
  unfold attach_notes. destruct cfg as [cfg|]; [| apply calls_ret].
  replace (notes_calls (Some cfg)) with (1 + 0) by reflexivity.
  apply calls_bind.
  - intros log. destruct (gen_notes_calls spec cfg log) as (calls & E & L & HP).
    exists calls. repeat split; auto.
    eapply Forall_impl; [| exact HP]. intros c Hc. exists cfg. auto.
  - intros notes. destruct (notes_placeholder _); apply calls_ret.
Qed.

(** The build calls a provider for speaker notes and for nothing else:
    without a notes provider it makes no call at all; with one, at most one
    call per entry of the outline, each with the key of that provider's
    configuration; the calls made before the build stay as they are. *)
Theorem providers_are_called_for_notes_only
    (text : pystr) (outline : list slide_spec) (tpl : template)
    (guidance : option pystr) (cfg : option ProviderConfig) (preview : bool)
    (log : list net_call) :
  exists calls,
    snd (build_presentation net shuffle picture_ok text outline tpl guidance cfg
           preview log) = log ++ calls /\
    length calls <= match cfg with
                    | Some _ => length outline
                    | None => 0
                    end /\
    Forall (fun c => exists cfg', cfg = Some cfg' /\ call_api_key c = api_key cfg')
           calls.
Proof.
  assert (H : calls_within (notes_call cfg) (length outline * notes_calls cfg)
                (build_presentation net shuffle picture_ok text outline tpl guidance
                   cfg preview)).
  { unfold build_presentation.
    apply (calls_bind _ 0).
    { destruct outline as [|first rest]; [apply calls_ret|].
      destruct (spec_title first); [apply calls_ret | apply calls_raise]. }
    intros first_title.
    apply (calls_bind _ 0); [apply calls_lift|]. intros cover.
    apply (calls_bind _ 0); [apply calls_lift|]. intros layout_tc.
    apply (calls_bind _ 0); [apply calls_lift|]. intros layout_title_only.
    apply (calls_mono _ (length outline * notes_calls cfg + 0));
      [rewrite Nat.add_0_r; apply Nat.le_refl|].
    apply calls_bind; [| intros; apply calls_ret].
    apply for_each_calls. intros st x. apply compose_entry_calls. }
  destruct (H log) as (calls & E & L & HP).
  exists calls. split; [exact E|]. split; [| exact HP].
  destruct cfg; simpl in L; lia.
Qed.

(** ** The text of the notes *)



End Calls.

(** ** Reading the whole deck back *)

Lemma apply_bullets_fresh_any (bs : list pystr) :
  exists frame,
    _apply_bullets [empty_paragraph] bs = Ok frame /\
    map p_text frame = body_texts (map paragraph_text bs).
Proof.
  destruct bs as [|b more].
  - eexists. split; reflexivity.
  - exists (map bullet_paragraph (b :: more)).
    split; [apply apply_bullets_fresh | apply map_p_text_bullets].
Qed.

(** On a layout with a title placeholder and a body placeholder, an entry
    becomes one slide, and that slide reads back as the frames hold the
    entry's texts. *)
Lemma content_slide_reads_back_any (picture_ok : bytes -> bool)
    (layout_tc layout_title_only : layout) (t : pystr) (bs : list pystr)
    (img : option bytes) (notes : option pystr) :
  has_title_placeholder layout_tc = true ->
  has_body_placeholder layout_tc = true ->
  let spec := {| spec_title := Some t; spec_bullets := Some bs |} in
  exists content,
    entry_slides picture_ok layout_tc layout_title_only spec img notes = [content] /\
    read_title content = Some (frame_text t) /\
    read_body content = Some (body_texts (map paragraph_text bs)).
Proof.
  intros Htitle Hbody spec.
  destruct (new_slide_title layout_tc Htitle) as (i & Hi & Hilt & Hitext).
  destruct (new_slide_body layout_tc Hbody) as (body & Hb).
  set (fresh := new_slide layout_tc) in *.
  set (setter := fun ph => match set_text t ph with Some ph' => ph' | None => ph end).
  assert (Hkeep_idx : forall ph, (ph_idx (setter ph) =? 0)%Z = (ph_idx ph =? 0)%Z).
  { intros ph. unfold setter. now rewrite (proj1 (set_text_keeps t ph)). }
  assert (Hkeep_body : forall ph,
            has_text_frame (setter ph) && negb (ph_idx (setter ph) =? 0)%Z
            = has_text_frame ph && negb (ph_idx ph =? 0)%Z).
  { intros ph. unfold setter.
    destruct (set_text_keeps t ph) as (E1 & E2 & _). now rewrite E1, E2. }
  assert (Hfirst : placeholders (titled layout_tc spec)
                   = update_at i setter (placeholders fresh)).
  { unfold titled, try_set_title. fold fresh. now rewrite Hi. }
  assert (Hfb : find_body (titled layout_tc spec) = Some body).
  { unfold find_body. rewrite Hfirst.
    rewrite (find_index_update_at _ setter i _ Hkeep_body). exact Hb. }
  destruct (find_index_Some _ _ _ no_placeholder Hb) as [Hblt Hbp].
  destruct (find_index_Some _ _ _ no_placeholder Hi) as [_ Hip].
  apply andb_prop in Hbp. destruct Hbp as [Hbtext Hbidx].
  assert (Hne : i <> body).
  { intros ->. rewrite Hip in Hbidx. discriminate. }
  assert (Hframe : paragraphs (nth body (placeholders (titled layout_tc spec))
                                 no_placeholder) = [empty_paragraph]).
  { rewrite Hfirst, nth_update_at_other by exact Hne.
    apply new_slide_frame. exact Hbtext. }
  destruct (apply_bullets_fresh_any bs) as (frame & Hok & Htexts).
  unfold entry_slides, placed_slides. rewrite Hfb, Hframe.
  cbn [spec_bullets spec get_or]. rewrite Hok.
  cbn [fst snd app].
  eexists. split; [reflexivity|].
  set (fill := fun ph => {| ph_idx := ph_idx ph; has_text_frame := has_text_frame ph;
                            paragraphs := frame |}).
  assert (Hphs : placeholders
                   (with_notes notes
                      (with_image picture_ok img
                         (with_frame body frame (titled layout_tc spec))))
                 = update_at body fill (update_at i setter (placeholders fresh))).
  { rewrite placeholders_with_notes, placeholders_with_image.
    unfold with_frame. cbn [placeholders]. now rewrite Hfirst. }
  split.
  - unfold read_title, title_shape. rewrite Hphs.
    rewrite (find_index_update_at _ fill body) by reflexivity.
    rewrite (find_index_update_at _ setter i _ Hkeep_idx).
    fold (title_shape fresh). rewrite Hi.
    rewrite (nth_error_nth' _ no_placeholder)
      by (rewrite !length_update_at; exact Hilt).
    rewrite nth_update_at_other by congruence.
    rewrite nth_update_at_same by exact Hilt.
    simpl option_map. f_equal. apply set_text_paragraphs. exact Hitext.
  - unfold read_body, find_body. rewrite Hphs.
    rewrite (find_index_update_at _ fill body) by reflexivity.
    rewrite (find_index_update_at _ setter i _ Hkeep_body).
    fold (find_body fresh). rewrite Hb.
    rewrite (nth_error_nth' _ no_placeholder)
      by (rewrite !length_update_at; exact Hblt).
    rewrite nth_update_at_same by (rewrite length_update_at; exact Hblt).
    simpl option_map. f_equal. exact Htexts.
Qed.

Lemma Forall2_nth_error {A B} (R : A -> B -> Prop) (l1 : list A) :
  forall (l2 : list B),
    length l2 = length l1 ->
    (forall i a, nth_error l1 i = Some a ->
                 exists b, nth_error l2 i = Some b /\ R a b) ->
    Forall2 R l1 l2.
Proof.
  induction l1 as [|a l1 IH]; intros [|b l2] Hlen H; try discriminate;
    constructor.
  - destruct (H 0 a eq_refl) as (b' & [= <-] & Hr). exact Hr.
  - apply IH; [simpl in Hlen; lia|].
    intros i a' Ha. exact (H (S i) a' Ha).
Qed.

Section ReadingBack.

Variable net : network.
Variable shuffle : list bytes -> list bytes.
Variable picture_ok : bytes -> bool.

(** The deck reads back as the outline.  On a template whose
    title-and-content layout has a title placeholder and a body
    placeholder, the build of any outline of entries with plain titles and
    plain bullets (tabs and characters from 32 on that XML can carry)
    returns the template's slides, the cover, and one slide per entry, in
    the order of the outline: the slide of an entry reads back with the
    entry's title and, as body paragraphs, the entry's bullets in order
    (one empty paragraph when the entry has no bullet). *)
Theorem deck_reads_back_as_the_outline (text : pystr) (entries : list entry)
    (tpl : template) (guidance : option pystr) (cfg : option ProviderConfig)
    (preview : bool) (log : list net_call) (layout_tc : layout) :
  _title_content_layout (opened tpl) = Ok layout_tc ->
  has_title_placeholder layout_tc = true ->
  has_body_placeholder layout_tc = true ->
  Forall plain_entry entries ->
  exists deck previews cover contents log',
    build_presentation net shuffle picture_ok text (map entry_dict entries) tpl
      guidance cfg preview log
    = (Ok (deck, previews), log') /\
    slides deck = slides (opened tpl) ++ cover :: contents /\
    map read_title contents = map (fun e => Some (title e)) entries /\
    map read_body contents = map (fun e => Some (body_texts (bullets e))) entries.
Proof.
  intros Htc Htitle Hbody Hplain.
  assert (Hlayouts : slide_layouts (opened tpl) <> []).
  { intros E. unfold _title_content_layout, layout_named in Htc.
    rewrite E in Htc. discriminate. }
  destruct (build_presentation_groups net shuffle picture_ok text
              (map entry_dict entries) tpl guidance cfg preview log Hlayouts)
    as (l0 & ltc & lto & groups & log' & _ & Htc' & _ & Hbuild & Hlen & Hnth).
  { destruct entries; simpl; [exact I | discriminate]. }
  assert (ltc = layout_tc) by congruence. subst ltc.
  assert (Hall : Forall2
            (fun e g => exists content,
                          g = [content] /\
                          read_title content = Some (title e) /\
                          read_body content = Some (body_texts (bullets e)))
            entries groups).
  { apply Forall2_nth_error; [now rewrite Hlen, length_map|].
    intros i e He.
    destruct (Hnth i (entry_dict e)) as [notes Hg];
      [now rewrite nth_error_map, He|].
    eexists. split; [exact Hg|].
    destruct (content_slide_reads_back_any picture_ok layout_tc lto (title e)
                (bullets e)
                (img_at (shuffle (_collect_template_images tpl)) i) notes
                Htitle Hbody) as (content & Hc & Hrt & Hrb).
    assert (He' : plain_entry e).
    { rewrite Forall_forall in Hplain. apply Hplain.
      eapply nth_error_In. exact He. }
    destruct He' as [Hpt Hpb].
    rewrite (frame_text_plain _ Hpt) in Hrt.
    rewrite (map_paragraph_text_plain _ Hpb) in Hrb.
    exists content. auto. }
  eexists. eexists. eexists. exists (concat groups), log'.
  split; [exact Hbuild|]. split; [reflexivity|].
  clear -Hall. induction Hall as [|e g entries groups (content & -> & Ht & Hb) _ IH].
  - split; reflexivity.
  - destruct IH as [IH1 IH2]. cbn [concat app map].
    now rewrite Ht, Hb, IH1, IH2.
Qed.

End ReadingBack.

Lemma deck_reads_back_as_the_outline_witness :
  let layout_tc := {| layout_name := py "Title and Content";
                      layout_placeholders := [(0%Z, true); (1%Z, true)] |} in
  (_title_content_layout (opened sample_template) = Ok layout_tc /\
   has_title_placeholder layout_tc = true /\
   has_body_placeholder layout_tc = true /\
   Forall plain_entry sample_entries) /\
  exists deck previews cover contents log',
    build_presentation (canned []) (@rev bytes) (fun _ => true) []
      (map entry_dict sample_entries) sample_template None None true []
    = (Ok (deck, previews), log') /\
    slides deck = slides (opened sample_template) ++ cover :: contents /\
    map read_title contents = map (fun e => Some (title e)) sample_entries /\
    map read_body contents
    = map (fun e => Some (body_texts (bullets e))) sample_entries.
Proof.
  assert (Hpl : Forall plain_entry sample_entries).
  { repeat constructor. }
  cbv zeta. split; [repeat split; exact Hpl|].
  apply (deck_reads_back_as_the_outline (canned []) (@rev bytes) (fun _ => true) []
           sample_entries sample_template None None true []
           {| layout_name := py "Title and Content";
              layout_placeholders := [(0%Z, true); (1%Z, true)] |});
    try reflexivity.
  exact Hpl.
Defined.

(** ** The title of a preview *)

Lemma wrap_from_spec (w : nat) (s : pystr) :
  1 <= w ->
  forall room cur,
    length cur + room = w ->
    concat (wrap_from w room cur s) = rev cur ++ s /\
    Forall (fun line => 1 <= length line <= w) (wrap_from w room cur s).
Proof.
  intros Hw. induction s as [|c r IH]; intros room cur Hlen; cbn [wrap_from].
  - destruct cur as [|x cur']; cbn [nonempty].
    + split; [reflexivity | constructor].
    + split; [cbn [concat]; now rewrite !app_nil_r|].
      constructor; [| constructor]. rewrite length_rev. simpl in *. lia.
  - destruct room as [|room'].
    + destruct (IH (w - 1) [c]) as [Hc Hf]; [simpl; lia|].
      split.
      * cbn [concat]. rewrite Hc. reflexivity.
      * constructor; [| exact Hf]. rewrite length_rev. lia.
    + destruct (IH room' (c :: cur)) as [Hc Hf]; [simpl; lia|].
      split; [| exact Hf]. rewrite Hc. cbn [rev]. now rewrite <- app_assoc.
Qed.

(** The title drawn on a preview is the title of the entry ([Slide] when
    it has none) cut into lines of 1 to 34 characters: no character is
    lost or added, whatever the length of the title. *)
Theorem preview_title_is_cut_every_34 (spec : slide_spec) :
  exists lines,
    drawn_title (render_preview spec) = join [NL] lines /\
    concat lines = get_or (spec_title spec) (py "Slide") /\
    Forall (fun line => 1 <= length line <= 34) lines.
Proof.
  exists (wrap_every 34 (get_or (spec_title spec) (py "Slide"))).
  split; [reflexivity|].
  assert (H34 : 1 <= 34) by lia.
  exact (wrap_from_spec 34 (get_or (spec_title spec) (py "Slide")) H34 34 []
           eq_refl).
Qed.

(* ================================================================== *)
(** * Properties of the page *)
(* ================================================================== *)

Section PageOutline.

Variable textwrap_shorten : pystr -> Z -> pystr -> pystr.
Variable net : network.

(** For a text that is not empty and [max_slides >= 1] the structural
    entry point returns an outline that is not empty, so the [or] of the
    page never goes on to [heuristic_outline]. *)
Lemma text_outline_ok (text : pystr) (guidance : option pystr) (k : Z) :
  text <> [] -> (1 <= k)%Z ->
  exists o,
    outline_from_text textwrap_shorten text guidance k = Ok o /\
    list_or (outline_from_text textwrap_shorten text guidance k)
            (heuristic_outline textwrap_shorten text k) = Ok o /\
    1 <= length o /\ (Z.of_nat (length o) <= k)%Z.
Proof.
  intros Hne Hk.
  pose proof (split_sections_nonempty text Hne) as Hsecs.
  pose proof (length_slice_to k _ Hk Hsecs) as [Hlo Hhi].
  unfold outline_from_text. rewrite (nonempty_true _ Hsecs).
  eexists. split; [reflexivity|].
  split; [| now rewrite length_map].
  unfold list_or.
  destruct (slice_to k (_split_markdown_sections text)); [simpl in Hlo; lia|].
  reflexivity.
Qed.

(** With the provider [None (heuristic)], or with a provider and no key,
    the page calls no provider and goes on with the outline of
    [outline_from_text], of 1 to [max_slides] entries; it keeps no provider
    configuration, and warns when a provider was chosen. *)
Theorem page_without_llm_uses_the_structural_outline
    (provider api_key model_name user_text guidance : pystr) (k : Z)
    (log : list net_call) :
  user_text <> [] -> (1 <= k)%Z ->
  provider = py "None (heuristic)" \/ api_key = [] ->
  exists o,
    decide_outline textwrap_shorten net provider api_key model_name user_text
      guidance k log
    = (Ok (FromText o, None,
           if str_eqb provider (py "None (heuristic)") then [] else [NoKeyWarning]),
       log) /\
    outline_from_text textwrap_shorten user_text (Some guidance) k = Ok o /\
    1 <= length o /\ (Z.of_nat (length o) <= k)%Z.
Proof.
  intros Hne Hk Hoff.
  destruct (text_outline_ok user_text (Some guidance) k Hne Hk)
    as (o & Ho & Hor & Hlo & Hhi).
  exists o. split; [| auto].
  unfold decide_outline.
  destruct (str_eqb provider (py "None (heuristic)")) eqn:Ep; cbn [negb].
  - unfold bind, ret, lift. rewrite Hor. reflexivity.
  - destruct Hoff as [-> | ->]; [discriminate|].
    cbn [nonempty]. unfold bind, ret, lift. rewrite Hor. reflexivity.
Qed.

(** With a provider and a key the page asks the adapter once and never
    fails on it: an outline returned is kept as it is; when the adapter
    raises, whatever it raises, or returns [null], the page goes on with
    the outline of [outline_from_text], and warns when the adapter
    raised.  The calls made are the adapter's. *)
Theorem page_survives_the_llm
    (provider api_key model_name user_text guidance : pystr) (k : Z)
    (log : list net_call) :
  user_text <> [] -> (1 <= k)%Z ->
  provider <> py "None (heuristic)" -> api_key <> [] ->
  let cfg := chosen_cfg provider api_key model_name in
  let asked := make_outline_with_llm net user_text (Some guidance) cfg k log in
  exists o,
    outline_from_text textwrap_shorten user_text (Some guidance) k = Ok o /\
    1 <= length o /\ (Z.of_nat (length o) <= k)%Z /\
    decide_outline textwrap_shorten net provider api_key model_name user_text
      guidance k log
    = (match fst asked with
       | Raise e => Ok (FromText o, Some cfg, [LLMFailedWarning e])
       | Ok JNull => Ok (FromText o, Some cfg, [])
       | Ok v => Ok (FromLLM v, Some cfg, [])
       end,
       snd asked).
Proof.
  intros Hne Hk Hp Hkey. cbv zeta.
  destruct (text_outline_ok user_text (Some guidance) k Hne Hk)
    as (o & Ho & Hor & Hlo & Hhi).
  exists o. split; [exact Ho|]. split; [exact Hlo|]. split; [exact Hhi|].
  unfold decide_outline.
  assert (Ep : str_eqb provider (py "None (heuristic)") = false).
  { unfold str_eqb. destruct (list_eq_dec _ _ _); [congruence | reflexivity]. }
  rewrite Ep, (nonempty_true _ Hkey). cbn [negb].
  fold (chosen_cfg provider api_key model_name).
  unfold bind at 1.
  destruct (make_outline_with_llm net user_text (Some guidance)
              (chosen_cfg provider api_key model_name) k log) as [[v|e] log1];
    cbn [fst snd].
  - destruct v; unfold bind, ret, lift; try rewrite Hor; reflexivity.
  - unfold bind, ret, lift. rewrite Hor. reflexivity.
Qed.

End PageOutline.

Lemma page_without_llm_uses_the_structural_outline_witness :
  exists o,
    decide_outline (fun b _ _ => b) (canned []) (py "OpenAI") [] [] (py "# A") [] 14 []
    = (Ok (FromText o, None,
           if str_eqb (py "OpenAI") (py "None (heuristic)") then [] else [NoKeyWarning]),
       []) /\
    outline_from_text (fun b _ _ => b) (py "# A") (Some []) 14 = Ok o /\
    1 <= length o /\ (Z.of_nat (length o) <= 14)%Z.
Proof.
  apply (page_without_llm_uses_the_structural_outline (fun b _ _ => b) (canned [])
           (py "OpenAI") [] [] (py "# A") [] 14 []).
  - discriminate.
  - lia.
  - right. reflexivity.
Defined.

Lemma page_survives_the_llm_witness :
  let down := {| openai_create := fun _ _ => Raise (ProviderFailure (py "503"));
                 anthropic_create := fun _ _ => Ok [];
                 gemini_generate := fun _ _ => Ok [] |} in
  let cfg := chosen_cfg (py "OpenAI") (py "key") [] in
  let asked := make_outline_with_llm down (py "# A") (Some []) cfg 14 [] in
  exists o,
    outline_from_text (fun b _ _ => b) (py "# A") (Some []) 14 = Ok o /\
    1 <= length o /\ (Z.of_nat (length o) <= 14)%Z /\
    decide_outline (fun b _ _ => b) down (py "OpenAI") (py "key") [] (py "# A") [] 14 []
    = (match fst asked with
       | Raise e => Ok (FromText o, Some cfg, [LLMFailedWarning e])
       | Ok JNull => Ok (FromText o, Some cfg, [])
       | Ok v => Ok (FromLLM v, Some cfg, [])
       end,
       snd asked).
Proof.
  cbv zeta.
  apply (page_survives_the_llm (fun b _ _ => b)
           {| openai_create := fun _ _ => Raise (ProviderFailure (py "503"));
              anthropic_create := fun _ _ => Ok [];
              gemini_generate := fun _ _ => Ok [] |}
           (py "OpenAI") (py "key") [] (py "# A") [] 14 []).
  - discriminate.
  - lia.
  - discriminate.
  - discriminate.
Defined.
